(** * IMSEQ: deduplicating FASTQ records into multi-records

    A shallow embedding of [fastq_multi_record.h] (the collection of
    multi-records, its two-level index, the running mean of the base
    qualities, the ingestion loop and the barcode statistics) and of the
    parts of [fastq_io.h] it calls (barcode splitting, the first quality
    control), followed by the properties established about them.

    Conventions of the embedding.
    - A SeqAn [String<T>] is a [list T]; a [std::map] is a [gmap], visited
      in ascending order of its keys where the source iterates over it; the
      set of FASTQ identifiers of a multi-record is a [gset string].
    - A failed [SEQAN_CHECK] aborts the program and a call through a null
      pointer has no defined behaviour: functions that can reach either
      return in the [result] monad, with the kind of fault recorded.
    - [uint64_t] counters are integers reduced modulo [2^64] where the
      source adds to them.
    - [float] is IEEE 754 binary32 and [double] binary64, rounding to
      nearest even, as computed by the executable specification
      [SpecFloat] of the standard library. *)

From Stdlib Require Import ZArith Lia.
From Stdlib Require Import Floats.SpecFloat.
From stdpp Require Import gmap strings list fin_maps sorting.

(** ** Faults *)

Inductive fault : Type :=
  | CheckFailure   (* SEQAN_CHECK(false, ...) *)
  | NullPointer.   (* member call through a null pointer *)

Inductive result (A : Type) : Type :=
  | Ok (a : A)
  | Fault (f : fault).
Arguments Ok {A} a.
Arguments Fault {A} f.

#[global] Instance result_ret : MRet result := fun _ a => Ok a.
#[global] Instance result_bind : MBind result := fun _ _ k r =>
  match r with
  | Ok a => k a
  | Fault f => Fault f
  end.

Definition SEQAN_CHECK (cond : bool) : result unit :=
  if cond then Ok tt else Fault CheckFailure.

Definition isOk {A} (r : result A) : bool :=
  match r with Ok _ => true | Fault _ => false end.

(** ** Machine integers *)

Definition wrap64 (z : Z) : Z := (z mod 2 ^ 64)%Z.

(** ** Floating point: binary32 and binary64 *)

Abbreviation float := spec_float (only parsing).
Abbreviation double := spec_float (only parsing).

Module F32.
Definition prec : Z := 24.
Definition emax : Z := 128.
Definition of_Z (z : Z) : float := binary_normalize prec emax z 0 false.
Definition mul : float -> float -> float := SFmul prec emax.
Definition add : float -> float -> float := SFadd prec emax.
Definition div : float -> float -> float := SFdiv prec emax.
(** Narrowing conversion of a [double], as done by an assignment to a
    [float] lvalue. *)
Definition of_double (d : double) : float :=
  match d with
  | S754_finite s m e => binary_round prec emax s m e
  | _ => d
  end.
End F32.

Module F64.
Definition prec : Z := 53.
Definition emax : Z := 1024.
Definition of_Z (z : Z) : double := binary_normalize prec emax z 0 false.
Definition mul : double -> double -> double := SFmul prec emax.
Definition add : double -> double -> double := SFadd prec emax.
Definition div : double -> double -> double := SFdiv prec emax.
(** Widening conversion of a [float]; it is exact. *)
Definition of_float (x : float) : double :=
  match x with
  | S754_finite s m e => binary_round prec emax s m e
  | _ => x
  end.
End F64.

#[global] Instance spec_float_eq_dec : EqDecision spec_float.
Proof. solve_decision. Defined.

(** ** Residues *)

Inductive Dna5 : Type := A | C | G | T | N.

#[global] Instance Dna5_eq_dec : EqDecision Dna5.
Proof. solve_decision. Defined.

Definition Dna5_to_nat (b : Dna5) : nat :=
  match b with A => 0 | C => 1 | G => 2 | T => 3 | N => 4 end.

Definition Dna5_of_nat (n : nat) : option Dna5 :=
  match n with
  | 0 => Some A | 1 => Some C | 2 => Some G | 3 => Some T | 4 => Some N
  | _ => None
  end.

#[global] Instance Dna5_countable : Countable Dna5.
Proof.
  apply (inj_countable Dna5_to_nat Dna5_of_nat). by intros [].
Defined.

(** Modelled from the spec: [Dna5Q] is SeqAn's residue with a quality; a
    sequence payload carries "per-base quality scores", read back with
    [getQualityValue]. The record holds the two components. *)
Record Dna5Q : Type := mkDna5Q { base : Dna5; getQualityValue : Z }.

(** Quality given to a residue converted from [Dna5] (SeqAn's default). *)
Definition defaultQuality : Z := 60.

Definition toDna5 (s : list Dna5Q) : list Dna5 := base <$> s.
Definition toDna5Q (s : list Dna5) : list Dna5Q :=
  (fun b => mkDna5Q b defaultQuality) <$> s.

(** ** [fastq_io.h]: separating the barcode from the read *)

(** [infix(seq, b, e)]: positions [b], ..., [e-1]. *)
Definition infix {X} (s : list X) (b e : nat) : list X := take (e - b) (drop b s).

(** [resize(s, n, x)] *)
Definition resize {X} (s : list X) (n : nat) (x : X) : list X :=
  take n s ++ replicate (n - length s) x.

(** The two reference parameters [seq] and [bcSeq] are returned next to the
    boolean, in this order. [resize(bcSeq, 0)] keeps the first [0] residues. *)
Definition splitBarcodeSeq {X} (seq bcSeq : list X) (barcodeLength : nat)
  : bool * list X * list X :=
  if decide (barcodeLength = 0) then (true, seq, bcSeq)
  else if decide (length seq < barcodeLength) then (false, seq, take 0 bcSeq)
  else
    let bc := infix seq 0 barcodeLength in
    let _seq := infix seq barcodeLength (length seq) in
    (true, _seq, bc).

(** ** Running mean of the base qualities *)

(** [updateMeanQualityValues(targetQualities, targetWeight, newQualities,
    newWeight)]: the two-group form. The products and the sum are computed
    in [double], the divisor is the [uint64_t] sum of the weights, and the
    quotient is narrowed when stored into the [String<float>]. *)
Definition mergeMean (targetWeight newWeight : Z) (t n : float) : float :=
  F32.of_double
    (F64.div
       (F64.add (F64.mul (F64.of_Z targetWeight) (F64.of_float t))
                (F64.mul (F64.of_Z newWeight) (F64.of_float n)))
       (F64.of_Z (wrap64 (targetWeight + newWeight)))).

Definition updateMeanQualityValues_weighted
    (targetQualities : list float) (targetWeight : Z)
    (newQualities : list float) (newWeight : Z) : result (list float) :=
  _ ← SEQAN_CHECK
        (bool_decide (length targetQualities = 0 ∧ targetWeight = 0%Z)
         || bool_decide (length targetQualities = length newQualities
                         ∧ 0 < length targetQualities));
  if decide (length targetQualities = 0) then Ok newQualities
  else Ok (zip_with (mergeMean targetWeight newWeight) targetQualities newQualities).

(** [updateMeanQualityValues(qualities, origWeight, seq)]: folding one read
    in. Every operation is a [float] operation; both weights are converted
    from [uint64_t] and the quality value from [int]. *)
Definition foldMean (origWeight : Z) (q : float) (c : Dna5Q) : float :=
  F32.div
    (F32.add (F32.mul q (F32.of_Z origWeight)) (F32.of_Z (getQualityValue c)))
    (F32.of_Z (wrap64 (origWeight + 1))).

Definition updateMeanQualityValues_seq
    (qualities : list float) (origWeight : Z) (seq : list Dna5Q)
  : result (list float) :=
  _ ← SEQAN_CHECK
        (bool_decide (length qualities = 0 ∧ origWeight = 0%Z)
         || bool_decide (length qualities = length seq ∧ (0 < origWeight)%Z));
  let qualities :=
    if decide (origWeight = 0%Z) then resize qualities (length seq) (F32.of_Z 0)
    else qualities in
  Ok (zip_with (foldMean origWeight) qualities seq).

(** ** Options, reject reasons, progress bar *)

(** Modelled from the spec: [CdrOptions] is declared in [runtime_options.h];
    these are the thresholds the quality control and the reader consult
    ("minimum barcode base quality, minimum average read quality, minimum
    read length, barcode length, and a single-end fallback flag"), with the
    flag that selects the read carrying the barcode. *)
Record CdrOptions : Type := mkCdrOptions {
  barcodeLength : nat;
  barcodeVDJRead : bool;
  bcQmin : Z;
  qmin : Z;
  minReadLength : nat;
  singleEndFallback : bool
}.

Inductive RejectReason : Type :=
  | NONE
  | N_IN_BARCODE
  | LOW_QUALITY_BARCODE_BASE
  | AVERAGE_QUAL_FAIL
  | READ_TOO_SHORT
  | TOO_SHORT_FOR_BARCODE.

#[global] Instance RejectReason_eq_dec : EqDecision RejectReason.
Proof. solve_decision. Defined.

Record RejectEvent : Type := mkRejectEvent { rejId : string; rejReason : RejectReason }.

#[global] Instance RejectEvent_eq_dec : EqDecision RejectEvent.
Proof. solve_decision. Defined.

(** [contains(rec.bcSeq, 'N')] *)
Definition contains (s : list Dna5Q) (b : Dna5) : bool :=
  existsb (fun c => bool_decide (base c = b)) s.

(** Modelled from the spec: [ProgressBar] is declared in [progress_bar.h];
    it is "an injectable, optional observer invoked at a coarse cadence with
    cumulative byte progress". The model keeps the total it was built with
    and what it was told. A [ProgressBar *] is an [option]. *)
Record ProgressBar : Type := mkProgressBar { pbTotal : Z; pbSeen : list Z }.

Definition updateAndPrint (p : ProgressBar) (bytes : Z) : ProgressBar :=
  mkProgressBar (pbTotal p) (pbSeen p ++ [bytes]).

(** [progBar->clear()], a member call through the pointer. *)
Definition progBar_clear (progBar : option ProgressBar) : result unit :=
  match progBar with
  | Some _ => Ok tt
  | None => Fault NullPointer
  end.

(** ** Barcode statistics *)

(** Modelled from the spec: [BarcodeStats], "for each retained barcode the
    barcode value, total read count, unique-content count; plus grand totals
    across all barcodes". *)
Record BarcodeStats : Type := mkBarcodeStats {
  bcSeqs : list (list Dna5);
  nReads : list Z;
  nUniqueReads : list Z;
  nTotalUniqueReads : Z;
  nTotalReads : Z
}.

Definition emptyStats : BarcodeStats := mkBarcodeStats [] [] [] 0 0.

(** ** Iterating over the index *)

(** Modelled from the spec: the Content Index is "a nested mapping from
    barcode -> sequence -> aggregate slot" whose types are declared in
    [fastq_multi_record_types.h]; each level is a [std::map] keyed by the
    residues, which an iterator visits from [begin()] to [end()] in
    ascending order of the keys. [isLess] is SeqAn's comparison of two
    strings, the one behind [operator<]: lexicographic by [ordValue]
    ([A < C < G < T < N]), a proper prefix coming first. *)
Fixpoint isLess (s t : list Dna5) : bool :=
  match s, t with
  | _, [] => false
  | [], _ :: _ => true
  | a :: s, b :: t =>
      if decide (Dna5_to_nat a < Dna5_to_nat b) then true
      else if decide (Dna5_to_nat b < Dna5_to_nat a) then false
      else isLess s t
  end.

(** The order of two entries of a map: the second key is not less than the
    first. *)
Definition keyLe {V} (x y : list Dna5 * V) : Prop := isLess y.1 x.1 = false.

#[global] Instance keyLe_dec {V} (x y : list Dna5 * V) : Decision (keyLe x y).
Proof. unfold keyLe. apply _. Defined.

(** The entries of a map in the order of iteration. *)
Definition mapEntries {V} (m : gmap (list Dna5) V) : list (list Dna5 * V) :=
  merge_sort keyLe (map_to_list m).

(** ** Orientation *)

(** SeqAn's [reverseComplement] on a string of [Dna5Q], the library
    function the orientation functions of [fastq_io.h] call: the residues
    in reverse order, each base replaced by its complement ([N] stays [N]),
    each quality staying with its residue. *)
Definition complement (b : Dna5) : Dna5 :=
  match b with A => T | C => G | G => C | T => A | N => N end.

Definition complementQ (c : Dna5Q) : Dna5Q :=
  mkDna5Q (complement (base c)) (getQualityValue c).

Definition reverseComplement (s : list Dna5Q) : list Dna5Q :=
  reverse (complementQ <$> s).

(** * Single-end collections *)

Module SingleEnd.

(** Modelled from the spec: the record types are declared in
    [fastq_io_types.h] and [fastq_multi_record_types.h]. A Sequence Record
    has "an identifier, one sequence payload, a barcode payload and per-base
    quality scores"; an Aggregate Record has the barcode and the sequence
    "copied from the first contributing record", "a set of contributing
    identifiers" and "a running mean quality vector"; the Content Index is
    "a nested mapping from barcode -> sequence -> aggregate slot", keyed by
    residues; the Aggregate Store is the sequence of owned records. *)
Record FastqRecord : Type := mkFastqRecord {
  id : string;
  seq : list Dna5Q;
  bcSeq : list Dna5Q
}.

Record FastqMultiRecord : Type := mkFastqMultiRecord {
  ids : gset string;
  mBcSeq : list Dna5;
  mSeq : list Dna5;
  qualities : list float
}.

Abbreviation TSeqMap := (gmap (list Dna5) nat) (only parsing).
Abbreviation TBcMap := (gmap (list Dna5) (gmap (list Dna5) nat)) (only parsing).

Record FastqMultiRecordCollection : Type := mkCollection {
  multiRecordPtrs : list FastqMultiRecord;
  bcMap : TBcMap
}.

(** A default-constructed record. *)
Definition emptyRecord : FastqRecord := mkFastqRecord "" [] [].
Definition emptyCollection : FastqMultiRecordCollection := mkCollection [] ∅.

Definition toFastqRecordSkel (mRec : FastqMultiRecord) : FastqRecord :=
  mkFastqRecord "" (toDna5Q (mSeq mRec)) (toDna5Q (mBcSeq mRec)).

Definition getMultiRecord (coll : FastqMultiRecordCollection) (idx : nat)
  : result FastqMultiRecord :=
  _ ← SEQAN_CHECK (bool_decide (idx < length (multiRecordPtrs coll)));
  match multiRecordPtrs coll !! idx with
  | Some m => Ok m
  | None => Fault CheckFailure
  end.

Definition clear (coll : FastqMultiRecordCollection) : FastqMultiRecordCollection :=
  mkCollection [] ∅.

(** The inner loop of [getBarcodeStats]: [(cnt, seqMapSize)] after the
    entries of one [TSeqMap]. *)
Fixpoint getBarcodeStats_seqs (coll : FastqMultiRecordCollection)
    (entries : list (list Dna5 * nat)) (cnt seqMapSize : Z) : result (Z * Z) :=
  match entries with
  | [] => Ok (cnt, seqMapSize)
  | (_, slot) :: entries =>
      m ← getMultiRecord coll slot;
      let cnt := wrap64 (cnt + Z.of_nat (size (ids m))) in
      m' ← getMultiRecord coll slot;
      let seqMapSize :=
        if decide (0 < size (ids m')) then wrap64 (seqMapSize + 1) else seqMapSize in
      getBarcodeStats_seqs coll entries cnt seqMapSize
  end.

(** The outer loop, over the entries of the [TBcMap]. *)
Fixpoint getBarcodeStats_bcs (coll : FastqMultiRecordCollection)
    (entries : list (list Dna5 * gmap (list Dna5) nat)) (stats : BarcodeStats)
  : result BarcodeStats :=
  match entries with
  | [] => Ok stats
  | (bc, seqMap) :: entries =>
      '(cnt, seqMapSize) ← getBarcodeStats_seqs coll (mapEntries seqMap) 0 0;
      let stats :=
        if decide (0 < cnt)%Z then
          mkBarcodeStats (bcSeqs stats ++ [bc]) (nReads stats ++ [cnt])
            (nUniqueReads stats ++ [seqMapSize])
            (wrap64 (nTotalUniqueReads stats + seqMapSize))
            (wrap64 (nTotalReads stats + cnt))
        else stats in
      getBarcodeStats_bcs coll entries stats
  end.

(** Both maps are visited in the order of their iterators. *)
Definition getBarcodeStats (coll : FastqMultiRecordCollection) : result BarcodeStats :=
  getBarcodeStats_bcs coll (mapEntries (bcMap coll)) emptyStats.

(** *** Sums over the index

    The sums the statistics compute, without the 64-bit counters: the value
    [f slot] added up over every entry of the two-level index. With
    [slotReads] it is the number of identifiers reachable through the
    index, with [slotUnique] the number of indexed slots that hold one. *)
Definition indexSum (f : nat -> nat) (bm : gmap (list Dna5) (gmap (list Dna5) nat)) : nat :=
  sum_list_with
    (fun e : list Dna5 * gmap (list Dna5) nat =>
       sum_list_with (fun e' : list Dna5 * nat => f e'.2) (map_to_list e.2))
    (map_to_list bm).

Definition slotReads (ptrs : list FastqMultiRecord) (slot : nat) : nat :=
  from_option (fun m => size (ids m)) 0 (ptrs !! slot).

Definition slotUnique (ptrs : list FastqMultiRecord) (slot : nat) : nat :=
  if decide (0 < slotReads ptrs slot) then 1 else 0.

Definition totalReads (coll : FastqMultiRecordCollection) : nat :=
  indexSum (slotReads (multiRecordPtrs coll)) (bcMap coll).

Definition totalUnique (coll : FastqMultiRecordCollection) : nat :=
  indexSum (slotUnique (multiRecordPtrs coll)) (bcMap coll).




(** The entries of the two-level index, as triples of barcode, sequence and
    slot. *)
Definition indexEntries (bm : gmap (list Dna5) (gmap (list Dna5) nat))
  : list (list Dna5 * list Dna5 * nat) :=
  e ← map_to_list bm;
  (fun e' : list Dna5 * nat => (e.1, e'.1, e'.2)) <$> map_to_list e.2.

(** The content of an aggregate, the key under which the index holds it. *)
Definition storeKey (m : FastqMultiRecord) : list Dna5 * list Dna5 := (mBcSeq m, mSeq m).

(** [NO_MATCH] is [None]. *)
Definition findMultiRecordPosition_seqs (collection : FastqMultiRecordCollection)
    (bcSeq seq : list Dna5) : option nat :=
  match bcMap collection !! bcSeq with
  | None => None
  | Some seqMap =>
      match seqMap !! seq with
      | None => None
      | Some slot => Some slot
      end
  end.

Definition findMultiRecordPosition (collection : FastqMultiRecordCollection)
    (rec : FastqRecord) : option nat :=
  findMultiRecordPosition_seqs collection (toDna5 (bcSeq rec)) (toDna5 (seq rec)).

(** A record has been folded into a collection when the index leads from
    its content to an aggregate that holds its identifier. *)
Definition folded (coll : FastqMultiRecordCollection) (r : FastqRecord) (slot : nat) : Prop :=
  findMultiRecordPosition coll r = Some slot
  ∧ ∃ m, multiRecordPtrs coll !! slot = Some m ∧ id r ∈ ids m.

Definition _generic_newMultiRecord (record : FastqRecord) : FastqMultiRecord :=
  mkFastqMultiRecord ({[ id record ]} ∪ ∅) (toDna5 (bcSeq record)) [] [].

Definition updateMeanQualityValues (target source : FastqMultiRecord)
  : result FastqMultiRecord :=
  q ← updateMeanQualityValues_weighted (qualities target) (Z.of_nat (size (ids target)))
        (qualities source) (Z.of_nat (size (ids source)));
  Ok (mkFastqMultiRecord (ids target) (mBcSeq target) (mSeq target) q).

Definition newMultiRecord (record : FastqRecord) : result FastqMultiRecord :=
  let multiRecord := _generic_newMultiRecord record in
  q ← updateMeanQualityValues_seq (qualities multiRecord) 0 (seq record);
  Ok (mkFastqMultiRecord (ids multiRecord) (mBcSeq multiRecord) (toDna5 (seq record)) q).

(** [bcMap[bcSeq]] inserts an empty [TSeqMap] when the barcode is new, also
    inside the checked condition. Returns the collection and the new slot,
    the place of the record the returned reference denotes. *)
Definition mapMultiRecord (collection : FastqMultiRecordCollection)
    (multiRecord : FastqMultiRecord) : result (FastqMultiRecordCollection * nat) :=
  let ptrs := multiRecordPtrs collection ++ [multiRecord] in
  let seqMap := default ∅ (bcMap collection !! mBcSeq multiRecord) in
  _ ← SEQAN_CHECK (bool_decide (seqMap !! mSeq multiRecord = None));
  let new_idx := length ptrs - 1 in
  let collection :=
    mkCollection ptrs
      (<[mBcSeq multiRecord := <[mSeq multiRecord := new_idx]> seqMap]> (bcMap collection)) in
  _ ← getMultiRecord collection new_idx;
  Ok (collection, new_idx).

Definition updateMultiRecord (multiRecord : FastqMultiRecord) (record : FastqRecord)
  : result FastqMultiRecord :=
  let old_size := size (ids multiRecord) in
  let ids' := {[ id record ]} ∪ ids multiRecord in
  _ ← SEQAN_CHECK (bool_decide (old_size < size ids'));
  q ← updateMeanQualityValues_seq (qualities multiRecord) (Z.of_nat old_size) (seq record);
  Ok (mkFastqMultiRecord ids' (mBcSeq multiRecord) (mSeq multiRecord) q).

(** The returned pointer is the slot of the record it points to; [NULL] is
    [None]. A record is modified in place, in its slot. *)
Definition findContainingMultiRecord (collection : FastqMultiRecordCollection)
    (record : FastqRecord) (insert : bool)
  : result (FastqMultiRecordCollection * option nat) :=
  match findMultiRecordPosition collection record with
  | Some mRecId =>
      oldMultiRecord ← getMultiRecord collection mRecId;
      if decide (id record ∈ ids oldMultiRecord) then Ok (collection, Some mRecId)
      else if negb insert then Ok (collection, Some mRecId)
      else
        m ← updateMultiRecord oldMultiRecord record;
        Ok (mkCollection (<[mRecId := m]> (multiRecordPtrs collection)) (bcMap collection),
            Some mRecId)
  | None =>
      if negb insert then Ok (collection, None)
      else
        m ← newMultiRecord record;
        '(collection, slot) ← mapMultiRecord collection m;
        Ok (collection, Some slot)
  end.

Definition mergeRecord (collection : FastqMultiRecordCollection) (rec : FastqMultiRecord)
  : result (FastqMultiRecordCollection * nat) :=
  '(collection, existingRecPtr) ←
     findContainingMultiRecord collection (toFastqRecordSkel rec) false;
  match existingRecPtr with
  | Some slot =>
      existingRec ← getMultiRecord collection slot;
      m ← updateMeanQualityValues existingRec rec;
      Ok (mkCollection (<[slot := m]> (multiRecordPtrs collection)) (bcMap collection), slot)
  | None =>
      let collection :=
        mkCollection (multiRecordPtrs collection ++ [rec]) (bcMap collection) in
      let newIdx := length (multiRecordPtrs collection) - 1 in
      newRec ← getMultiRecord collection newIdx;
      '(collection, _) ← mapMultiRecord collection newRec;
      Ok (collection, newIdx)
  end.

(** ** Reading and the first quality control *)

(** What SeqAn's [readRecord(id, seq, stream)] decodes from one FASTQ entry. *)
Definition RawRecord : Type := string * list Dna5Q.

(** Modelled from the spec: [SeqInputStreams] is declared in
    [fastq_io_types.h]; the reader exposes "read next record" and "at end"
    and "optionally reports total expected byte volume". The stream is the
    list of the entries not yet read. *)
Record SeqInputStreams : Type := mkSeqInputStreams {
  stream : list RawRecord;
  totalInBytes : Z
}.

(** Modelled from the spec: [inStreamsAtEnd], the "at end" query of the
    reader. *)
Definition inStreamsAtEnd (entries : list RawRecord) : bool :=
  bool_decide (entries = []).

(** [readRecord(fastqRecord, inStreams)]: identifier and sequence are
    overwritten, the barcode is left as it was. *)
Definition readRecord (fastqRecord : FastqRecord) (raw : RawRecord) : FastqRecord :=
  mkFastqRecord raw.1 raw.2 (bcSeq fastqRecord).

Definition splitBarcodeSeq_rec (rec : FastqRecord) (barcodeVDJRead : bool)
    (barcodeLength : nat) : bool * FastqRecord :=
  let '(ok, seq', bcSeq') := splitBarcodeSeq (seq rec) (bcSeq rec) barcodeLength in
  (ok, mkFastqRecord (id rec) seq' bcSeq').

Definition readRecord_split (fastqRecord : FastqRecord) (raw : RawRecord)
    (barcodeVDJRead : bool) (barcodeLength : nat) : bool * FastqRecord :=
  splitBarcodeSeq_rec (readRecord fastqRecord raw) barcodeVDJRead barcodeLength.

Definition readTooShort (rec : FastqRecord) (minLength : nat) (singleEndFallback : bool)
  : bool :=
  bool_decide (length (seq rec) < minLength).

Definition approxSizeInBytes (rec : FastqRecord) : Z :=
  wrap64 (2 * Z.of_nat (length (seq rec)) + 2 * Z.of_nat (length (bcSeq rec))
          + Z.of_nat (String.length (id rec)) + 6).

(** [longerSeq] and [shorterSeq] return a reference to a sequence of the
    record; the value referred to is returned. *)
Definition longerSeq (rec : FastqRecord) : list Dna5Q := seq rec.
Definition shorterSeq (rec : FastqRecord) : list Dna5Q := seq rec.

(** [truncate(rec, len)]; [resize(rec.seq, len)] on a longer sequence keeps
    its first [len] residues. *)
Definition truncate (rec : FastqRecord) (len : nat) : FastqRecord :=
  if decide (len < length (seq rec))
  then mkFastqRecord (id rec) (take len (seq rec)) (bcSeq rec)
  else rec.

(** [syncOrientation(fqRecord, options)]; [reverse] is [options.reverse]. *)
Definition syncOrientation (fqRecord : FastqRecord) (reverse : bool) : FastqRecord :=
  if negb reverse
  then mkFastqRecord (id fqRecord) (reverseComplement (seq fqRecord)) (bcSeq fqRecord)
  else fqRecord.

Section Ingestion.

(** The two predicates of [qc_basics.h], which is not part of the source:
    whether a base of the barcode has a quality below the threshold, and
    whether the average quality of the read is below the threshold. *)
Variable anyQualityBelow : list Dna5Q -> Z -> bool.
Variable averageQualityBelow : FastqRecord -> Z -> bool -> bool.

Definition qualityControl (rec : FastqRecord) (options : CdrOptions) : RejectReason :=
  if contains (bcSeq rec) N then N_IN_BARCODE
  else if bool_decide (0 < bcQmin options)%Z && anyQualityBelow (bcSeq rec) (bcQmin options)
  then LOW_QUALITY_BARCODE_BASE
  else if bool_decide (0 < qmin options)%Z
          && averageQualityBelow rec (qmin options) (singleEndFallback options)
  then AVERAGE_QUAL_FAIL
  else if readTooShort rec (minReadLength options) (singleEndFallback options)
  then READ_TOO_SHORT
  else NONE.

(** The variables of [readRecords] that live across iterations. *)
Record LoopState : Type := mkLoopState {
  collection : FastqMultiRecordCollection;
  rejectEvents : list RejectEvent;
  rec : FastqRecord;
  complCount : Z;
  blockBytes : Z;
  progBar : option ProgressBar
}.

(** The first statements of an iteration: the record is read, and split
    when a barcode length is configured; [tsfb] tells that the read was
    too short for the barcode. *)
Definition readRecords_read (options : CdrOptions) (rec : FastqRecord) (raw : RawRecord)
  : bool * FastqRecord :=
  if decide (0 < barcodeLength options) then
    let '(ok, rec) :=
      readRecord_split rec raw (barcodeVDJRead options) (barcodeLength options) in
    (negb ok, rec)
  else (false, readRecord rec raw).

(** [RejectReason r = tsfb ? TOO_SHORT_FOR_BARCODE : qualityControl(rec, options)] *)
Definition readRecords_verdict (options : CdrOptions) (tsfb : bool) (rec : FastqRecord)
  : RejectReason :=
  if tsfb then TOO_SHORT_FOR_BARCODE else qualityControl rec options.

(** One iteration after the test on [count]: read, count, report, control,
    then fold the record in or log its rejection. *)
Definition readRecords_body (options : CdrOptions) (raw : RawRecord) (s : LoopState)
  : result LoopState :=
  let '(tsfb, rec) := readRecords_read options (rec s) raw in
  let complCount := wrap64 (complCount s + 1) in
  let blockBytes := wrap64 (blockBytes s + approxSizeInBytes rec) in
  let '(progBar, blockBytes) :=
    match progBar s with
    | Some p =>
        if decide (complCount `mod` 1234 = 0)%Z
        then (Some (updateAndPrint p blockBytes), 0%Z)
        else (Some p, blockBytes)
    | None => (None, blockBytes)
    end in
  let r := readRecords_verdict options tsfb rec in
  if decide (r = NONE) then
    '(collection, _) ← findContainingMultiRecord (collection s) rec true;
    Ok (mkLoopState collection (rejectEvents s) rec complCount blockBytes progBar)
  else
    Ok (mkLoopState (collection s) (rejectEvents s ++ [mkRejectEvent (id rec) r])
          rec complCount blockBytes progBar).

(** The [while] loop; the result is what the caller can see afterwards:
    the collection, the reject log, the entries left in the streams and
    the returned boolean. *)
Fixpoint readRecords_loop (options : CdrOptions) (count : Z)
    (entries : list RawRecord) (s : LoopState)
  : result (FastqMultiRecordCollection * list RejectEvent * list RawRecord * bool) :=
  match entries with
  | [] =>
      _ ← progBar_clear (progBar s);
      Ok (collection s, rejectEvents s, entries, false)
  | raw :: rest =>
      if bool_decide (0 < count)%Z && bool_decide (complCount s = count) then
        _ ← progBar_clear (progBar s);
        Ok (collection s, rejectEvents s, entries, negb (inStreamsAtEnd entries))
      else
        s ← readRecords_body options raw s;
        readRecords_loop options count rest s
  end.

Definition readRecords (collection : FastqMultiRecordCollection)
    (rejectEvents : list RejectEvent) (inStreams : SeqInputStreams)
    (options : CdrOptions) (count : Z)
  : result (FastqMultiRecordCollection * list RejectEvent * list RawRecord * bool) :=
  let progBar :=
    if decide (0 < totalInBytes inStreams)%Z
    then Some (mkProgressBar (totalInBytes inStreams) [])
    else None in
  let collection := clear collection in
  readRecords_loop options count (stream inStreams)
    (mkLoopState collection rejectEvents emptyRecord 0 0 progBar).

(** *** The batch, entry by entry

    The iterations of the body over a list of entries, and what the
    iterations decide about each entry: the records that pass the quality
    control, in the state in which they are folded in, and the reject
    events. These are used to state what a batch computes. *)
Fixpoint readRecords_iter (options : CdrOptions) (entries : list RawRecord)
    (s : LoopState) : result LoopState :=
  match entries with
  | [] => Ok s
  | raw :: rest =>
      s ← readRecords_body options raw s;
      readRecords_iter options rest s
  end.

Fixpoint accepted (options : CdrOptions) (rec : FastqRecord) (entries : list RawRecord)
  : list FastqRecord :=
  match entries with
  | [] => []
  | raw :: rest =>
      let '(tsfb, rec) := readRecords_read options rec raw in
      if decide (readRecords_verdict options tsfb rec = NONE)
      then rec :: accepted options rec rest
      else accepted options rec rest
  end.

Fixpoint rejected (options : CdrOptions) (rec : FastqRecord) (entries : list RawRecord)
  : list RejectEvent :=
  match entries with
  | [] => []
  | raw :: rest =>
      let '(tsfb, rec) := readRecords_read options rec raw in
      let r := readRecords_verdict options tsfb rec in
      if decide (r = NONE)
      then rejected options rec rest
      else mkRejectEvent (id rec) r :: rejected options rec rest
  end.

(** The number of entries one call consumes: all of them, or [count] when
    [count] is positive and smaller. *)
Definition consumed (count : Z) (entries : list RawRecord) : nat :=
  if decide (0 < count)%Z then Z.to_nat count `min` length entries
  else length entries.

End Ingestion.

(** The content key of a record and what identifies a read in a batch. *)
Definition contentKey (rec : FastqRecord) : list Dna5 * list Dna5 :=
  (toDna5 (bcSeq rec), toDna5 (seq rec)).

Definition readKey (rec : FastqRecord) : string * (list Dna5 * list Dna5) :=
  (id rec, contentKey rec).

End SingleEnd.

(** * Paired-end records *)

Module PairedEnd.

(** Modelled from the spec: the paired-end record of [fastq_io_types.h], a
    Sequence Record with "two (forward/reverse, paired mode)" sequence
    payloads, one identifier and one barcode payload. *)
Record FastqRecord : Type := mkFastqRecord {
  id : string;
  fwSeq : list Dna5Q;
  revSeq : list Dna5Q;
  bcSeq : list Dna5Q
}.

(** Modelled from the spec: the paired-end aggregate and collection of
    [fastq_multi_record_types.h]; the index "nests on (barcode,
    forward-sequence, reverse-sequence)" and there is "a running mean
    quality vector per payload". *)
Record FastqMultiRecord : Type := mkFastqMultiRecord {
  ids : gset string;
  mBcSeq : list Dna5;
  mFwSeq : list Dna5;
  mRevSeq : list Dna5;
  fwQualities : list float;
  revQualities : list float
}.

Record FastqMultiRecordCollection : Type := mkCollection {
  multiRecordPtrs : list FastqMultiRecord;
  bcMap : gmap (list Dna5) (gmap (list Dna5) (gmap (list Dna5) nat))
}.

Definition emptyRecord : FastqRecord := mkFastqRecord "" [] [] [].
Definition emptyCollection : FastqMultiRecordCollection := mkCollection [] ∅.

Definition toFastqRecordSkel (mRec : FastqMultiRecord) : FastqRecord :=
  mkFastqRecord "" (toDna5Q (mFwSeq mRec)) (toDna5Q (mRevSeq mRec)) (toDna5Q (mBcSeq mRec)).

Definition getMultiRecord (coll : FastqMultiRecordCollection) (idx : nat)
  : result FastqMultiRecord :=
  _ ← SEQAN_CHECK (bool_decide (idx < length (multiRecordPtrs coll)));
  match multiRecordPtrs coll !! idx with
  | Some m => Ok m
  | None => Fault CheckFailure
  end.

Definition clear (coll : FastqMultiRecordCollection) : FastqMultiRecordCollection :=
  mkCollection [] ∅.

Definition findMultiRecordPosition_seqs (collection : FastqMultiRecordCollection)
    (bcSeq fwSeq revSeq : list Dna5) : option nat :=
  match bcMap collection !! bcSeq with
  | None => None
  | Some fwSeqMap =>
      match fwSeqMap !! fwSeq with
      | None => None
      | Some revSeqMap =>
          match revSeqMap !! revSeq with
          | None => None
          | Some slot => Some slot
          end
      end
  end.

Definition findMultiRecordPosition (collection : FastqMultiRecordCollection)
    (rec : FastqRecord) : option nat :=
  findMultiRecordPosition_seqs collection
    (toDna5 (bcSeq rec)) (toDna5 (fwSeq rec)) (toDna5 (revSeq rec)).

(** A record has been folded into a collection when the index leads from
    its content to an aggregate that holds its identifier. *)
Definition folded (coll : FastqMultiRecordCollection) (r : FastqRecord) (slot : nat) : Prop :=
  findMultiRecordPosition coll r = Some slot
  ∧ ∃ m, multiRecordPtrs coll !! slot = Some m ∧ id r ∈ ids m.

Definition _generic_newMultiRecord (record : FastqRecord) : FastqMultiRecord :=
  mkFastqMultiRecord ({[ id record ]} ∪ ∅) (toDna5 (bcSeq record)) [] [] [] [].

(** The forward means first, then the reverse means, both with the
    identifier counts as weights. *)
Definition updateMeanQualityValues (target source : FastqMultiRecord)
  : result FastqMultiRecord :=
  fq ← updateMeanQualityValues_weighted (fwQualities target) (Z.of_nat (size (ids target)))
         (fwQualities source) (Z.of_nat (size (ids source)));
  rq ← updateMeanQualityValues_weighted (revQualities target) (Z.of_nat (size (ids target)))
         (revQualities source) (Z.of_nat (size (ids source)));
  Ok (mkFastqMultiRecord (ids target) (mBcSeq target) (mFwSeq target) (mRevSeq target) fq rq).

Definition newMultiRecord (record : FastqRecord) : result FastqMultiRecord :=
  let multiRecord := _generic_newMultiRecord record in
  fq ← updateMeanQualityValues_seq (fwQualities multiRecord) 0 (fwSeq record);
  rq ← updateMeanQualityValues_seq (revQualities multiRecord) 0 (revSeq record);
  Ok (mkFastqMultiRecord (ids multiRecord) (mBcSeq multiRecord)
        (toDna5 (fwSeq record)) (toDna5 (revSeq record)) fq rq).

(** [bcMap[bcSeq][fwSeq]] inserts the missing levels, also inside the
    checked condition. *)
Definition mapMultiRecord (collection : FastqMultiRecordCollection)
    (multiRecord : FastqMultiRecord) : result (FastqMultiRecordCollection * nat) :=
  let ptrs := multiRecordPtrs collection ++ [multiRecord] in
  let fwSeqMap := default ∅ (bcMap collection !! mBcSeq multiRecord) in
  let revSeqMap := default ∅ (fwSeqMap !! mFwSeq multiRecord) in
  _ ← SEQAN_CHECK (bool_decide (revSeqMap !! mRevSeq multiRecord = None));
  let new_idx := length ptrs - 1 in
  let collection :=
    mkCollection ptrs
      (<[mBcSeq multiRecord :=
           <[mFwSeq multiRecord := <[mRevSeq multiRecord := new_idx]> revSeqMap]> fwSeqMap]>
         (bcMap collection)) in
  _ ← getMultiRecord collection new_idx;
  Ok (collection, new_idx).

Definition updateMultiRecord (multiRecord : FastqMultiRecord) (record : FastqRecord)
  : result FastqMultiRecord :=
  let old_size := size (ids multiRecord) in
  let ids' := {[ id record ]} ∪ ids multiRecord in
  _ ← SEQAN_CHECK (bool_decide (old_size < size ids'));
  fq ← updateMeanQualityValues_seq (fwQualities multiRecord) (Z.of_nat old_size)
         (fwSeq record);
  rq ← updateMeanQualityValues_seq (revQualities multiRecord) (Z.of_nat old_size)
         (revSeq record);
  Ok (mkFastqMultiRecord ids' (mBcSeq multiRecord) (mFwSeq multiRecord)
        (mRevSeq multiRecord) fq rq).

Definition findContainingMultiRecord (collection : FastqMultiRecordCollection)
    (record : FastqRecord) (insert : bool)
  : result (FastqMultiRecordCollection * option nat) :=
  match findMultiRecordPosition collection record with
  | Some mRecId =>
      oldMultiRecord ← getMultiRecord collection mRecId;
      if decide (id record ∈ ids oldMultiRecord) then Ok (collection, Some mRecId)
      else if negb insert then Ok (collection, Some mRecId)
      else
        m ← updateMultiRecord oldMultiRecord record;
        Ok (mkCollection (<[mRecId := m]> (multiRecordPtrs collection)) (bcMap collection),
            Some mRecId)
  | None =>
      if negb insert then Ok (collection, None)
      else
        m ← newMultiRecord record;
        '(collection, slot) ← mapMultiRecord collection m;
        Ok (collection, Some slot)
  end.

Definition mergeRecord (collection : FastqMultiRecordCollection) (rec : FastqMultiRecord)
  : result (FastqMultiRecordCollection * nat) :=
  '(collection, existingRecPtr) ←
     findContainingMultiRecord collection (toFastqRecordSkel rec) false;
  match existingRecPtr with
  | Some slot =>
      existingRec ← getMultiRecord collection slot;
      m ← updateMeanQualityValues existingRec rec;
      Ok (mkCollection (<[slot := m]> (multiRecordPtrs collection)) (bcMap collection), slot)
  | None =>
      let collection :=
        mkCollection (multiRecordPtrs collection ++ [rec]) (bcMap collection) in
      let newIdx := length (multiRecordPtrs collection) - 1 in
      newRec ← getMultiRecord collection newIdx;
      '(collection, _) ← mapMultiRecord collection newRec;
      Ok (collection, newIdx)
  end.

(** The loops of [getBarcodeStats], innermost first: [(cnt, uCnt)] after the
    entries of one [TRevSeqMap], after those of one [TFwSeqMap], and the
    statistics after the barcodes. *)
Fixpoint getBarcodeStats_revs (coll : FastqMultiRecordCollection)
    (entries : list (list Dna5 * nat)) (cnt uCnt : Z) : result (Z * Z) :=
  match entries with
  | [] => Ok (cnt, uCnt)
  | (_, slot) :: entries =>
      m ← getMultiRecord coll slot;
      let s := Z.of_nat (size (ids m)) in
      let cnt := wrap64 (cnt + s) in
      let uCnt := if decide (0 < s)%Z then wrap64 (uCnt + 1) else uCnt in
      getBarcodeStats_revs coll entries cnt uCnt
  end.

Fixpoint getBarcodeStats_fws (coll : FastqMultiRecordCollection)
    (entries : list (list Dna5 * gmap (list Dna5) nat)) (cnt uCnt : Z) : result (Z * Z) :=
  match entries with
  | [] => Ok (cnt, uCnt)
  | (_, revSeqMap) :: entries =>
      '(cnt, uCnt) ← getBarcodeStats_revs coll (mapEntries revSeqMap) cnt uCnt;
      getBarcodeStats_fws coll entries cnt uCnt
  end.

Fixpoint getBarcodeStats_bcs (coll : FastqMultiRecordCollection)
    (entries : list (list Dna5 * gmap (list Dna5) (gmap (list Dna5) nat)))
    (stats : BarcodeStats) : result BarcodeStats :=
  match entries with
  | [] => Ok stats
  | (bc, fwSeqMap) :: entries =>
      '(cnt, uCnt) ← getBarcodeStats_fws coll (mapEntries fwSeqMap) 0 0;
      let stats :=
        if decide (0 < cnt)%Z then
          mkBarcodeStats
            (bcSeqs stats ++ [bc]) (nReads stats ++ [cnt])
            (nUniqueReads stats ++ [uCnt])
            (wrap64 (nTotalUniqueReads stats + uCnt))
            (wrap64 (nTotalReads stats + cnt))
        else stats in
      getBarcodeStats_bcs coll entries stats
  end.

Definition getBarcodeStats (coll : FastqMultiRecordCollection)
  : result BarcodeStats :=
  getBarcodeStats_bcs coll (mapEntries (bcMap coll)) emptyStats.

(** What the two streams deliver for one pair: the entry of the reverse
    stream and the entry of the forward stream. *)
Definition RawPair : Type := (string * list Dna5Q) * (string * list Dna5Q).

Definition splitBarcodeSeq_rec (rec : FastqRecord) (barcodeVDJRead : bool)
    (barcodeLength : nat) : bool * FastqRecord :=
  if barcodeVDJRead then
    let '(ok, seq', bcSeq') := splitBarcodeSeq (revSeq rec) (bcSeq rec) barcodeLength in
    (ok, mkFastqRecord (id rec) (fwSeq rec) seq' bcSeq')
  else
    let '(ok, seq', bcSeq') := splitBarcodeSeq (fwSeq rec) (bcSeq rec) barcodeLength in
    (ok, mkFastqRecord (id rec) seq' (revSeq rec) bcSeq').

(** [readRecord(fastqRecord, inStreams, barcodeVDJRead, barcodeLength)]: the
    reverse read first, then the forward read, whose identifier is the one
    that stays. *)
Definition readRecord_split (fastqRecord : FastqRecord) (raw : RawPair)
    (barcodeVDJRead : bool) (barcodeLength : nat) : bool * FastqRecord :=
  let fastqRecord := mkFastqRecord raw.1.1 (fwSeq fastqRecord) raw.1.2 (bcSeq fastqRecord) in
  let fastqRecord := mkFastqRecord raw.2.1 raw.2.2 (revSeq fastqRecord) (bcSeq fastqRecord) in
  splitBarcodeSeq_rec fastqRecord barcodeVDJRead barcodeLength.

(** The record is passed by reference and may be changed: it is returned
    next to the boolean. *)
Definition readTooShort (rec : FastqRecord) (minLength : nat) (singleEndFallback : bool)
  : bool * FastqRecord :=
  if decide (length (revSeq rec) < minLength) then (true, rec)
  else if decide (minLength ≤ length (fwSeq rec)) then (false, rec)
  else if negb singleEndFallback then (true, rec)
  else (false, mkFastqRecord (id rec) [] (revSeq rec) (bcSeq rec)).

(** [longerSeq] and [shorterSeq] return a reference to one of the two
    reads; [true] stands for the forward read, [false] for the reverse
    read. *)
Definition longerSeq_isFw (rec : FastqRecord) : bool :=
  bool_decide (length (revSeq rec) < length (fwSeq rec)).
Definition shorterSeq_isFw (rec : FastqRecord) : bool :=
  bool_decide (length (fwSeq rec) < length (revSeq rec)).

Definition longerSeq (rec : FastqRecord) : list Dna5Q :=
  if longerSeq_isFw rec then fwSeq rec else revSeq rec.
Definition shorterSeq (rec : FastqRecord) : list Dna5Q :=
  if shorterSeq_isFw rec then fwSeq rec else revSeq rec.

Definition truncate (rec : FastqRecord) (len : nat) : FastqRecord :=
  let rec :=
    if decide (len < length (fwSeq rec))
    then mkFastqRecord (id rec) (take len (fwSeq rec)) (revSeq rec) (bcSeq rec)
    else rec in
  if decide (len < length (revSeq rec))
  then mkFastqRecord (id rec) (fwSeq rec) (take len (revSeq rec)) (bcSeq rec)
  else rec.

(** [syncOrientation(fqRecord, options)]; [reverse] is [options.reverse]. *)
Definition syncOrientation (fqRecord : FastqRecord) (reverse : bool) : FastqRecord :=
  if reverse
  then mkFastqRecord (id fqRecord) (reverseComplement (fwSeq fqRecord)) (revSeq fqRecord)
         (bcSeq fqRecord)
  else mkFastqRecord (id fqRecord) (fwSeq fqRecord) (reverseComplement (revSeq fqRecord))
         (bcSeq fqRecord).

Definition approxSizeInBytes (rec : FastqRecord) : Z :=
  wrap64 (2 * Z.of_nat (length (fwSeq rec)) + 2 * Z.of_nat (length (revSeq rec))
          + 2 * Z.of_nat (length (bcSeq rec)) + 2 * Z.of_nat (String.length (id rec)) + 12).

(** [readRecord(fastqRecord, inStreams)], without a barcode. *)
Definition readRecord (fastqRecord : FastqRecord) (raw : RawPair) : FastqRecord :=
  let fastqRecord := mkFastqRecord raw.1.1 (fwSeq fastqRecord) raw.1.2 (bcSeq fastqRecord) in
  mkFastqRecord raw.2.1 raw.2.2 (revSeq fastqRecord) (bcSeq fastqRecord).

(** Modelled from the spec: the paired-end [SeqInputStreams] and its "at
    end" query. The two files are read in step; the model holds the pairs
    not yet read. *)
Record SeqInputStreams : Type := mkSeqInputStreams {
  stream : list RawPair;
  totalInBytes : Z
}.

Definition inStreamsAtEnd (entries : list RawPair) : bool :=
  bool_decide (entries = []).

Section Ingestion.

(** The two predicates of [qc_basics.h], which is not part of the source.
    The average-quality test receives the record by reference together
    with the fallback flag, so it may change the record. *)
Variable anyQualityBelow : list Dna5Q -> Z -> bool.
Variable averageQualityBelow : FastqRecord -> Z -> bool -> bool * FastqRecord.

Definition qualityControl (rec : FastqRecord) (options : CdrOptions)
  : RejectReason * FastqRecord :=
  if contains (bcSeq rec) N then (N_IN_BARCODE, rec)
  else if bool_decide (0 < bcQmin options)%Z && anyQualityBelow (bcSeq rec) (bcQmin options)
  then (LOW_QUALITY_BARCODE_BASE, rec)
  else
    let '(below, rec) :=
      if bool_decide (0 < qmin options)%Z
      then averageQualityBelow rec (qmin options) (singleEndFallback options)
      else (false, rec) in
    if below then (AVERAGE_QUAL_FAIL, rec)
    else
      let '(short, rec) :=
        readTooShort rec (minReadLength options) (singleEndFallback options) in
      if short then (READ_TOO_SHORT, rec) else (NONE, rec).

(** The variables of [readRecords] that live across iterations. *)
Record LoopState : Type := mkLoopState {
  collection : FastqMultiRecordCollection;
  rejectEvents : list RejectEvent;
  rec : FastqRecord;
  complCount : Z;
  blockBytes : Z;
  progBar : option ProgressBar
}.

Definition readRecords_read (options : CdrOptions) (rec : FastqRecord) (raw : RawPair)
  : bool * FastqRecord :=
  if decide (0 < barcodeLength options) then
    let '(ok, rec) :=
      readRecord_split rec raw (barcodeVDJRead options) (barcodeLength options) in
    (negb ok, rec)
  else (false, readRecord rec raw).

(** One iteration after the test on [count]. The quality control works on
    the record itself: what is folded in, and the identifier of the reject
    event, are taken from the record as the quality control leaves it. *)
Definition readRecords_body (options : CdrOptions) (raw : RawPair) (s : LoopState)
  : result LoopState :=
  let '(tsfb, rec) := readRecords_read options (rec s) raw in
  let complCount := wrap64 (complCount s + 1) in
  let blockBytes := wrap64 (blockBytes s + approxSizeInBytes rec) in
  let '(progBar, blockBytes) :=
    match progBar s with
    | Some p =>
        if decide (complCount `mod` 1234 = 0)%Z
        then (Some (updateAndPrint p blockBytes), 0%Z)
        else (Some p, blockBytes)
    | None => (None, blockBytes)
    end in
  let '(r, rec) :=
    if tsfb then (TOO_SHORT_FOR_BARCODE, rec) else qualityControl rec options in
  if decide (r = NONE) then
    '(collection, _) ← findContainingMultiRecord (collection s) rec true;
    Ok (mkLoopState collection (rejectEvents s) rec complCount blockBytes progBar)
  else
    Ok (mkLoopState (collection s) (rejectEvents s ++ [mkRejectEvent (id rec) r])
          rec complCount blockBytes progBar).

Fixpoint readRecords_loop (options : CdrOptions) (count : Z)
    (entries : list RawPair) (s : LoopState)
  : result (FastqMultiRecordCollection * list RejectEvent * list RawPair * bool) :=
  match entries with
  | [] =>
      _ ← progBar_clear (progBar s);
      Ok (collection s, rejectEvents s, entries, false)
  | raw :: rest =>
      if bool_decide (0 < count)%Z && bool_decide (complCount s = count) then
        _ ← progBar_clear (progBar s);
        Ok (collection s, rejectEvents s, entries, negb (inStreamsAtEnd entries))
      else
        s ← readRecords_body options raw s;
        readRecords_loop options count rest s
  end.

Definition readRecords (collection : FastqMultiRecordCollection)
    (rejectEvents : list RejectEvent) (inStreams : SeqInputStreams)
    (options : CdrOptions) (count : Z)
  : result (FastqMultiRecordCollection * list RejectEvent * list RawPair * bool) :=
  let progBar :=
    if decide (0 < totalInBytes inStreams)%Z
    then Some (mkProgressBar (totalInBytes inStreams) [])
    else None in
  let collection := clear collection in
  readRecords_loop options count (stream inStreams)
    (mkLoopState collection rejectEvents emptyRecord 0 0 progBar).

(** *** The batch, entry by entry

    As for single-end records: the iterations of the body over a list of
    entries, the verdict on an entry together with the record as the
    quality control leaves it, the records that are folded in, and the
    reject events. *)
Fixpoint readRecords_iter (options : CdrOptions) (entries : list RawPair)
    (s : LoopState) : result LoopState :=
  match entries with
  | [] => Ok s
  | raw :: rest =>
      s ← readRecords_body options raw s;
      readRecords_iter options rest s
  end.

Definition readRecords_verdict (options : CdrOptions) (tsfb : bool) (rec : FastqRecord)
  : RejectReason * FastqRecord :=
  if tsfb then (TOO_SHORT_FOR_BARCODE, rec) else qualityControl rec options.

Fixpoint accepted (options : CdrOptions) (rec : FastqRecord) (entries : list RawPair)
  : list FastqRecord :=
  match entries with
  | [] => []
  | raw :: rest =>
      let '(tsfb, rec) := readRecords_read options rec raw in
      let '(r, rec) := readRecords_verdict options tsfb rec in
      if decide (r = NONE)
      then rec :: accepted options rec rest
      else accepted options rec rest
  end.

Fixpoint rejected (options : CdrOptions) (rec : FastqRecord) (entries : list RawPair)
  : list RejectEvent :=
  match entries with
  | [] => []
  | raw :: rest =>
      let '(tsfb, rec) := readRecords_read options rec raw in
      let '(r, rec) := readRecords_verdict options tsfb rec in
      if decide (r = NONE)
      then rejected options rec rest
      else mkRejectEvent (id rec) r :: rejected options rec rest
  end.

Definition consumed (count : Z) (entries : list RawPair) : nat :=
  if decide (0 < count)%Z then Z.to_nat count `min` length entries
  else length entries.

End Ingestion.

(** The content key of a pair and what identifies a read in a batch. *)
Definition contentKey (rec : FastqRecord) : list Dna5 * list Dna5 * list Dna5 :=
  (toDna5 (bcSeq rec), toDna5 (fwSeq rec), toDna5 (revSeq rec)).

Definition readKey (rec : FastqRecord) : string * (list Dna5 * list Dna5 * list Dna5) :=
  (id rec, contentKey rec).

(** *** Sums over the index

    The value [f slot] added up over every entry of the three-level index:
    the sums of the two inner levels, which have the shape of a single-end
    index, over the barcodes. *)
Definition indexSum (f : nat -> nat)
    (bm : gmap (list Dna5) (gmap (list Dna5) (gmap (list Dna5) nat))) : nat :=
  sum_list_with
    (fun e : list Dna5 * gmap (list Dna5) (gmap (list Dna5) nat) =>
       SingleEnd.indexSum f e.2)
    (map_to_list bm).

Definition slotReads (ptrs : list FastqMultiRecord) (slot : nat) : nat :=
  from_option (fun m => size (ids m)) 0 (ptrs !! slot).

Definition slotUnique (ptrs : list FastqMultiRecord) (slot : nat) : nat :=
  if decide (0 < slotReads ptrs slot) then 1 else 0.

Definition totalReads (coll : FastqMultiRecordCollection) : nat :=
  indexSum (slotReads (multiRecordPtrs coll)) (bcMap coll).

Definition totalUnique (coll : FastqMultiRecordCollection) : nat :=
  indexSum (slotUnique (multiRecordPtrs coll)) (bcMap coll).

End PairedEnd.

(** * The state of a collection during a batch *)

Module Batch.
Import SingleEnd.

(** Every slot the index refers to exists. *)
Definition slotsValid (coll : FastqMultiRecordCollection) : Prop :=
  ∀ bc sq i, findMultiRecordPosition_seqs coll bc sq = Some i →
             i < length (multiRecordPtrs coll).

(** What holds of a collection into which the reads [folded] (identifier
    and content key) have been folded, and nothing else: an index entry
    points to the aggregate of its key, which holds exactly the
    identifiers folded in under that key, at least one, and a mean of the
    length of the sequence; every stored aggregate is indexed; and the
    identifiers reachable through the index are as many as the distinct
    reads. *)
Record batchInv (coll : FastqMultiRecordCollection)
    (folded : gset (string * (list Dna5 * list Dna5))) : Prop := mkBatchInv {
  inv_slot : ∀ bc sq i,
    findMultiRecordPosition_seqs coll bc sq = Some i →
    ∃ m, multiRecordPtrs coll !! i = Some m
         ∧ mBcSeq m = bc ∧ mSeq m = sq
         ∧ length (qualities m) = length sq
         ∧ 0 < size (ids m)
         ∧ ∀ x, x ∈ ids m ↔ (x, (bc, sq)) ∈ folded;
  inv_indexed : ∀ x bc sq,
    (x, (bc, sq)) ∈ folded → is_Some (findMultiRecordPosition_seqs coll bc sq);
  inv_store : ∀ i m,
    multiRecordPtrs coll !! i = Some m →
    findMultiRecordPosition_seqs coll (mBcSeq m) (mSeq m) = Some i;
  inv_total : totalReads coll = size folded
}.
End Batch.

(** The same for paired-end collections. *)
Module PairedBatch.
Import PairedEnd.

Definition slotsValid (coll : FastqMultiRecordCollection) : Prop :=
  ∀ bc fw rv i, findMultiRecordPosition_seqs coll bc fw rv = Some i →
                i < length (multiRecordPtrs coll).

Record batchInv (coll : FastqMultiRecordCollection)
    (folded : gset (string * (list Dna5 * list Dna5 * list Dna5))) : Prop := mkBatchInv {
  inv_slot : ∀ bc fw rv i,
    findMultiRecordPosition_seqs coll bc fw rv = Some i →
    ∃ m, multiRecordPtrs coll !! i = Some m
         ∧ mBcSeq m = bc ∧ mFwSeq m = fw ∧ mRevSeq m = rv
         ∧ length (fwQualities m) = length fw
         ∧ length (revQualities m) = length rv
         ∧ 0 < size (ids m)
         ∧ ∀ x, x ∈ ids m ↔ (x, (bc, fw, rv)) ∈ folded;
  inv_indexed : ∀ x bc fw rv,
    (x, (bc, fw, rv)) ∈ folded → is_Some (findMultiRecordPosition_seqs coll bc fw rv);
  inv_store : ∀ i m,
    multiRecordPtrs coll !! i = Some m →
    findMultiRecordPosition_seqs coll (mBcSeq m) (mFwSeq m) (mRevSeq m) = Some i;
  inv_total : totalReads coll = size folded
}.
End PairedBatch.

(** The sum of a list of counters, to add up the per-barcode counts. *)
Definition sumZ (l : list Z) : Z := foldr Z.add 0%Z l.

(** * Example data

    The reads of the examples: barcode [AAAA], sequence [GATTACA]. *)

Definition withQuality (q : Z) (s : list Dna5) : list Dna5Q :=
  (fun b => mkDna5Q b q) <$> s.

Definition AAAA : list Dna5 := [A; A; A; A].
Definition GATTACA : list Dna5 := [G; A; T; T; A; C; A].

(** The sequence of the unit test of [splitBarcodeSeq]. *)
Definition test_seq : list Dna5 :=
  [G;A;T;C;G;G;T;A;A;C;G;A;T;C;G;A;A;T;G;C].

Definition rec_r1 : SingleEnd.FastqRecord :=
  SingleEnd.mkFastqRecord "r1" (withQuality 30 GATTACA) (withQuality 40 AAAA).
Definition rec_r2 : SingleEnd.FastqRecord :=
  SingleEnd.mkFastqRecord "r2" (withQuality 10 GATTACA) (withQuality 40 AAAA).
Definition rec_r3 : SingleEnd.FastqRecord :=
  SingleEnd.mkFastqRecord "r3" (withQuality 50 GATTACA) (withQuality 40 AAAA).

(** The aggregate of [rec_r1] and the collection that holds it alone. *)
Definition mrec_r1 : SingleEnd.FastqMultiRecord :=
  SingleEnd.mkFastqMultiRecord {[ "r1" ]} AAAA GATTACA (replicate 7 (F32.of_Z 30)).
Definition coll_r1 : SingleEnd.FastqMultiRecordCollection :=
  SingleEnd.mkCollection [mrec_r1] {[ AAAA := {[ GATTACA := 0 ]} ]}.

(** An aggregate built elsewhere, with the content of [rec_r1]. *)
Definition mrec_r2 : SingleEnd.FastqMultiRecord :=
  SingleEnd.mkFastqMultiRecord {[ "r2" ]} AAAA GATTACA (replicate 7 (F32.of_Z 10)).

(** Options that split a barcode of four residues and set no threshold. *)
Definition opts_bc4 : CdrOptions := mkCdrOptions 4 false 0 0 0 false.

(** The reads of the example as they come from the file, barcode first. *)
Definition raw_r1 : SingleEnd.RawRecord := ("r1", withQuality 40 AAAA ++ withQuality 30 GATTACA).
Definition raw_r2 : SingleEnd.RawRecord := ("r2", withQuality 40 AAAA ++ withQuality 10 GATTACA).

(** A file in which the read [r1] is present twice. *)
Definition stream_twice : SingleEnd.SeqInputStreams :=
  SingleEnd.mkSeqInputStreams [raw_r1; raw_r1] 64.

Definition stats_r1 : BarcodeStats :=
  mkBarcodeStats [AAAA] [1%Z] [1%Z] 1 1.

(** A barcode of ten residues, a read of five, and a read of twenty. *)
Definition opts_bc10 : CdrOptions := mkCdrOptions 10 false 0 0 0 false.
Definition raw_short : SingleEnd.RawRecord := ("s1", withQuality 30 [G; A; T; T; A]).
Definition raw_long : SingleEnd.RawRecord := ("l1", withQuality 30 test_seq).
Definition stream_short : SingleEnd.SeqInputStreams :=
  SingleEnd.mkSeqInputStreams [raw_short; raw_long] 64.
Definition event_short : RejectEvent := mkRejectEvent "s1" TOO_SHORT_FOR_BARCODE.

(** The collection after the reads [r1] and [r2]: one aggregate. *)
Definition coll_r1r2 : SingleEnd.FastqMultiRecordCollection :=
  SingleEnd.mkCollection
    [SingleEnd.mkFastqMultiRecord {[ "r1"; "r2" ]} AAAA GATTACA (replicate 7 (F32.of_Z 20))]
    {[ AAAA := {[ GATTACA := 0 ]} ]}.

(** The same after [r3] as well. *)
Definition coll_r1r2r3 : SingleEnd.FastqMultiRecordCollection :=
  SingleEnd.mkCollection
    [SingleEnd.mkFastqMultiRecord {[ "r1"; "r2"; "r3" ]} AAAA GATTACA
       (replicate 7 (F32.of_Z 30))]
    {[ AAAA := {[ GATTACA := 0 ]} ]}.

(** What [mergeRecord] makes of the empty collection and [mrec_r2]. *)
Definition coll_merge_new : SingleEnd.FastqMultiRecordCollection :=
  SingleEnd.mkCollection [mrec_r2; mrec_r2] {[ AAAA := {[ GATTACA := 1 ]} ]}.

(** What [mergeRecord] makes of [coll_r1] and [mrec_r2]. *)
Definition coll_merge_hit : SingleEnd.FastqMultiRecordCollection :=
  SingleEnd.mkCollection
    [SingleEnd.mkFastqMultiRecord {[ "r1" ]} AAAA GATTACA (replicate 7 (F32.of_Z 20))]
    {[ AAAA := {[ GATTACA := 0 ]} ]}.

(** And of folding [rec_r3] into that. *)
Definition coll_merge_hit_r3 : SingleEnd.FastqMultiRecordCollection :=
  SingleEnd.mkCollection
    [SingleEnd.mkFastqMultiRecord {[ "r1"; "r3" ]} AAAA GATTACA (replicate 7 (F32.of_Z 35))]
    {[ AAAA := {[ GATTACA := 0 ]} ]}.

(** Options that ask for five residues, with and without the fallback; the
    forward read of [pair_p1] has two and its reverse read seven. *)
Definition opts_min5 (singleEndFallback : bool) : CdrOptions :=
  mkCdrOptions 4 false 0 0 5 singleEndFallback.
Definition noAverageBelowPair : PairedEnd.FastqRecord -> Z -> bool -> bool * PairedEnd.FastqRecord :=
  fun rec _ _ => (false, rec).

(** A pair with the barcode [AAAA], and the collection that holds it. *)
Definition pair_p1 : PairedEnd.FastqRecord :=
  PairedEnd.mkFastqRecord "p1" (withQuality 30 [A; C]) (withQuality 30 GATTACA)
    (withQuality 40 AAAA).
Definition pmrec_p1 : PairedEnd.FastqMultiRecord :=
  PairedEnd.mkFastqMultiRecord {[ "p1" ]} AAAA [A; C] GATTACA
    (replicate 2 (F32.of_Z 30)) (replicate 7 (F32.of_Z 30)).
Definition pcoll_p1 : PairedEnd.FastqMultiRecordCollection :=
  PairedEnd.mkCollection [pmrec_p1] {[ AAAA := {[ [A; C] := {[ GATTACA := 0 ]} ]} ]}.

(** An aggregate of the same content built elsewhere, and what
    [PairedEnd.mergeRecord] makes of it and the empty collection, and of it
    and [pcoll_p1]. *)
Definition pmrec_p2 : PairedEnd.FastqMultiRecord :=
  PairedEnd.mkFastqMultiRecord {[ "p2" ]} AAAA [A; C] GATTACA
    (replicate 2 (F32.of_Z 10)) (replicate 7 (F32.of_Z 10)).
Definition pcoll_merge_new : PairedEnd.FastqMultiRecordCollection :=
  PairedEnd.mkCollection [pmrec_p2; pmrec_p2]
    {[ AAAA := {[ [A; C] := {[ GATTACA := 1 ]} ]} ]}.
Definition pcoll_merge_hit : PairedEnd.FastqMultiRecordCollection :=
  PairedEnd.mkCollection
    [PairedEnd.mkFastqMultiRecord {[ "p1" ]} AAAA [A; C] GATTACA
       (replicate 2 (F32.of_Z 20)) (replicate 7 (F32.of_Z 20))]
    {[ AAAA := {[ [A; C] := {[ GATTACA := 0 ]} ]} ]}.

(** The pair [pair_p1] as the two files deliver it, the barcode on the
    forward read, and a pair whose forward read is too short for it. *)
Definition rawpair_p1 : PairedEnd.RawPair :=
  (("p1", withQuality 30 GATTACA), ("p1", withQuality 40 AAAA ++ withQuality 30 [A; C])).
Definition rawpair_short : PairedEnd.RawPair :=
  (("p2", withQuality 30 GATTACA), ("p2", withQuality 30 [A; C])).

(** A second pair of the content of [pair_p1], with qualities 10, and the
    collection after both: one aggregate. *)
Definition pair_p2 : PairedEnd.FastqRecord :=
  PairedEnd.mkFastqRecord "p2" (withQuality 10 [A; C]) (withQuality 10 GATTACA)
    (withQuality 40 AAAA).
Definition rawpair_p2 : PairedEnd.RawPair :=
  (("p2", withQuality 10 GATTACA), ("p2", withQuality 40 AAAA ++ withQuality 10 [A; C])).
Definition pcoll_p1p2 : PairedEnd.FastqMultiRecordCollection :=
  PairedEnd.mkCollection
    [PairedEnd.mkFastqMultiRecord {[ "p1"; "p2" ]} AAAA [A; C] GATTACA
       (replicate 2 (F32.of_Z 20)) (replicate 7 (F32.of_Z 20))]
    {[ AAAA := {[ [A; C] := {[ GATTACA := 0 ]} ]} ]}.

(** The pair of the unit test of [splitBarcodeSeq] on records. *)
Definition test_fw : list Dna5 := [A;C;G;A;T;A;C;C;C;T;G;C;A;T;C;G;G;C;A;T;G;C].
Definition test_rev : list Dna5 := [T;T;G;G;A;C;T;A;T;T;A;G;G;T;A;A;G;T;T;C;G;C;G;A;T].
Definition test_pair : PairedEnd.FastqRecord :=
  PairedEnd.mkFastqRecord "" (withQuality 60 test_fw) (withQuality 60 test_rev) [].

(** The aggregate of a pair whose forward read was given up, the collection
    that holds it, and an aggregate of the same content built elsewhere. *)
Definition pmrec_fallback : PairedEnd.FastqMultiRecord :=
  PairedEnd.mkFastqMultiRecord {[ "p1" ]} AAAA [] GATTACA [] (replicate 7 (F32.of_Z 30)).
Definition pcoll_fallback : PairedEnd.FastqMultiRecordCollection :=
  PairedEnd.mkCollection [pmrec_fallback] {[ AAAA := {[ [] := {[ GATTACA := 0 ]} ]} ]}.
Definition pmrec_fallback2 : PairedEnd.FastqMultiRecord :=
  PairedEnd.mkFastqMultiRecord {[ "p2" ]} AAAA [] GATTACA [] (replicate 7 (F32.of_Z 10)).


(** Predicates of a quality control without thresholds. *)
Definition noQualityBelow : list Dna5Q -> Z -> bool := fun _ _ => false.
Definition noAverageBelow : SingleEnd.FastqRecord -> Z -> bool -> bool := fun _ _ _ => false.


(** * Properties *)

(** ** The fault monad *)

Lemma bind_Ok {X Y} (r : result X) (k : X -> result Y) (y : Y) :
  r ≫= k = Ok y ↔ ∃ x, r = Ok x ∧ k x = Ok y.
Proof.
  destruct r as [x|f]; simpl.
  - split; [eauto | by intros (? & [= ->] & ?)].
  - split; [done | by intros (? & ? & ?)].
Qed.

Lemma SEQAN_CHECK_Ok (b : bool) (u : unit) : SEQAN_CHECK b = Ok u ↔ b = true.
Proof. destruct b, u; by split. Qed.

Lemma SEQAN_CHECK_true (b : bool) : b = true → SEQAN_CHECK b = Ok tt.
Proof. by intros ->. Qed.

(** Unfolds one monadic step of a hypothesis [H : _ ≫= _ = Ok _]. *)
Ltac step_ok H :=
  let x := fresh "x" in
  let Hx := fresh "Hx" in
  apply bind_Ok in H; destruct H as (x & Hx & H).

(** ** Barcode splitting *)

Lemma infix_prefix {X} (s : list X) (n : nat) : infix s 0 n = take n s.
Proof. unfold infix. by rewrite drop_0, Nat.sub_0_r. Qed.

Lemma infix_suffix {X} (s : list X) (n : nat) : infix s n (length s) = drop n s.
Proof. unfold infix. rewrite <- length_drop. apply firstn_all. Qed.

Lemma splitBarcodeSeq_short {X} (seq bcSeq : list X) (n : nat) :
  length seq < n → splitBarcodeSeq seq bcSeq n = (false, seq, []).
Proof.
  intros Hlt. unfold splitBarcodeSeq. repeat case_decide; try lia. done.
Qed.

Lemma splitBarcodeSeq_long {X} (seq bcSeq : list X) (n : nat) :
  0 < n ≤ length seq →
  splitBarcodeSeq seq bcSeq n = (true, drop n seq, take n seq).
Proof.
  intros [Hpos Hle]. unfold splitBarcodeSeq. repeat case_decide; try lia.
  by rewrite infix_prefix, infix_suffix.
Qed.

(** C10. For [0 < n <= length s], [splitBarcodeSeq] returns [true], the
    barcode is the first [n] residues of [s] and the sequence the remaining
    suffix, so that barcode ++ sequence is [s] again; for [length s < n] it
    returns [false], empties the barcode and leaves the sequence as it was;
    for [n = 0] it returns [true] and changes nothing. *)
Theorem splitBarcodeSeq_spec {X} (seq bcSeq : list X) (n : nat) :
  (0 < n ≤ length seq →
     splitBarcodeSeq seq bcSeq n = (true, drop n seq, take n seq)
     ∧ length (take n seq) = n
     ∧ take n seq ++ drop n seq = seq)
  ∧ (length seq < n → splitBarcodeSeq seq bcSeq n = (false, seq, []))
  ∧ (n = 0 → splitBarcodeSeq seq bcSeq n = (true, seq, bcSeq)).
Proof.
  split; [|split].
  - intros Hn. split; [by apply splitBarcodeSeq_long|]. split.
    + apply length_take_le. lia.
    + apply take_drop.
  - apply splitBarcodeSeq_short.
  - intros ->. unfold splitBarcodeSeq. by case_decide.
Qed.

Lemma splitBarcodeSeq_spec_witness :
  splitBarcodeSeq test_seq [A;A;A;A] 10
    = (true, [G;A;T;C;G;A;A;T;G;C], [G;A;T;C;G;G;T;A;A;C])
  ∧ splitBarcodeSeq [G;A;T;C;G;A;A;T;G;C] [G;A;T;C;G;G;T;A;A;C] 21
    = (false, [G;A;T;C;G;A;A;T;G;C], [])
  ∧ splitBarcodeSeq test_seq [A;A;A;A] 0 = (true, test_seq, [A;A;A;A]).
Proof.
  split; [|split].
  - destruct (splitBarcodeSeq_spec test_seq [A;A;A;A] 10) as (H & _ & _).
    destruct H as (H & _ & _); [simpl; lia | exact H].
  - destruct (splitBarcodeSeq_spec [G;A;T;C;G;A;A;T;G;C] [G;A;T;C;G;G;T;A;A;C] 21)
      as (_ & H & _).
    apply H. simpl. lia.
  - destruct (splitBarcodeSeq_spec test_seq [A;A;A;A] 0) as (_ & _ & H).
    apply H. reflexivity.
Defined.

(** ** Single-end collections: lookups *)

Import SingleEnd.
Import Batch.

Lemma getMultiRecord_Ok (coll : FastqMultiRecordCollection) (i : nat) (m : FastqMultiRecord) :
  getMultiRecord coll i = Ok m ↔ multiRecordPtrs coll !! i = Some m.
Proof.
  unfold getMultiRecord, SEQAN_CHECK. case_bool_decide as Hi; simpl.
  - destruct (multiRecordPtrs coll !! i); split; congruence.
  - split; [done|]. intros Hm. apply lookup_lt_Some in Hm. lia.
Qed.

Lemma getMultiRecord_lookup (coll : FastqMultiRecordCollection) (i : nat) (m : FastqMultiRecord) :
  multiRecordPtrs coll !! i = Some m → getMultiRecord coll i = Ok m.
Proof. apply getMultiRecord_Ok. Qed.

Lemma findMultiRecordPosition_seqs_Some (coll : FastqMultiRecordCollection)
    (bc sq : list Dna5) (slot : nat) :
  findMultiRecordPosition_seqs coll bc sq = Some slot
  ↔ ∃ seqMap, bcMap coll !! bc = Some seqMap ∧ seqMap !! sq = Some slot.
Proof.
  unfold findMultiRecordPosition_seqs.
  destruct (bcMap coll !! bc) as [seqMap|].
  - destruct (seqMap !! sq) eqn:E; split.
    + intros [= ->]. eauto.
    + intros (? & [= <-] & ?). congruence.
    + done.
    + intros (? & [= <-] & ?). congruence.
  - split; [done|]. by intros (? & ? & ?).
Qed.

Lemma findMultiRecordPosition_seqs_insert (ptrs' : list FastqMultiRecord)
    (bm : gmap (list Dna5) (gmap (list Dna5) nat)) (bc sq : list Dna5) (slot : nat) :
  findMultiRecordPosition_seqs
    (mkCollection ptrs' (<[bc := <[sq := slot]> (default ∅ (bm !! bc))]> bm)) bc sq
  = Some slot.
Proof.
  unfold findMultiRecordPosition_seqs. simpl.
  by rewrite lookup_insert_eq, lookup_insert_eq.
Qed.

Lemma findMultiRecordPosition_seqs_register (ptrs ptrs' : list FastqMultiRecord)
    (bm : gmap (list Dna5) (gmap (list Dna5) nat)) (bc sq bc' sq' : list Dna5) (n : nat) :
  findMultiRecordPosition_seqs
    (mkCollection ptrs' (<[bc := <[sq := n]> (default ∅ (bm !! bc))]> bm)) bc' sq'
  = if decide ((bc', sq') = (bc, sq)) then Some n
    else findMultiRecordPosition_seqs (mkCollection ptrs bm) bc' sq'.
Proof.
  unfold findMultiRecordPosition_seqs. cbn.
  destruct (decide (bc' = bc)) as [->|Hbc].
  - rewrite lookup_insert_eq. destruct (decide (sq' = sq)) as [->|Hsq].
    + rewrite lookup_insert_eq, decide_True; done.
    + rewrite lookup_insert_ne, decide_False by congruence.
      destruct (bm !! bc); cbn; [done|]. by rewrite lookup_empty.
  - rewrite lookup_insert_ne, decide_False by congruence. done.
Qed.

Lemma toDna5_toDna5Q (s : list Dna5) : toDna5 (toDna5Q s) = s.
Proof.
  unfold toDna5, toDna5Q.
  induction s as [|b s IH]; simpl; [done|]. by f_equal.
Qed.

(** ** The running mean: lengths and faults *)

Lemma updateMeanQualityValues_seq_Ok (q : list float) (w : Z) (s : list Dna5Q) :
  (length q = 0 ∧ w = 0%Z) ∨ (length q = length s ∧ (0 < w)%Z) →
  ∃ q', updateMeanQualityValues_seq q w s = Ok q'
        ∧ length q' = length s
        ∧ q' = zip_with (foldMean w)
                 (if decide (w = 0%Z) then replicate (length s) (F32.of_Z 0) else q) s.
Proof.
  intros Hpre. unfold updateMeanQualityValues_seq.
  rewrite SEQAN_CHECK_true; simpl.
  - eexists. split; [done|]. destruct Hpre as [[Hq ->]|[Hq Hw]].
    + destruct q; [|done]. unfold resize. simpl.
      rewrite Nat.sub_0_r, take_nil. simpl.
      split; [|done]. rewrite length_zip_with, length_replicate. lia.
    + case_decide; [lia|]. split; [|done]. rewrite length_zip_with. lia.
  - apply orb_true_iff. destruct Hpre; [left|right]; by apply bool_decide_eq_true.
Qed.

Lemma newMultiRecord_Ok (record : FastqRecord) :
  ∃ q, newMultiRecord record
         = Ok (mkFastqMultiRecord {[ id record ]} (toDna5 (bcSeq record))
                 (toDna5 (seq record)) q)
       ∧ length q = length (seq record)
       ∧ q = zip_with (foldMean 0) (replicate (length (seq record)) (F32.of_Z 0)) (seq record).
Proof.
  unfold newMultiRecord, _generic_newMultiRecord. cbn [qualities ids mBcSeq mSeq].
  destruct (updateMeanQualityValues_seq_Ok [] 0 (seq record)) as (q & -> & Hlen & Hq);
    [by left|].
  exists q. cbn. rewrite (right_id_L ∅ (∪)). done.
Qed.

Lemma mapMultiRecord_Ok (coll : FastqMultiRecordCollection) (m : FastqMultiRecord) :
  findMultiRecordPosition_seqs coll (mBcSeq m) (mSeq m) = None →
  mapMultiRecord coll m
  = Ok (mkCollection (multiRecordPtrs coll ++ [m])
          (<[mBcSeq m := <[mSeq m := length (multiRecordPtrs coll)]>
                           (default ∅ (bcMap coll !! mBcSeq m))]> (bcMap coll)),
        length (multiRecordPtrs coll)).
Proof.
  intros Hnone. unfold mapMultiRecord.
  rewrite SEQAN_CHECK_true; simpl.
  - rewrite length_app. simpl.
    replace (length (multiRecordPtrs coll) + 1 - 1) with (length (multiRecordPtrs coll)) by lia.
    rewrite (getMultiRecord_lookup _ _ m); [done|]. simpl.
    by rewrite lookup_app_r, Nat.sub_diag.
  - apply bool_decide_eq_true. unfold findMultiRecordPosition_seqs in Hnone.
    destruct (bcMap coll !! mBcSeq m) as [seqMap|]; simpl; [|done].
    by destruct (seqMap !! mSeq m).
Qed.

(** ** [findContainingMultiRecord], case by case *)

Lemma findContaining_known (coll : FastqMultiRecordCollection) (r : FastqRecord)
    (insert : bool) (i : nat) (m : FastqMultiRecord) :
  findMultiRecordPosition coll r = Some i →
  multiRecordPtrs coll !! i = Some m →
  id r ∈ ids m →
  findContainingMultiRecord coll r insert = Ok (coll, Some i).
Proof.
  intros Hpos Hm Hid. unfold findContainingMultiRecord. rewrite Hpos.
  rewrite (getMultiRecord_lookup _ _ _ Hm). cbn. by rewrite decide_True.
Qed.

Lemma findContaining_fold (coll : FastqMultiRecordCollection) (r : FastqRecord)
    (i : nat) (m : FastqMultiRecord) :
  findMultiRecordPosition coll r = Some i →
  multiRecordPtrs coll !! i = Some m →
  id r ∉ ids m →
  findContainingMultiRecord coll r true
  = (m' ← updateMultiRecord m r;
     Ok (mkCollection (<[i := m']> (multiRecordPtrs coll)) (bcMap coll), Some i)).
Proof.
  intros Hpos Hm Hid. unfold findContainingMultiRecord. rewrite Hpos.
  rewrite (getMultiRecord_lookup _ _ _ Hm). cbn. by rewrite decide_False.
Qed.

Lemma findContaining_new (coll : FastqMultiRecordCollection) (r : FastqRecord) :
  findMultiRecordPosition coll r = None →
  ∃ m, newMultiRecord r = Ok m
    ∧ ids m = {[ id r ]} ∧ mBcSeq m = toDna5 (bcSeq r) ∧ mSeq m = toDna5 (seq r)
    ∧ length (qualities m) = length (seq r)
    ∧ findContainingMultiRecord coll r true
      = Ok (mkCollection (multiRecordPtrs coll ++ [m])
              (<[mBcSeq m := <[mSeq m := length (multiRecordPtrs coll)]>
                               (default ∅ (bcMap coll !! mBcSeq m))]> (bcMap coll)),
            Some (length (multiRecordPtrs coll))).
Proof.
  intros Hpos. destruct (newMultiRecord_Ok r) as (q & Hnew & Hlen & _).
  eexists. split; [exact Hnew|]. cbn. repeat split; [done|].
  unfold findContainingMultiRecord. rewrite Hpos. cbn. rewrite Hnew. cbn.
  rewrite mapMultiRecord_Ok; [done|]. exact Hpos.
Qed.

Lemma updateMultiRecord_ids (m m' : FastqMultiRecord) (r : FastqRecord) :
  updateMultiRecord m r = Ok m' →
  ids m' = {[ id r ]} ∪ ids m ∧ mBcSeq m' = mBcSeq m ∧ mSeq m' = mSeq m.
Proof.
  unfold updateMultiRecord. intros H. step_ok H. step_ok H.
  by injection H as <-.
Qed.

(** After [findContainingMultiRecord] with [insert = true] the record is
    folded in, at the slot returned. *)
Lemma findContaining_folds (coll coll' : FastqMultiRecordCollection)
    (r : FastqRecord) (p : option nat) :
  findContainingMultiRecord coll r true = Ok (coll', p) →
  ∃ slot, p = Some slot ∧ folded coll' r slot.
Proof.
  intros H. unfold folded.
  destruct (findMultiRecordPosition coll r) as [i|] eqn:Hpos.
  - destruct (multiRecordPtrs coll !! i) as [m|] eqn:Hm.
    + destruct (decide (id r ∈ ids m)) as [Hin|Hnin].
      * rewrite (findContaining_known _ _ _ _ _ Hpos Hm Hin) in H.
        injection H as <- <-. eauto 10.
      * rewrite (findContaining_fold _ _ _ _ Hpos Hm Hnin) in H.
        step_ok H. injection H as <- <-.
        apply updateMultiRecord_ids in Hx as (Hids & _).
        exists i. repeat split; [done|]. exists x. split.
        -- cbn. apply list_lookup_insert_eq. by eapply lookup_lt_Some.
        -- rewrite Hids. apply elem_of_union_l, elem_of_singleton. done.
    + unfold findContainingMultiRecord in H. rewrite Hpos in H.
      destruct (getMultiRecord coll i) as [m|] eqn:Hget; [|done].
      apply getMultiRecord_Ok in Hget. congruence.
  - destruct (findContaining_new _ _ Hpos) as (m & _ & Hids & Hbc & Hsq & _ & Hfind).
    rewrite Hfind in H. injection H as <- <-.
    exists (length (multiRecordPtrs coll)). repeat split.
    + unfold findMultiRecordPosition. rewrite <- Hbc, <- Hsq.
      apply findMultiRecordPosition_seqs_insert.
    + exists m. split; [cbn; by rewrite lookup_app_r, Nat.sub_diag|].
      rewrite Hids. by apply elem_of_singleton.
Qed.

(** Submitting a record that is folded in changes nothing. *)
Lemma folded_noop (coll : FastqMultiRecordCollection) (r : FastqRecord) (slot : nat)
    (insert : bool) :
  folded coll r slot → findContainingMultiRecord coll r insert = Ok (coll, Some slot).
Proof. intros (Hpos & m & Hm & Hin). by apply (findContaining_known _ _ _ _ m). Qed.

(** A record stays folded in, at its slot, when other records are submitted. *)
Lemma folded_preserved (coll coll' : FastqMultiRecordCollection) (r r' : FastqRecord)
    (slot : nat) (p : option nat) :
  folded coll r slot →
  findContainingMultiRecord coll r' true = Ok (coll', p) →
  folded coll' r slot.
Proof.
  intros (Hpos & m & Hm & Hin) H. unfold folded.
  destruct (findMultiRecordPosition coll r') as [i|] eqn:Hpos'.
  - destruct (multiRecordPtrs coll !! i) as [m'|] eqn:Hm'.
    + destruct (decide (id r' ∈ ids m')) as [Hin'|Hnin'].
      * rewrite (findContaining_known _ _ _ _ _ Hpos' Hm' Hin') in H.
        injection H as <- <-. eauto.
      * rewrite (findContaining_fold _ _ _ _ Hpos' Hm' Hnin') in H.
        step_ok H. injection H as <- <-.
        apply updateMultiRecord_ids in Hx as (Hids & _).
        split; [exact Hpos|]. cbn. destruct (decide (i = slot)) as [->|Hne].
        -- exists x. rewrite list_lookup_insert_eq by (by eapply lookup_lt_Some).
           split; [done|]. rewrite Hids. apply elem_of_union_r. congruence.
        -- exists m. by rewrite list_lookup_insert_ne.
    + unfold findContainingMultiRecord in H. rewrite Hpos' in H.
      destruct (getMultiRecord coll i) as [m'|] eqn:Hget; [|done].
      apply getMultiRecord_Ok in Hget. congruence.
  - destruct (findContaining_new _ _ Hpos') as (m' & _ & _ & Hbc & Hsq & _ & Hfind).
    rewrite Hfind in H. injection H as <- <-. split.
    + unfold findMultiRecordPosition in *. rewrite Hbc, Hsq.
      rewrite (findMultiRecordPosition_seqs_register (multiRecordPtrs coll)).
      rewrite decide_False; [by destruct coll|].
      intros [= Hb Hs]. rewrite Hb, Hs in Hpos. congruence.
    + exists m. split; [|done]. cbn. apply lookup_app_l_Some. done.
Qed.

(** ** Paired-end collections: the same, one level deeper *)

Lemma pe_getMultiRecord_Ok (coll : PairedEnd.FastqMultiRecordCollection) (i : nat)
    (m : PairedEnd.FastqMultiRecord) :
  PairedEnd.getMultiRecord coll i = Ok m ↔ PairedEnd.multiRecordPtrs coll !! i = Some m.
Proof.
  unfold PairedEnd.getMultiRecord, SEQAN_CHECK. case_bool_decide as Hi; simpl.
  - destruct (PairedEnd.multiRecordPtrs coll !! i); split; congruence.
  - split; [done|]. intros Hm. apply lookup_lt_Some in Hm. lia.
Qed.

Lemma pe_findMultiRecordPosition_seqs_insert (ptrs' : list PairedEnd.FastqMultiRecord)
    (bm : gmap (list Dna5) (gmap (list Dna5) (gmap (list Dna5) nat)))
    (bc fw rv : list Dna5) (slot : nat) :
  PairedEnd.findMultiRecordPosition_seqs
    (PairedEnd.mkCollection ptrs'
       (<[bc := <[fw := <[rv := slot]> (default ∅ (default ∅ (bm !! bc) !! fw))]>
                  (default ∅ (bm !! bc))]> bm)) bc fw rv
  = Some slot.
Proof.
  unfold PairedEnd.findMultiRecordPosition_seqs. simpl.
  by rewrite !lookup_insert_eq.
Qed.

Lemma pe_newMultiRecord_Ok (record : PairedEnd.FastqRecord) :
  ∃ fq rq, PairedEnd.newMultiRecord record
         = Ok (PairedEnd.mkFastqMultiRecord {[ PairedEnd.id record ]}
                 (toDna5 (PairedEnd.bcSeq record)) (toDna5 (PairedEnd.fwSeq record))
                 (toDna5 (PairedEnd.revSeq record)) fq rq)
       ∧ length fq = length (PairedEnd.fwSeq record)
       ∧ length rq = length (PairedEnd.revSeq record).
Proof.
  unfold PairedEnd.newMultiRecord, PairedEnd._generic_newMultiRecord.
  cbn [PairedEnd.fwQualities PairedEnd.revQualities PairedEnd.ids PairedEnd.mBcSeq].
  destruct (updateMeanQualityValues_seq_Ok [] 0 (PairedEnd.fwSeq record))
    as (fq & -> & Hfq & _); [by left|].
  destruct (updateMeanQualityValues_seq_Ok [] 0 (PairedEnd.revSeq record))
    as (rq & -> & Hrq & _); [by left|].
  exists fq, rq. cbn. rewrite (right_id_L ∅ (∪)). done.
Qed.

Lemma pe_mapMultiRecord_Ok (coll : PairedEnd.FastqMultiRecordCollection)
    (m : PairedEnd.FastqMultiRecord) :
  PairedEnd.findMultiRecordPosition_seqs coll (PairedEnd.mBcSeq m) (PairedEnd.mFwSeq m)
    (PairedEnd.mRevSeq m) = None →
  PairedEnd.mapMultiRecord coll m
  = Ok (PairedEnd.mkCollection (PairedEnd.multiRecordPtrs coll ++ [m])
          (<[PairedEnd.mBcSeq m :=
               <[PairedEnd.mFwSeq m :=
                   <[PairedEnd.mRevSeq m := length (PairedEnd.multiRecordPtrs coll)]>
                     (default ∅ (default ∅ (PairedEnd.bcMap coll !! PairedEnd.mBcSeq m)
                                 !! PairedEnd.mFwSeq m))]>
                 (default ∅ (PairedEnd.bcMap coll !! PairedEnd.mBcSeq m))]>
             (PairedEnd.bcMap coll)),
        length (PairedEnd.multiRecordPtrs coll)).
Proof.
  intros Hnone. unfold PairedEnd.mapMultiRecord.
  rewrite SEQAN_CHECK_true; simpl.
  - rewrite length_app. simpl.
    replace (length (PairedEnd.multiRecordPtrs coll) + 1 - 1)
      with (length (PairedEnd.multiRecordPtrs coll)) by lia.
    rewrite (proj2 (pe_getMultiRecord_Ok _ _ m)); [done|]. simpl.
    by rewrite lookup_app_r, Nat.sub_diag.
  - apply bool_decide_eq_true. unfold PairedEnd.findMultiRecordPosition_seqs in Hnone.
    destruct (PairedEnd.bcMap coll !! PairedEnd.mBcSeq m) as [fwMap|]; simpl; [|done].
    destruct (fwMap !! PairedEnd.mFwSeq m) as [revMap|]; simpl; [|done].
    by destruct (revMap !! PairedEnd.mRevSeq m).
Qed.

Lemma pe_findMultiRecordPosition_seqs_register
    (ptrs ptrs' : list PairedEnd.FastqMultiRecord)
    (bm : gmap (list Dna5) (gmap (list Dna5) (gmap (list Dna5) nat)))
    (bc fw rv bc' fw' rv' : list Dna5) (n : nat) :
  PairedEnd.findMultiRecordPosition_seqs
    (PairedEnd.mkCollection ptrs'
       (<[bc := <[fw := <[rv := n]> (default ∅ (default ∅ (bm !! bc) !! fw))]>
                  (default ∅ (bm !! bc))]> bm)) bc' fw' rv'
  = if decide ((bc', fw', rv') = (bc, fw, rv)) then Some n
    else PairedEnd.findMultiRecordPosition_seqs (PairedEnd.mkCollection ptrs bm) bc' fw' rv'.
Proof.
  unfold PairedEnd.findMultiRecordPosition_seqs. cbn.
  destruct (decide (bc' = bc)) as [->|Hbc].
  - rewrite lookup_insert_eq. destruct (decide (fw' = fw)) as [->|Hfw].
    + rewrite lookup_insert_eq. destruct (decide (rv' = rv)) as [->|Hrv].
      * rewrite lookup_insert_eq, decide_True; done.
      * rewrite lookup_insert_ne, decide_False by congruence.
        destruct (bm !! bc) as [fm|]; cbn; [|by rewrite lookup_empty].
        destruct (fm !! fw); cbn; [done|]. by rewrite lookup_empty.
    + rewrite lookup_insert_ne, decide_False by congruence.
      destruct (bm !! bc); cbn; [done|]. by rewrite lookup_empty.
  - rewrite lookup_insert_ne, decide_False by congruence. done.
Qed.

Lemma pe_updateMultiRecord_ids (m m' : PairedEnd.FastqMultiRecord) (r : PairedEnd.FastqRecord) :
  PairedEnd.updateMultiRecord m r = Ok m' →
  PairedEnd.ids m' = {[ PairedEnd.id r ]} ∪ PairedEnd.ids m.
Proof.
  unfold PairedEnd.updateMultiRecord. intros H. step_ok H. step_ok H. step_ok H.
  by injection H as <-.
Qed.

(** What [PairedEnd.findContainingMultiRecord] with [insert = true] returns,
    case by case. *)
Lemma pe_findContaining_cases (coll coll' : PairedEnd.FastqMultiRecordCollection)
    (r : PairedEnd.FastqRecord) (p : option nat) :
  PairedEnd.findContainingMultiRecord coll r true = Ok (coll', p) →
  (∃ i m, PairedEnd.findMultiRecordPosition coll r = Some i
          ∧ PairedEnd.multiRecordPtrs coll !! i = Some m
          ∧ PairedEnd.id r ∈ PairedEnd.ids m ∧ coll' = coll ∧ p = Some i)
  ∨ (∃ i m m', PairedEnd.findMultiRecordPosition coll r = Some i
          ∧ PairedEnd.multiRecordPtrs coll !! i = Some m
          ∧ PairedEnd.ids m' = {[ PairedEnd.id r ]} ∪ PairedEnd.ids m
          ∧ coll' = PairedEnd.mkCollection (<[i := m']> (PairedEnd.multiRecordPtrs coll))
                      (PairedEnd.bcMap coll)
          ∧ p = Some i)
  ∨ (∃ fq rq, PairedEnd.findMultiRecordPosition coll r = None
          ∧ let m := PairedEnd.mkFastqMultiRecord {[ PairedEnd.id r ]}
                       (toDna5 (PairedEnd.bcSeq r)) (toDna5 (PairedEnd.fwSeq r))
                       (toDna5 (PairedEnd.revSeq r)) fq rq in
            coll' = PairedEnd.mkCollection (PairedEnd.multiRecordPtrs coll ++ [m])
                      (<[PairedEnd.mBcSeq m :=
                           <[PairedEnd.mFwSeq m :=
                               <[PairedEnd.mRevSeq m := length (PairedEnd.multiRecordPtrs coll)]>
                                 (default ∅ (default ∅ (PairedEnd.bcMap coll !! PairedEnd.mBcSeq m)
                                             !! PairedEnd.mFwSeq m))]>
                             (default ∅ (PairedEnd.bcMap coll !! PairedEnd.mBcSeq m))]>
                         (PairedEnd.bcMap coll))
            ∧ p = Some (length (PairedEnd.multiRecordPtrs coll))).
Proof.
  intros H. unfold PairedEnd.findContainingMultiRecord in H.
  destruct (PairedEnd.findMultiRecordPosition coll r) as [i|] eqn:Hpos.
  - step_ok H. apply pe_getMultiRecord_Ok in Hx.
    destruct (decide (PairedEnd.id r ∈ PairedEnd.ids x)) as [Hin|Hnin].
    + injection H as <- <-. left. eauto 10.
    + cbn in H. step_ok H. injection H as <- <-.
      apply pe_updateMultiRecord_ids in Hx0. right. left. eauto 10.
  - cbn in H. destruct (pe_newMultiRecord_Ok r) as (fq & rq & Hnew & _).
    rewrite Hnew in H. cbn in H. rewrite pe_mapMultiRecord_Ok in H by exact Hpos.
    cbn in H. injection H as <- <-. right. right. exists fq, rq. eauto.
Qed.

Lemma pe_findContaining_folds (coll coll' : PairedEnd.FastqMultiRecordCollection)
    (r : PairedEnd.FastqRecord) (p : option nat) :
  PairedEnd.findContainingMultiRecord coll r true = Ok (coll', p) →
  ∃ slot, p = Some slot ∧ PairedEnd.folded coll' r slot.
Proof.
  intros H. unfold PairedEnd.folded.
  destruct (pe_findContaining_cases _ _ _ _ H)
    as [(i & m & Hpos & Hm & Hin & -> & ->)
       |[(i & m & m' & Hpos & Hm & Hids & -> & ->)|(fq & rq & Hpos & -> & ->)]].
  - eauto 10.
  - exists i. split; [done|]. split; [exact Hpos|]. exists m'. split.
    + cbn. apply list_lookup_insert_eq. by eapply lookup_lt_Some.
    + rewrite Hids. apply elem_of_union_l, elem_of_singleton. done.
  - eexists. split; [done|]. split.
    + apply pe_findMultiRecordPosition_seqs_insert.
    + eexists. split; [cbn; by rewrite lookup_app_r, Nat.sub_diag|].
      cbn. by apply elem_of_singleton.
Qed.

Lemma pe_folded_noop (coll : PairedEnd.FastqMultiRecordCollection)
    (r : PairedEnd.FastqRecord) (slot : nat) (insert : bool) :
  PairedEnd.folded coll r slot →
  PairedEnd.findContainingMultiRecord coll r insert = Ok (coll, Some slot).
Proof.
  intros (Hpos & m & Hm & Hin). unfold PairedEnd.findContainingMultiRecord. rewrite Hpos.
  rewrite (proj2 (pe_getMultiRecord_Ok _ _ _) Hm). cbn. by rewrite decide_True.
Qed.

Lemma pe_folded_preserved (coll coll' : PairedEnd.FastqMultiRecordCollection)
    (r r' : PairedEnd.FastqRecord) (slot : nat) (p : option nat) :
  PairedEnd.folded coll r slot →
  PairedEnd.findContainingMultiRecord coll r' true = Ok (coll', p) →
  PairedEnd.folded coll' r slot.
Proof.
  intros (Hpos & m & Hm & Hin) H. unfold PairedEnd.folded.
  destruct (pe_findContaining_cases _ _ _ _ H)
    as [(i & m1 & Hpos' & Hm1 & Hin' & -> & ->)
       |[(i & m1 & m' & Hpos' & Hm1 & Hids & -> & ->)|(fq & rq & Hpos' & -> & ->)]].
  - eauto.
  - split; [exact Hpos|]. cbn. destruct (decide (i = slot)) as [->|Hne].
    + exists m'. rewrite list_lookup_insert_eq by (by eapply lookup_lt_Some).
      split; [done|]. rewrite Hids. apply elem_of_union_r. congruence.
    + exists m. by rewrite list_lookup_insert_ne.
  - split.
    + unfold PairedEnd.findMultiRecordPosition in *. cbn.
      rewrite (pe_findMultiRecordPosition_seqs_register (PairedEnd.multiRecordPtrs coll)).
      rewrite decide_False; [by destruct coll|].
      intros [= Hb Hf Hr]. rewrite Hb, Hf, Hr in Hpos. congruence.
    + exists m. split; [|done]. cbn. apply lookup_app_l_Some. done.
Qed.

(** C4. A record is folded into a collection when the index leads from its
    content to an aggregate that holds its identifier. That is the case
    after it has been submitted through [findContainingMultiRecord] with
    [insert = true], and it stays the case whatever is submitted afterwards.
    In every such state, submitting the record again changes nothing and
    returns its slot: the collection (one aggregate for that content, the
    same identifier set, the same mean qualities) is the one before the
    call. This holds of single-end and of paired-end collections. *)
Theorem findContaining_idempotent :
  (∀ (coll coll' : FastqMultiRecordCollection) (r : FastqRecord) (p : option nat),
     findContainingMultiRecord coll r true = Ok (coll', p) →
     ∃ slot, p = Some slot ∧ folded coll' r slot)
  ∧ (∀ (coll coll' : FastqMultiRecordCollection) (r r' : FastqRecord) (slot : nat)
       (p : option nat),
       folded coll r slot →
       findContainingMultiRecord coll r' true = Ok (coll', p) →
       folded coll' r slot)
  ∧ (∀ (coll : FastqMultiRecordCollection) (r : FastqRecord) (slot : nat),
       folded coll r slot →
       findContainingMultiRecord coll r true = Ok (coll, Some slot))
  ∧ (∀ (coll coll' : PairedEnd.FastqMultiRecordCollection) (r : PairedEnd.FastqRecord)
       (p : option nat),
       PairedEnd.findContainingMultiRecord coll r true = Ok (coll', p) →
       ∃ slot, p = Some slot ∧ PairedEnd.folded coll' r slot)
  ∧ (∀ (coll coll' : PairedEnd.FastqMultiRecordCollection) (r r' : PairedEnd.FastqRecord)
       (slot : nat) (p : option nat),
       PairedEnd.folded coll r slot →
       PairedEnd.findContainingMultiRecord coll r' true = Ok (coll', p) →
       PairedEnd.folded coll' r slot)
  ∧ (∀ (coll : PairedEnd.FastqMultiRecordCollection) (r : PairedEnd.FastqRecord)
       (slot : nat),
       PairedEnd.folded coll r slot →
       PairedEnd.findContainingMultiRecord coll r true = Ok (coll, Some slot)).
Proof.
  split; [exact findContaining_folds|]. split; [exact folded_preserved|].
  split; [intros coll r slot; apply folded_noop|].
  split; [exact pe_findContaining_folds|]. split; [exact pe_folded_preserved|].
  intros coll r slot. apply pe_folded_noop.
Qed.

Lemma findContaining_idempotent_witness :
  findContainingMultiRecord coll_r1r2 rec_r1 true = Ok (coll_r1r2, Some 0)
  ∧ PairedEnd.findContainingMultiRecord pcoll_p1 pair_p1 true = Ok (pcoll_p1, Some 0).
Proof.
  destruct findContaining_idempotent as (Hfold & Hkeep & Hnoop & Hpfold & _ & Hpnoop).
  split.
  - apply Hnoop. apply (Hkeep coll_r1 coll_r1r2 rec_r1 rec_r2 0 (Some 0)).
    + destruct (Hfold emptyCollection coll_r1 rec_r1 (Some 0)) as (slot & Hslot & Hf).
      { vm_compute. reflexivity. }
      injection Hslot as <-. exact Hf.
    + vm_compute. reflexivity.
  - apply Hpnoop.
    destruct (Hpfold PairedEnd.emptyCollection pcoll_p1 pair_p1 (Some 0)) as (slot & Hslot & Hf).
    { vm_compute. reflexivity. }
    injection Hslot as <-. exact Hf.
Defined.

(** ** The ingestion loop *)

Section IngestionFacts.

Variable anyQualityBelow : list Dna5Q -> Z -> bool.
Variable averageQualityBelow : FastqRecord -> Z -> bool -> bool.

Abbreviation body := (readRecords_body anyQualityBelow averageQualityBelow).
Abbreviation iter := (readRecords_iter anyQualityBelow averageQualityBelow).
Abbreviation loop := (readRecords_loop anyQualityBelow averageQualityBelow).
Abbreviation verdict := (readRecords_verdict anyQualityBelow averageQualityBelow).

(** What one iteration does to the variables of the loop. *)
Lemma body_Ok (options : CdrOptions) (raw : RawRecord) (s s' : LoopState) :
  body options raw s = Ok s' →
  let tr := readRecords_read options (rec s) raw in
  rec s' = tr.2
  ∧ complCount s' = wrap64 (complCount s + 1)
  ∧ (progBar s = None → progBar s' = None)
  ∧ (is_Some (progBar s) → is_Some (progBar s'))
  ∧ if decide (verdict options tr.1 tr.2 = NONE)
    then rejectEvents s' = rejectEvents s
         ∧ ∃ p, findContainingMultiRecord (collection s) tr.2 true = Ok (collection s', p)
    else collection s' = collection s
         ∧ rejectEvents s' =
             rejectEvents s ++ [mkRejectEvent (id tr.2) (verdict options tr.1 tr.2)].
Proof.
  unfold readRecords_body.
  destruct (readRecords_read options (rec s) raw) as [tsfb r]. cbn [fst snd].
  set (pb := match progBar s with Some _ => _ | None => _ end).
  assert ((progBar s = None → pb.1 = None) ∧ (is_Some (progBar s) → is_Some pb.1))
    as [HpbN HpbS].
  { subst pb. destruct (progBar s); [|by split; [|intros [? ?]]].
    case_decide; cbn; split; eauto; done. }
  destruct pb as [pb bb]. cbn [fst] in *.
  case_decide as Hv.
  - intros H. step_ok H. destruct x as [c p]. injection H as <-. cbn. eauto 10.
  - intros [= <-]. cbn. eauto 10.
Qed.

Lemma body_reject (options : CdrOptions) (raw : RawRecord) (s : LoopState) :
  let tr := readRecords_read options (rec s) raw in
  verdict options tr.1 tr.2 ≠ NONE →
  ∃ s', body options raw s = Ok s'.
Proof.
  cbn. unfold readRecords_body.
  destruct (readRecords_read options (rec s) raw) as [tsfb r]. cbn [fst snd].
  destruct (match progBar s with Some _ => _ | None => _ end) as [pb bb].
  intros Hv. rewrite decide_False by done. eauto.
Qed.

Lemma body_accept (options : CdrOptions) (raw : RawRecord) (s : LoopState)
    (c : FastqMultiRecordCollection) (p : option nat) :
  let tr := readRecords_read options (rec s) raw in
  verdict options tr.1 tr.2 = NONE →
  findContainingMultiRecord (collection s) tr.2 true = Ok (c, p) →
  ∃ s', body options raw s = Ok s'.
Proof.
  cbn. unfold readRecords_body.
  destruct (readRecords_read options (rec s) raw) as [tsfb r]. cbn [fst snd].
  destruct (match progBar s with Some _ => _ | None => _ end) as [pb bb].
  intros Hv Hf. rewrite decide_True by done. rewrite Hf. cbn. eauto.
Qed.

(** Without a positive [count] the loop runs over every entry. *)
Lemma loop_unbounded (options : CdrOptions) (count : Z) (entries : list RawRecord)
    (s : LoopState) :
  (count ≤ 0)%Z →
  loop options count entries s
  = (s' ← iter options entries s;
     _ ← progBar_clear (progBar s');
     Ok (collection s', rejectEvents s', [], false)).
Proof.
  intros Hc. revert s. induction entries as [|raw rest IH]; intros s; cbn.
  - done.
  - rewrite bool_decide_eq_false_2 by lia. cbn.
    destruct (body options raw s) as [s1|f]; cbn; [apply IH | done].
Qed.

(** With a positive [count] it stops when [complCount] reaches it. *)
Lemma loop_bounded (options : CdrOptions) (count : Z) (entries : list RawRecord)
    (s : LoopState) :
  (0 < count < 2 ^ 64)%Z →
  (0 ≤ complCount s ≤ count)%Z →
  let n := Z.to_nat (count - complCount s) `min` length entries in
  loop options count entries s
  = (s' ← iter options (take n entries) s;
     _ ← progBar_clear (progBar s');
     Ok (collection s', rejectEvents s', drop n entries,
         negb (inStreamsAtEnd (drop n entries)))).
Proof.
  intros Hc. revert s. induction entries as [|raw rest IH]; intros s Hs; cbn.
  - by rewrite Nat.min_0_r.
  - rewrite (bool_decide_eq_true_2 (0 < count)%Z) by lia. cbn.
    case_bool_decide as Heq.
    + replace (Z.to_nat (count - complCount s)) with 0 by lia. done.
    + destruct (Z.to_nat (count - complCount s)) as [|k] eqn:Hk; [lia|]. cbn.
      destruct (body options raw s) as [s1|f] eqn:Hb; cbn; [|done].
      apply body_Ok in Hb as (_ & Hcc & _).
      assert (complCount s1 = complCount s + 1)%Z as Hcc'.
      { rewrite Hcc. unfold wrap64. apply Z.mod_small. lia. }
      rewrite IH by lia. by replace (Z.to_nat (count - complCount s1)) with k by lia.
Qed.

Lemma readRecords_unroll (coll : FastqMultiRecordCollection) (rej : list RejectEvent)
    (inStreams : SeqInputStreams) (options : CdrOptions) (count : Z) :
  (0 ≤ count < 2 ^ 32)%Z →
  let n := consumed count (stream inStreams) in
  let pb := if decide (0 < totalInBytes inStreams)%Z
            then Some (mkProgressBar (totalInBytes inStreams) []) else None in
  readRecords anyQualityBelow averageQualityBelow coll rej inStreams options count
  = (s' ← iter options (take n (stream inStreams))
            (mkLoopState emptyCollection rej emptyRecord 0 0 pb);
     _ ← progBar_clear (progBar s');
     Ok (collection s', rejectEvents s', drop n (stream inStreams),
         negb (inStreamsAtEnd (drop n (stream inStreams))))).
Proof.
  intros Hc. unfold readRecords, consumed. cbn zeta.
  assert (2 ^ 32 < 2 ^ 64)%Z by done.
  destruct (decide (0 < count)%Z) as [Hpos|Hpos].
  - rewrite loop_bounded; cbn [complCount]; [|lia..].
    by rewrite Z.sub_0_r.
  - rewrite loop_unbounded by lia.
    by rewrite firstn_all, drop_all.
Qed.

End IngestionFacts.

(** ** Sums over the two-level index *)

Abbreviation seqSum f sm :=
  (sum_list_with (fun e' : list Dna5 * nat => f e'.2) (map_to_list sm)).

Section IndexSum.

Implicit Types (f g : nat → nat) (bm : gmap (list Dna5) (gmap (list Dna5) nat)).
Implicit Types (sm : gmap (list Dna5) nat) (bc sq : list Dna5).

Lemma seqSum_empty f : seqSum f ∅ = 0.
Proof. by rewrite map_to_list_empty. Qed.

Lemma seqSum_insert f sm sq (i : nat) :
  sm !! sq = None → seqSum f (<[sq := i]> sm) = f i + seqSum f sm.
Proof. intros H. by rewrite (map_to_list_insert _ _ _ H). Qed.

Lemma seqSum_delete f sm sq (i : nat) :
  sm !! sq = Some i → seqSum f sm = f i + seqSum f (delete sq sm).
Proof. intros H. by rewrite <- (map_to_list_delete _ _ _ H). Qed.

Lemma seqSum_ext f g sm :
  (∀ sq i, sm !! sq = Some i → f i = g i) → seqSum f sm = seqSum g sm.
Proof.
  intros H.
  assert (Forall (fun e : list Dna5 * nat => f e.2 = g e.2) (map_to_list sm)) as HF.
  { apply Forall_forall. intros [sq i] Hin. apply elem_of_map_to_list in Hin. eauto. }
  induction HF as [|e l He _ IH]; cbn; [done|]. by rewrite He, IH.
Qed.

Lemma indexSum_empty f : indexSum f ∅ = 0.
Proof. unfold indexSum. by rewrite map_to_list_empty. Qed.

Lemma indexSum_insert f bm bc sm :
  bm !! bc = None → indexSum f (<[bc := sm]> bm) = seqSum f sm + indexSum f bm.
Proof. intros H. unfold indexSum. by rewrite (map_to_list_insert _ _ _ H). Qed.

Lemma indexSum_delete f bm bc sm :
  bm !! bc = Some sm → indexSum f bm = seqSum f sm + indexSum f (delete bc bm).
Proof. intros H. unfold indexSum. by rewrite <- (map_to_list_delete _ _ _ H). Qed.

Lemma indexSum_replace f bm bc sm :
  indexSum f (<[bc := sm]> bm) = seqSum f sm + indexSum f (delete bc bm).
Proof.
  rewrite <- insert_delete_eq. apply indexSum_insert, lookup_delete_eq.
Qed.

Lemma indexSum_ext f g bm :
  (∀ bc sm sq i, bm !! bc = Some sm → sm !! sq = Some i → f i = g i) →
  indexSum f bm = indexSum g bm.
Proof.
  intros H. unfold indexSum.
  assert (Forall (fun e : list Dna5 * gmap (list Dna5) nat => seqSum f e.2 = seqSum g e.2)
            (map_to_list bm)) as HF.
  { apply Forall_forall. intros [bc sm] Hin. apply elem_of_map_to_list in Hin.
    apply seqSum_ext. eauto. }
  induction HF as [|e l He _ IH]; cbn; [done|]. by rewrite He, IH.
Qed.

(** Registering a new content key adds the value of its slot. *)
Lemma indexSum_register f bm bc sq (n : nat) :
  default ∅ (bm !! bc) !! sq = None →
  indexSum f (<[bc := <[sq := n]> (default ∅ (bm !! bc))]> bm) = f n + indexSum f bm.
Proof.
  intros Hsq. rewrite indexSum_replace, seqSum_insert by done.
  destruct (bm !! bc) as [sm|] eqn:Hbc; cbn.
  - rewrite (indexSum_delete f bm bc sm Hbc). lia.
  - rewrite seqSum_empty, delete_id by done. lia.
Qed.

(** Changing the value of the slot of one content key, and of no other
    entry, changes the sum by the difference. *)
Lemma indexSum_change f g bm bc sq sm (i : nat) :
  bm !! bc = Some sm → sm !! sq = Some i →
  (∀ bc' sm' sq' j, bm !! bc' = Some sm' → sm' !! sq' = Some j →
                    (bc', sq') ≠ (bc, sq) → f j = g j) →
  indexSum g bm + f i = indexSum f bm + g i.
Proof.
  intros Hbc Hsq Hother.
  rewrite (indexSum_delete f bm bc sm Hbc), (indexSum_delete g bm bc sm Hbc).
  rewrite (seqSum_delete f sm sq i Hsq), (seqSum_delete g sm sq i Hsq).
  rewrite (seqSum_ext f g (delete sq sm)).
  - rewrite (indexSum_ext f g (delete bc bm)); [lia|].
    intros bc' sm' sq' j Hbc' Hsq'. apply lookup_delete_Some in Hbc' as [Hne Hbc'].
    apply (Hother bc' sm' sq' j Hbc' Hsq'). congruence.
  - intros sq' j Hsq'. apply lookup_delete_Some in Hsq' as [Hne Hsq'].
    apply (Hother bc sm sq' j Hbc Hsq'). congruence.
Qed.

Lemma seqSum_le f g sm :
  (∀ i, f i ≤ g i) → seqSum f sm ≤ seqSum g sm.
Proof.
  intros H. induction (map_to_list sm) as [|[sq i] l IH]; cbn; [done|].
  specialize (H i). lia.
Qed.

Lemma indexSum_le f g bm :
  (∀ i, f i ≤ g i) → indexSum f bm ≤ indexSum g bm.
Proof.
  intros H. unfold indexSum.
  induction (map_to_list bm) as [|[bc sm] l IH]; cbn; [done|].
  pose proof (seqSum_le f g sm H). lia.
Qed.

End IndexSum.

(** ** The order of iteration *)

Lemma isLess_asym (s t : list Dna5) : isLess s t = true → isLess t s = false.
Proof.
  revert t. induction s as [|a s IH]; intros [|b t]; cbn; try done.
  repeat case_decide; try done; try lia. apply IH.
Qed.


Lemma isLess_le_trans (s t u : list Dna5) :
  isLess t s = false → isLess u t = false → isLess u s = false.
Proof.
  revert t u. induction s as [|a s IH]; intros [|b t] [|c u]; cbn; try done.
  repeat case_decide; try done; try lia. apply IH.
Qed.

#[global] Instance keyLe_total {V} : Total (@keyLe V).
Proof.
  intros x y. unfold keyLe. destruct (isLess y.1 x.1) eqn:Hyx; [|by left].
  right. by apply isLess_asym.
Qed.

#[global] Instance keyLe_trans {V} : Transitive (@keyLe V).
Proof. intros x y z. unfold keyLe. apply isLess_le_trans. Qed.

Lemma mapEntries_Permutation {V} (m : gmap (list Dna5) V) : mapEntries m ≡ₚ map_to_list m.
Proof. apply merge_sort_Permutation. Qed.

Lemma elem_of_mapEntries {V} (m : gmap (list Dna5) V) (k : list Dna5) (v : V) :
  (k, v) ∈ mapEntries m ↔ m !! k = Some v.
Proof. by rewrite mapEntries_Permutation, elem_of_map_to_list. Qed.

Lemma sum_list_with_mapEntries {V} (f : list Dna5 * V → nat) (m : gmap (list Dna5) V) :
  sum_list_with f (mapEntries m) = sum_list_with f (map_to_list m).
Proof. by rewrite mapEntries_Permutation. Qed.




(** ** The statistics compute the sums over the index *)

Lemma slotUnique_le (ptrs : list FastqMultiRecord) (i : nat) :
  slotUnique ptrs i ≤ slotReads ptrs i.
Proof. unfold slotUnique. case_decide; lia. Qed.

Lemma totalUnique_le (coll : FastqMultiRecordCollection) : totalUnique coll ≤ totalReads coll.
Proof. apply indexSum_le, slotUnique_le. Qed.

Lemma wrap64_small (z : Z) : (0 ≤ z < 2 ^ 64)%Z → wrap64 z = z.
Proof. apply Z.mod_small. Qed.

Lemma getBarcodeStats_seqs_plain (coll : FastqMultiRecordCollection)
    (entries : list (list Dna5 * nat)) (cnt u : Z) :
  Forall (fun e => e.2 < length (multiRecordPtrs coll)) entries →
  (0 ≤ cnt)%Z → (0 ≤ u)%Z →
  let reads := sum_list_with (fun e => slotReads (multiRecordPtrs coll) e.2) entries in
  let uniq := sum_list_with (fun e => slotUnique (multiRecordPtrs coll) e.2) entries in
  (cnt + Z.of_nat reads < 2 ^ 64)%Z → (u + Z.of_nat uniq < 2 ^ 64)%Z →
  getBarcodeStats_seqs coll entries cnt u = Ok ((cnt + Z.of_nat reads)%Z, (u + Z.of_nat uniq)%Z).
Proof.
  intros Hvalid. revert cnt u.
  induction Hvalid as [|[sq i] entries Hi _ IH]; intros cnt u Hcnt Hu; cbn.
  - intros _ _. by rewrite !Z.add_0_r.
  - intros Hr Hq. cbn in Hi.
    destruct (lookup_lt_is_Some_2 _ _ Hi) as [m Hm].
    rewrite (getMultiRecord_lookup _ _ _ Hm). cbn.
    unfold slotReads, slotUnique, slotReads in *. rewrite Hm in *. cbn in *.
    rewrite (wrap64_small (cnt + _)) by lia.
    case_decide.
    + rewrite wrap64_small by lia. rewrite IH by lia. f_equal. f_equal; lia.
    + rewrite IH by lia. f_equal. f_equal; lia.
Qed.

Lemma sumZ_snoc (l : list Z) (z : Z) : sumZ (l ++ [z]) = (sumZ l + z)%Z.
Proof. unfold sumZ. induction l as [|y l IH]; cbn; [lia|]. rewrite IH. lia. Qed.

Lemma getBarcodeStats_bcs_plain (coll : FastqMultiRecordCollection)
    (entries : list (list Dna5 * gmap (list Dna5) nat)) (stats : BarcodeStats) :
  Forall (fun e => ∀ sq i, e.2 !! sq = Some i → i < length (multiRecordPtrs coll)) entries →
  (0 ≤ nTotalReads stats)%Z → (0 ≤ nTotalUniqueReads stats)%Z →
  let reads :=
    sum_list_with (fun e : list Dna5 * gmap (list Dna5) nat =>
      seqSum (slotReads (multiRecordPtrs coll)) e.2) entries in
  let uniq :=
    sum_list_with (fun e : list Dna5 * gmap (list Dna5) nat =>
      seqSum (slotUnique (multiRecordPtrs coll)) e.2) entries in
  (nTotalReads stats + Z.of_nat reads < 2 ^ 64)%Z →
  (nTotalUniqueReads stats + Z.of_nat uniq < 2 ^ 64)%Z →
  ∃ stats', getBarcodeStats_bcs coll entries stats = Ok stats'
    ∧ nTotalReads stats' = (nTotalReads stats + Z.of_nat reads)%Z
    ∧ nTotalUniqueReads stats' = (nTotalUniqueReads stats + Z.of_nat uniq)%Z
    ∧ sumZ (nReads stats') = (sumZ (nReads stats) + Z.of_nat reads)%Z
    ∧ sumZ (nUniqueReads stats') = (sumZ (nUniqueReads stats) + Z.of_nat uniq)%Z.
Proof.
  intros Hvalid. revert stats.
  induction Hvalid as [|[bc sm] entries Hsm _ IH]; intros stats Ht Hu; cbn.
  - intros _ _. exists stats. by rewrite !Z.add_0_r.
  - intros Hr Hq. cbn in Hsm.
    pose proof (seqSum_le _ _ sm (slotUnique_le (multiRecordPtrs coll))) as Hle.
    rewrite getBarcodeStats_seqs_plain; rewrite ?sum_list_with_mapEntries; [| |lia..].
    2:{ apply Forall_forall. intros [sq i] Hin. apply elem_of_mapEntries in Hin. eauto. }
    cbn. rewrite !Z.add_0_l. case_decide as Hpos.
    + destruct (IH (mkBarcodeStats (bcSeqs stats ++ [bc])
          (nReads stats ++ [Z.of_nat (seqSum (slotReads (multiRecordPtrs coll)) sm)])
          (nUniqueReads stats ++ [Z.of_nat (seqSum (slotUnique (multiRecordPtrs coll)) sm)])
          (wrap64 (nTotalUniqueReads stats
                   + Z.of_nat (seqSum (slotUnique (multiRecordPtrs coll)) sm)))
          (wrap64 (nTotalReads stats
                   + Z.of_nat (seqSum (slotReads (multiRecordPtrs coll)) sm)))))
        as (stats' & -> & Hr' & Hq' & Hsr & Hsq); cbn; rewrite ?wrap64_small by lia; try lia.
      exists stats'. cbn in Hr', Hq', Hsr, Hsq.
      rewrite wrap64_small in Hr', Hq' by lia. rewrite sumZ_snoc in Hsr, Hsq.
      split; [done|]. lia.
    + destruct (IH stats) as (stats' & -> & Hr' & Hq' & Hsr & Hsq); try lia.
      exists stats'. split; [done|]. lia.
Qed.

Lemma getBarcodeStats_plain (coll : FastqMultiRecordCollection) :
  slotsValid coll →
  (Z.of_nat (totalReads coll) < 2 ^ 64)%Z →
  ∃ stats, getBarcodeStats coll = Ok stats
    ∧ nTotalReads stats = Z.of_nat (totalReads coll)
    ∧ nTotalUniqueReads stats = Z.of_nat (totalUnique coll)
    ∧ sumZ (nReads stats) = Z.of_nat (totalReads coll)
    ∧ sumZ (nUniqueReads stats) = Z.of_nat (totalUnique coll).
Proof.
  intros Hvalid Hbound. pose proof (totalUnique_le coll) as Hle.
  unfold getBarcodeStats, totalReads, totalUnique, indexSum in *.
  rewrite <- !(sum_list_with_mapEntries _ (bcMap coll)) in *.
  destruct (getBarcodeStats_bcs_plain coll (mapEntries (bcMap coll)) emptyStats)
    as (stats & Hs & Hr & Hq & Hsr & Hsq); cbn; try lia.
  - apply Forall_forall. intros [bc sm] Hin sq i Hsq. cbn in Hsq.
    apply elem_of_mapEntries in Hin. apply (Hvalid bc sq i).
    apply findMultiRecordPosition_seqs_Some. eauto.
  - exists stats. cbn in Hr, Hq, Hsr, Hsq. by rewrite Hs, Hr, Hq, Hsr, Hsq.
Qed.

(** ** Folding a record in preserves the state of a batch *)

Lemma findMultiRecordPosition_seqs_ptrs (ptrs ptrs' : list FastqMultiRecord)
    (bm : gmap (list Dna5) (gmap (list Dna5) nat)) (bc sq : list Dna5) :
  findMultiRecordPosition_seqs (mkCollection ptrs bm) bc sq
  = findMultiRecordPosition_seqs (mkCollection ptrs' bm) bc sq.
Proof. done. Qed.

Lemma batchInv_empty : batchInv emptyCollection ∅.
Proof.
  split.
  - intros bc sq i H. unfold findMultiRecordPosition_seqs in H. cbn in H.
    by rewrite lookup_empty in H.
  - intros x bc sq H. by apply not_elem_of_empty in H.
  - intros i m H. cbn in H. by rewrite lookup_nil in H.
  - unfold totalReads. cbn. by rewrite indexSum_empty, size_empty.
Qed.

Lemma batchInv_slotsValid (coll : FastqMultiRecordCollection)
    (folded : gset (string * (list Dna5 * list Dna5))) :
  batchInv coll folded → slotsValid coll.
Proof.
  intros Hinv bc sq i Hi. destruct (inv_slot _ _ Hinv bc sq i Hi) as (m & Hm & _).
  by eapply lookup_lt_Some.
Qed.

Lemma size_insert_new (x : string) (X : gset string) :
  x ∉ X → size ({[ x ]} ∪ X) = S (size X).
Proof.
  intros Hx. rewrite size_union, size_singleton; [done|].
  intros y Hy%elem_of_singleton. by subst.
Qed.

Lemma size_fold_new (k : string * (list Dna5 * list Dna5))
    (folded : gset (string * (list Dna5 * list Dna5))) :
  k ∉ folded → size ({[ k ]} ∪ folded) = S (size folded).
Proof.
  intros Hx. rewrite size_union, size_singleton; [done|].
  intros y Hy%elem_of_singleton. by subst.
Qed.

Lemma updateMultiRecord_Ok (m : FastqMultiRecord) (r : FastqRecord) :
  id r ∉ ids m →
  (length (qualities m) = 0 ∧ size (ids m) = 0)
  ∨ (length (qualities m) = length (seq r) ∧ 0 < size (ids m)) →
  ∃ q, updateMultiRecord m r
         = Ok (mkFastqMultiRecord ({[ id r ]} ∪ ids m) (mBcSeq m) (mSeq m) q)
       ∧ length q = length (seq r)
       ∧ q = zip_with (foldMean (Z.of_nat (size (ids m))))
               (if decide (Z.of_nat (size (ids m)) = 0%Z)
                then replicate (length (seq r)) (F32.of_Z 0) else qualities m) (seq r).
Proof.
  intros Hid Hpre. unfold updateMultiRecord.
  rewrite SEQAN_CHECK_true by (apply bool_decide_eq_true; rewrite size_insert_new; [lia|done]).
  cbn.
  destruct (updateMeanQualityValues_seq_Ok (qualities m) (Z.of_nat (size (ids m))) (seq r))
    as (q & -> & Hlen & Hq); [destruct Hpre as [[? ?]|[? ?]]; [left|right]; split; lia|].
  exists q. done.
Qed.

Lemma pe_updateMultiRecord_Ok (m : PairedEnd.FastqMultiRecord) (r : PairedEnd.FastqRecord) :
  PairedEnd.id r ∉ PairedEnd.ids m →
  (length (PairedEnd.fwQualities m) = 0 ∧ size (PairedEnd.ids m) = 0)
  ∨ (length (PairedEnd.fwQualities m) = length (PairedEnd.fwSeq r)
     ∧ 0 < size (PairedEnd.ids m)) →
  (length (PairedEnd.revQualities m) = 0 ∧ size (PairedEnd.ids m) = 0)
  ∨ (length (PairedEnd.revQualities m) = length (PairedEnd.revSeq r)
     ∧ 0 < size (PairedEnd.ids m)) →
  let w := Z.of_nat (size (PairedEnd.ids m)) in
  ∃ fq rq,
    PairedEnd.updateMultiRecord m r
    = Ok (PairedEnd.mkFastqMultiRecord ({[ PairedEnd.id r ]} ∪ PairedEnd.ids m)
            (PairedEnd.mBcSeq m) (PairedEnd.mFwSeq m) (PairedEnd.mRevSeq m) fq rq)
    ∧ length fq = length (PairedEnd.fwSeq r)
    ∧ length rq = length (PairedEnd.revSeq r)
    ∧ fq = zip_with (foldMean w)
             (if decide (w = 0%Z) then replicate (length (PairedEnd.fwSeq r)) (F32.of_Z 0)
              else PairedEnd.fwQualities m) (PairedEnd.fwSeq r)
    ∧ rq = zip_with (foldMean w)
             (if decide (w = 0%Z) then replicate (length (PairedEnd.revSeq r)) (F32.of_Z 0)
              else PairedEnd.revQualities m) (PairedEnd.revSeq r).
Proof.
  intros Hid Hfw Hrev w. subst w. unfold PairedEnd.updateMultiRecord.
  rewrite SEQAN_CHECK_true by (apply bool_decide_eq_true; rewrite size_insert_new; [lia|done]).
  cbn.
  destruct (updateMeanQualityValues_seq_Ok (PairedEnd.fwQualities m)
              (Z.of_nat (size (PairedEnd.ids m))) (PairedEnd.fwSeq r))
    as (fq & -> & Hlf & Hfq);
    [destruct Hfw as [[? ?]|[? ?]]; [left|right]; split; lia|].
  cbn.
  destruct (updateMeanQualityValues_seq_Ok (PairedEnd.revQualities m)
              (Z.of_nat (size (PairedEnd.ids m))) (PairedEnd.revSeq r))
    as (rq & -> & Hlr & Hrq);
    [destruct Hrev as [[? ?]|[? ?]]; [left|right]; split; lia|].
  cbn. by exists fq, rq.
Qed.

Lemma findContaining_inv (coll : FastqMultiRecordCollection)
    (folded : gset (string * (list Dna5 * list Dna5))) (r : FastqRecord) :
  batchInv coll folded →
  ∃ coll' p, findContainingMultiRecord coll r true = Ok (coll', p)
             ∧ batchInv coll' ({[ readKey r ]} ∪ folded).
Proof.
  intros Hinv. unfold readKey, contentKey.
  set (bc := toDna5 (bcSeq r)). set (sq := toDna5 (seq r)).
  destruct (findMultiRecordPosition coll r) as [i|] eqn:Hpos.
  - (* the content is indexed *)
    pose proof Hpos as Hpos'. unfold findMultiRecordPosition in Hpos'. fold bc sq in Hpos'.
    destruct (inv_slot _ _ Hinv bc sq i Hpos') as (m & Hm & Hmbc & Hmsq & Hlen & Hsz & Hids).
    destruct (decide (id r ∈ ids m)) as [Hin|Hnin].
    + (* and holds the identifier *)
      exists coll, (Some i). split; [by eapply findContaining_known|].
      replace ({[(id r, (bc, sq))]} ∪ folded) with folded; [done|].
      apply Hids in Hin. symmetry. by apply subseteq_union_1_L, singleton_subseteq_l.
    + (* and the identifier is new *)
      rewrite (findContaining_fold _ _ _ _ Hpos Hm Hnin).
      destruct (updateMultiRecord_Ok m r Hnin) as (q & -> & Hq & _).
      { right. split; [|done]. rewrite Hlen. subst sq. unfold toDna5. by rewrite length_fmap. }
      cbn. eexists _, _. split; [done|].
      assert ((id r, (bc, sq)) ∉ folded) as Hfresh by (by rewrite <- Hids).
      assert (∀ bc' sq' j, findMultiRecordPosition_seqs coll bc' sq' = Some j →
                (bc', sq') ≠ (bc, sq) → j ≠ i) as Hinj.
      { intros bc' sq' j Hj Hne ->.
        destruct (inv_slot _ _ Hinv bc' sq' i Hj) as (m' & Hm' & Hb' & Hs' & _).
        rewrite Hm in Hm'. injection Hm' as <-. congruence. }
      split.
      * intros bc' sq' j Hj.
        rewrite <- (findMultiRecordPosition_seqs_ptrs (multiRecordPtrs coll)) in Hj.
        change (findMultiRecordPosition_seqs coll bc' sq' = Some j) in Hj.
        destruct (decide ((bc', sq') = (bc, sq))) as [[= -> ->]|Hne].
        -- assert (j = i) as -> by congruence.
           eexists. cbn. rewrite list_lookup_insert_eq by (by eapply lookup_lt_Some).
           split; [done|]. cbn.
           repeat split; [done|done| |rewrite size_insert_new by done; lia| |].
           ++ rewrite Hq. subst sq. unfold toDna5. by rewrite length_fmap.
           ++ intros [->%elem_of_singleton|Hx]%elem_of_union.
              ** apply elem_of_union_l. by apply elem_of_singleton.
              ** apply elem_of_union_r. by apply Hids.
           ++ intros [[= ->]%elem_of_singleton|Hx]%elem_of_union.
              ** apply elem_of_union_l. by apply elem_of_singleton.
              ** apply elem_of_union_r. by apply Hids.
        -- destruct (inv_slot _ _ Hinv bc' sq' j Hj) as (m' & Hm' & Hb' & Hs' & Hl' & Hz' & Hi').
           exists m'. cbn. rewrite list_lookup_insert_ne by (symmetry; eauto).
           repeat split; try done.
           ++ intros Hx. apply elem_of_union_r. by apply Hi'.
           ++ intros [[= -> -> ->]%elem_of_singleton|Hx]%elem_of_union; [done|]. by apply Hi'.
      * intros x bc' sq' [[= -> -> ->]%elem_of_singleton|Hx]%elem_of_union.
        -- rewrite <- (findMultiRecordPosition_seqs_ptrs (multiRecordPtrs coll)).
           change (is_Some (findMultiRecordPosition_seqs coll bc sq)). by rewrite Hpos'.
        -- rewrite <- (findMultiRecordPosition_seqs_ptrs (multiRecordPtrs coll)).
           by eapply (inv_indexed _ _ Hinv).
      * intros j mj. cbn.
        rewrite <- (findMultiRecordPosition_seqs_ptrs (multiRecordPtrs coll)).
        destruct (decide (j = i)) as [->|Hne].
        -- rewrite list_lookup_insert_eq by (by eapply lookup_lt_Some).
           intros [= <-]. cbn. rewrite Hmbc, Hmsq. exact Hpos'.
        -- rewrite list_lookup_insert_ne by done. apply (inv_store _ _ Hinv).
      * rewrite size_fold_new by done. rewrite <- (inv_total _ _ Hinv).
        unfold totalReads. cbn.
        apply findMultiRecordPosition_seqs_Some in Hpos' as (sm & Hbc & Hsq).
        set (ptrs' := <[i := mkFastqMultiRecord ({[id r]} ∪ ids m) (mBcSeq m) (mSeq m) q]>
                        (multiRecordPtrs coll)).
        assert (slotReads (multiRecordPtrs coll) i = size (ids m)) as Hfi.
        { unfold slotReads. by rewrite Hm. }
        assert (slotReads ptrs' i = S (size (ids m))) as Hgi.
        { unfold slotReads, ptrs'. rewrite list_lookup_insert_eq by (by eapply lookup_lt_Some).
          cbn. by apply size_insert_new. }
        pose proof (indexSum_change (slotReads (multiRecordPtrs coll)) (slotReads ptrs')
                      (bcMap coll) bc sq sm i Hbc Hsq) as Hch.
        rewrite Hfi, Hgi in Hch. enough (indexSum (slotReads ptrs') (bcMap coll) + size (ids m)
          = indexSum (slotReads (multiRecordPtrs coll)) (bcMap coll) + S (size (ids m))) by lia.
        apply Hch. intros bc' sm' sq' j Hb' Hs' Hne.
        unfold slotReads, ptrs'. rewrite list_lookup_insert_ne; [done|].
        symmetry. apply (Hinj bc' sq' j); [|done].
        apply findMultiRecordPosition_seqs_Some. eauto.
  - (* the content is new *)
    destruct (findContaining_new _ _ Hpos) as (m & _ & Hmids & Hmbc & Hmsq & Hlen & ->).
    pose proof Hpos as Hpos'. unfold findMultiRecordPosition in Hpos'. fold bc sq in Hpos'.
    fold bc in Hmbc. fold sq in Hmsq. rewrite Hmbc, Hmsq.
    eexists _, _. split; [done|].
    assert ((id r, (bc, sq)) ∉ folded) as Hfresh.
    { intros Hx. apply (inv_indexed _ _ Hinv) in Hx as [j Hj]. congruence. }
    split.
    + intros bc' sq' j.
      rewrite (findMultiRecordPosition_seqs_register (multiRecordPtrs coll)).
      change (mkCollection (multiRecordPtrs coll) (bcMap coll)) with
        (let c := coll in mkCollection (multiRecordPtrs c) (bcMap c)).
      destruct coll as [ptrs bm]. cbn in *.
      case_decide as Hk.
      * injection Hk as -> ->. intros [= <-]. exists m. rewrite lookup_app_r by done.
        rewrite Nat.sub_diag. cbn. repeat split; try done.
        -- rewrite Hlen. subst sq. unfold toDna5. by rewrite length_fmap.
        -- rewrite Hmids, size_singleton. lia.
        -- rewrite Hmids. intros ->%elem_of_singleton.
           apply elem_of_union_l. by apply elem_of_singleton.
        -- rewrite Hmids. intros [[= ->]%elem_of_singleton|Hx]%elem_of_union.
           ++ by apply elem_of_singleton.
           ++ apply (inv_indexed _ _ Hinv) in Hx as [j Hj]. cbn in Hj. congruence.
      * intros Hj.
        destruct (inv_slot _ _ Hinv bc' sq' j Hj) as (m' & Hm' & Hb' & Hs' & Hl' & Hz' & Hi').
        cbn in Hm'. exists m'. rewrite lookup_app_l by (by eapply lookup_lt_Some).
        repeat split; try done.
        -- intros Hx. apply elem_of_union_r. by apply Hi'.
        -- intros [[= -> -> ->]%elem_of_singleton|Hx]%elem_of_union; [done|]. by apply Hi'.
    + intros x bc' sq' Hx.
      rewrite (findMultiRecordPosition_seqs_register (multiRecordPtrs coll)).
      case_decide; [done|].
      apply elem_of_union in Hx as [[= -> -> ->]%elem_of_singleton|Hx]; [done|].
      destruct coll as [ptrs bm]. by apply (inv_indexed _ _ Hinv x).
    + intros j mj. cbn.
      rewrite (findMultiRecordPosition_seqs_register (multiRecordPtrs coll)).
      intros Hj. apply lookup_app_Some in Hj as [Hj|[Hge Hj]].
      * pose proof (inv_store _ _ Hinv j mj Hj) as Hf.
        case_decide as Hk; [injection Hk as Hk1 Hk2; congruence|].
        by destruct coll.
      * destruct (j - length (multiRecordPtrs coll)) as [|k] eqn:Hk; [|by destruct k].
        injection Hj as <-. rewrite Hmbc, Hmsq, decide_True by done. f_equal. lia.
    + rewrite size_fold_new by done. rewrite <- (inv_total _ _ Hinv).
      unfold totalReads. cbn. rewrite indexSum_register.
      * unfold slotReads at 1. rewrite lookup_app_r, Nat.sub_diag by done. cbn.
        rewrite Hmids, size_singleton. f_equal.
        apply indexSum_ext. intros bc' sm' sq' j Hb' Hs'. unfold slotReads.
        rewrite lookup_app_l; [done|].
        apply (batchInv_slotsValid _ _ Hinv bc' sq').
        apply findMultiRecordPosition_seqs_Some. eauto.
      * unfold findMultiRecordPosition_seqs in Hpos'.
        destruct (bcMap coll !! bc) as [sm|]; cbn; [|done]. by destruct (sm !! sq).
Qed.

(** ** A batch, from the empty collection *)

Lemma size_list_to_set_le (l : list (string * (list Dna5 * list Dna5))) :
  size (list_to_set l : gset (string * (list Dna5 * list Dna5))) ≤ length l.
Proof.
  induction l as [|k l IH]; cbn.
  - by rewrite size_empty.
  - rewrite size_union_alt, size_singleton.
    assert (size (list_to_set l ∖ {[k]} : gset _) ≤ size (list_to_set l : gset _)).
    { apply subseteq_size. apply subseteq_difference_l. done. }
    lia.
Qed.

Section BatchFacts.

Variable anyQualityBelow : list Dna5Q -> Z -> bool.
Variable averageQualityBelow : FastqRecord -> Z -> bool -> bool.

Abbreviation body' := (readRecords_body anyQualityBelow averageQualityBelow).
Abbreviation iter' := (readRecords_iter anyQualityBelow averageQualityBelow).
Abbreviation verdict' := (readRecords_verdict anyQualityBelow averageQualityBelow).
Abbreviation accepted' := (accepted anyQualityBelow averageQualityBelow).
Abbreviation rejected' := (rejected anyQualityBelow averageQualityBelow).

(** The iterations never fault; they fold the accepted records in and
    log the others, in order. *)
Lemma iter_inv (options : CdrOptions) (entries : list RawRecord) (s : LoopState)
    (folded : gset (string * (list Dna5 * list Dna5))) :
  batchInv (collection s) folded →
  ∃ s', iter' options entries s = Ok s'
    ∧ batchInv (collection s')
        (list_to_set (readKey <$> accepted' options (rec s) entries) ∪ folded)
    ∧ rejectEvents s' = rejectEvents s ++ rejected' options (rec s) entries
    ∧ (progBar s = None → progBar s' = None)
    ∧ (is_Some (progBar s) → is_Some (progBar s')).
Proof.
  revert s folded. induction entries as [|raw rest IH]; intros s folded Hinv; cbn.
  - exists s. rewrite (left_id_L ∅ (∪)), app_nil_r. done.
  - destruct (readRecords_read options (rec s) raw) as [tsfb r] eqn:Hread.
    case_decide as Hv.
    + destruct (findContaining_inv _ _ r Hinv) as (c & p & Hf & Hinv').
      destruct (body_accept anyQualityBelow averageQualityBelow options raw s c p)
        as [s1 Hb]; rewrite ?Hread; cbn; [done..|].
      rewrite Hb. cbn.
      apply body_Ok in Hb as (Hrec & _ & HpN & HpS & Hcase).
      rewrite Hread in Hrec, Hcase. cbn in Hrec, Hcase.
      rewrite decide_True in Hcase by done. destruct Hcase as (Hrej & p' & Hf').
      rewrite Hf in Hf'. injection Hf' as Hc _. rewrite Hc in Hinv'.
      destruct (IH s1 _ Hinv') as (s' & Hs' & Hinv'' & Hrej' & HpN' & HpS').
      exists s'. rewrite Hrec in *. split; [done|]. split; [|split; [|split]].
      * cbn.
        rewrite (comm_L (∪) {[readKey r]}), <- (assoc_L (∪)). exact Hinv''.
      * by rewrite Hrej', Hrej.
      * eauto.
      * eauto.
    + destruct (body_reject anyQualityBelow averageQualityBelow options raw s)
        as [s1 Hb]; rewrite ?Hread; cbn; [done|].
      rewrite Hb. cbn.
      apply body_Ok in Hb as (Hrec & _ & HpN & HpS & Hcase).
      rewrite Hread in Hrec, Hcase. cbn in Hrec, Hcase.
      rewrite decide_False in Hcase by done. destruct Hcase as (Hc & Hrej).
      rewrite <- Hc in Hinv.
      destruct (IH s1 _ Hinv) as (s' & Hs' & Hinv'' & Hrej' & HpN' & HpS').
      exists s'. rewrite Hrec in *. split; [done|]. split; [done|].
      split; [|split; eauto].
      by rewrite Hrej', Hrej, <- app_assoc.
Qed.

Lemma accepted_rejected_length (options : CdrOptions) (r : FastqRecord)
    (entries : list RawRecord) :
  length (accepted' options r entries) + length (rejected' options r entries)
  = length entries.
Proof.
  revert r. induction entries as [|raw rest IH]; intros r; cbn; [done|].
  destruct (readRecords_read options r raw) as [tsfb r'].
  case_decide; cbn; rewrite <- (IH r'); lia.
Qed.

(** What one call of [readRecords] computes when a progress bar exists. *)
Lemma readRecords_batch (coll : FastqMultiRecordCollection) (rej : list RejectEvent)
    (inStreams : SeqInputStreams) (options : CdrOptions) (count : Z) :
  (0 ≤ count < 2 ^ 32)%Z →
  (0 < totalInBytes inStreams)%Z →
  let n := consumed count (stream inStreams) in
  let batch := take n (stream inStreams) in
  ∃ coll',
    readRecords anyQualityBelow averageQualityBelow coll rej inStreams options count
    = Ok (coll', rej ++ rejected' options emptyRecord batch, drop n (stream inStreams),
          negb (inStreamsAtEnd (drop n (stream inStreams))))
    ∧ batchInv coll' (list_to_set (readKey <$> accepted' options emptyRecord batch)).
Proof.
  intros Hc Hpos n batch. rewrite readRecords_unroll by done. fold n batch.
  rewrite decide_True by done.
  destruct (iter_inv options batch
              (mkLoopState emptyCollection rej emptyRecord 0 0
                 (Some (mkProgressBar (totalInBytes inStreams) []))) ∅ batchInv_empty)
    as (s' & -> & Hinv & Hrej & _ & HpS).
  cbn in *. destruct HpS as [pb Hpb]; [done|]. rewrite Hpb. cbn.
  rewrite (right_id_L ∅ (∪)) in Hinv. exists (collection s'). by rewrite Hrej.
Qed.

End BatchFacts.

(** ** The state of a paired-end batch *)

Module PairedFacts.
Import PairedEnd.
Import PairedBatch.

Lemma pe_findMultiRecordPosition_seqs_Some (coll : FastqMultiRecordCollection)
    (bc fw rv : list Dna5) (slot : nat) :
  findMultiRecordPosition_seqs coll bc fw rv = Some slot
  ↔ ∃ fm rm, bcMap coll !! bc = Some fm ∧ fm !! fw = Some rm ∧ rm !! rv = Some slot.
Proof.
  unfold findMultiRecordPosition_seqs.
  destruct (bcMap coll !! bc) as [fm|]; [|split; [done|by intros (? & ? & ? & _)]].
  destruct (fm !! fw) as [rm|] eqn:Hfw.
  - destruct (rm !! rv) as [i|] eqn:Hrv; split.
    + intros [= ->]. eauto.
    + intros (? & ? & [= <-] & Hf & Hr). congruence.
    + done.
    + intros (? & ? & [= <-] & Hf & Hr). congruence.
  - split; [done|]. intros (? & ? & [= <-] & Hf & _). congruence.
Qed.

Lemma pe_findContaining_known (coll : FastqMultiRecordCollection) (r : FastqRecord)
    (i : nat) (m : FastqMultiRecord) :
  findMultiRecordPosition coll r = Some i →
  multiRecordPtrs coll !! i = Some m →
  id r ∈ ids m →
  findContainingMultiRecord coll r true = Ok (coll, Some i).
Proof.
  intros Hpos Hm Hid. unfold findContainingMultiRecord. rewrite Hpos.
  rewrite (proj2 (pe_getMultiRecord_Ok _ _ _) Hm). cbn. by rewrite decide_True.
Qed.

Lemma pe_findContaining_fold (coll : FastqMultiRecordCollection) (r : FastqRecord)
    (i : nat) (m : FastqMultiRecord) :
  findMultiRecordPosition coll r = Some i →
  multiRecordPtrs coll !! i = Some m →
  id r ∉ ids m →
  findContainingMultiRecord coll r true
  = (m' ← updateMultiRecord m r;
     Ok (mkCollection (<[i := m']> (multiRecordPtrs coll)) (bcMap coll), Some i)).
Proof.
  intros Hpos Hm Hid. unfold findContainingMultiRecord. rewrite Hpos.
  rewrite (proj2 (pe_getMultiRecord_Ok _ _ _) Hm). cbn. by rewrite decide_False.
Qed.

Lemma pe_findContaining_new (coll : FastqMultiRecordCollection) (r : FastqRecord) :
  findMultiRecordPosition coll r = None →
  ∃ m, ids m = {[ id r ]} ∧ mBcSeq m = toDna5 (bcSeq r)
    ∧ mFwSeq m = toDna5 (fwSeq r) ∧ mRevSeq m = toDna5 (revSeq r)
    ∧ length (fwQualities m) = length (fwSeq r)
    ∧ length (revQualities m) = length (revSeq r)
    ∧ findContainingMultiRecord coll r true
      = Ok (mkCollection (multiRecordPtrs coll ++ [m])
              (<[mBcSeq m :=
                   <[mFwSeq m :=
                       <[mRevSeq m := length (multiRecordPtrs coll)]>
                         (default ∅ (default ∅ (bcMap coll !! mBcSeq m) !! mFwSeq m))]>
                     (default ∅ (bcMap coll !! mBcSeq m))]> (bcMap coll)),
            Some (length (multiRecordPtrs coll))).
Proof.
  intros Hpos. destruct (pe_newMultiRecord_Ok r) as (fq & rq & Hnew & Hlf & Hlr).
  exists (mkFastqMultiRecord {[ id r ]} (toDna5 (bcSeq r)) (toDna5 (fwSeq r))
            (toDna5 (revSeq r)) fq rq).
  cbn. split; [done|]. split; [done|]. split; [done|]. split; [done|].
  split; [done|]. split; [done|].
  unfold findContainingMultiRecord. rewrite Hpos. cbn. rewrite Hnew. cbn.
  rewrite pe_mapMultiRecord_Ok; [done|]. exact Hpos.
Qed.

(** *** Sums over the three-level index *)

Lemma pe_indexSum_empty (f : nat → nat) : indexSum f ∅ = 0.
Proof. unfold indexSum. by rewrite map_to_list_empty. Qed.

Lemma pe_indexSum_delete (f : nat → nat)
    (bm : gmap (list Dna5) (gmap (list Dna5) (gmap (list Dna5) nat)))
    (bc : list Dna5) (fm : gmap (list Dna5) (gmap (list Dna5) nat)) :
  bm !! bc = Some fm →
  indexSum f bm = SingleEnd.indexSum f fm + indexSum f (delete bc bm).
Proof. intros H. unfold indexSum. by rewrite <- (map_to_list_delete _ _ _ H). Qed.

Lemma pe_indexSum_replace (f : nat → nat)
    (bm : gmap (list Dna5) (gmap (list Dna5) (gmap (list Dna5) nat)))
    (bc : list Dna5) (fm : gmap (list Dna5) (gmap (list Dna5) nat)) :
  indexSum f (<[bc := fm]> bm) = SingleEnd.indexSum f fm + indexSum f (delete bc bm).
Proof.
  rewrite <- insert_delete_eq. unfold indexSum.
  by rewrite map_to_list_insert by apply lookup_delete_eq.
Qed.

Lemma pe_indexSum_ext (f g : nat → nat)
    (bm : gmap (list Dna5) (gmap (list Dna5) (gmap (list Dna5) nat))) :
  (∀ bc fm fw rm rv i, bm !! bc = Some fm → fm !! fw = Some rm → rm !! rv = Some i →
                       f i = g i) →
  indexSum f bm = indexSum g bm.
Proof.
  intros H. unfold indexSum.
  assert (Forall (fun e : list Dna5 * gmap (list Dna5) (gmap (list Dna5) nat) =>
                    SingleEnd.indexSum f e.2 = SingleEnd.indexSum g e.2)
            (map_to_list bm)) as HF.
  { apply Forall_forall. intros [bc fm] Hin. apply elem_of_map_to_list in Hin.
    apply indexSum_ext. eauto. }
  induction HF as [|e l He _ IH]; cbn; [done|]. by rewrite He, IH.
Qed.

Lemma pe_indexSum_le (f g : nat → nat)
    (bm : gmap (list Dna5) (gmap (list Dna5) (gmap (list Dna5) nat))) :
  (∀ i, f i ≤ g i) → indexSum f bm ≤ indexSum g bm.
Proof.
  intros H. unfold indexSum.
  induction (map_to_list bm) as [|[bc fm] l IH]; cbn; [done|].
  pose proof (indexSum_le f g fm H). lia.
Qed.

(** Registering a new content key adds the value of its slot. *)
Lemma pe_indexSum_register (f : nat → nat)
    (bm : gmap (list Dna5) (gmap (list Dna5) (gmap (list Dna5) nat)))
    (bc fw rv : list Dna5) (n : nat) :
  default ∅ (default ∅ (bm !! bc) !! fw) !! rv = None →
  indexSum f (<[bc := <[fw := <[rv := n]> (default ∅ (default ∅ (bm !! bc) !! fw))]>
                        (default ∅ (bm !! bc))]> bm)
  = f n + indexSum f bm.
Proof.
  intros Hrv. rewrite pe_indexSum_replace, indexSum_register by done.
  destruct (bm !! bc) as [fm|] eqn:Hbc; cbn.
  - rewrite (pe_indexSum_delete f bm bc fm Hbc). lia.
  - rewrite indexSum_empty, delete_id by done. lia.
Qed.

(** Changing the value of the slot of one content key, and of no other
    entry, changes the sum by the difference. *)
Lemma pe_indexSum_change (f g : nat → nat)
    (bm : gmap (list Dna5) (gmap (list Dna5) (gmap (list Dna5) nat)))
    (bc fw rv : list Dna5) (fm : gmap (list Dna5) (gmap (list Dna5) nat))
    (rm : gmap (list Dna5) nat) (i : nat) :
  bm !! bc = Some fm → fm !! fw = Some rm → rm !! rv = Some i →
  (∀ bc' fm' fw' rm' rv' j,
     bm !! bc' = Some fm' → fm' !! fw' = Some rm' → rm' !! rv' = Some j →
     (bc', fw', rv') ≠ (bc, fw, rv) → f j = g j) →
  indexSum g bm + f i = indexSum f bm + g i.
Proof.
  intros Hbc Hfw Hrv Hother.
  rewrite (pe_indexSum_delete f bm bc fm Hbc), (pe_indexSum_delete g bm bc fm Hbc).
  pose proof (indexSum_change f g fm fw rv rm i Hfw Hrv) as Hin.
  rewrite (pe_indexSum_ext f g (delete bc bm)).
  - enough (SingleEnd.indexSum g fm + f i = SingleEnd.indexSum f fm + g i) by lia.
    apply Hin. intros fw' rm' rv' j Hfw' Hrv' Hne.
    apply (Hother bc fm fw' rm' rv' j Hbc Hfw' Hrv'). congruence.
  - intros bc' fm' fw' rm' rv' j Hbc' Hfw' Hrv'.
    apply lookup_delete_Some in Hbc' as [Hne Hbc'].
    apply (Hother bc' fm' fw' rm' rv' j Hbc' Hfw' Hrv'). congruence.
Qed.

Lemma pe_slotUnique_le (ptrs : list FastqMultiRecord) (i : nat) :
  slotUnique ptrs i ≤ slotReads ptrs i.
Proof. unfold slotUnique. case_decide; lia. Qed.

Lemma pe_totalUnique_le (coll : FastqMultiRecordCollection) :
  totalUnique coll ≤ totalReads coll.
Proof. apply pe_indexSum_le, pe_slotUnique_le. Qed.

(** *** Folding a pair in preserves the state of a batch *)

Lemma pe_batchInv_empty : batchInv emptyCollection ∅.
Proof.
  split.
  - intros bc fw rv i H. unfold findMultiRecordPosition_seqs in H. cbn in H.
    by rewrite lookup_empty in H.
  - intros x bc fw rv H. by apply not_elem_of_empty in H.
  - intros i m H. cbn in H. by rewrite lookup_nil in H.
  - unfold totalReads. cbn. by rewrite pe_indexSum_empty, size_empty.
Qed.

Lemma pe_batchInv_slotsValid (coll : FastqMultiRecordCollection)
    (folded : gset (string * (list Dna5 * list Dna5 * list Dna5))) :
  batchInv coll folded → slotsValid coll.
Proof.
  intros Hinv bc fw rv i Hi.
  destruct (inv_slot _ _ Hinv bc fw rv i Hi) as (m & Hm & _).
  by eapply lookup_lt_Some.
Qed.

Lemma pe_size_fold_new (k : string * (list Dna5 * list Dna5 * list Dna5))
    (folded : gset (string * (list Dna5 * list Dna5 * list Dna5))) :
  k ∉ folded → size ({[ k ]} ∪ folded) = S (size folded).
Proof.
  intros Hx. rewrite size_union, size_singleton; [done|].
  intros y Hy%elem_of_singleton. by subst.
Qed.

Lemma pe_findMultiRecordPosition_seqs_ptrs (ptrs ptrs' : list FastqMultiRecord)
    (bm : gmap (list Dna5) (gmap (list Dna5) (gmap (list Dna5) nat)))
    (bc fw rv : list Dna5) :
  findMultiRecordPosition_seqs (mkCollection ptrs bm) bc fw rv
  = findMultiRecordPosition_seqs (mkCollection ptrs' bm) bc fw rv.
Proof. done. Qed.

Lemma pe_findContaining_inv (coll : FastqMultiRecordCollection)
    (folded : gset (string * (list Dna5 * list Dna5 * list Dna5))) (r : FastqRecord) :
  batchInv coll folded →
  ∃ coll' p, findContainingMultiRecord coll r true = Ok (coll', p)
             ∧ batchInv coll' ({[ readKey r ]} ∪ folded).
Proof.
  intros Hinv. unfold readKey, contentKey.
  set (bc := toDna5 (bcSeq r)). set (fw := toDna5 (fwSeq r)). set (rv := toDna5 (revSeq r)).
  assert (length fw = length (fwSeq r) ∧ length rv = length (revSeq r)) as [Hlfw Hlrv].
  { subst fw rv. unfold toDna5. by rewrite !length_fmap. }
  destruct (findMultiRecordPosition coll r) as [i|] eqn:Hpos.
  - (* the content is indexed *)
    pose proof Hpos as Hpos'. unfold findMultiRecordPosition in Hpos'. fold bc fw rv in Hpos'.
    destruct (inv_slot _ _ Hinv bc fw rv i Hpos')
      as (m & Hm & Hmbc & Hmfw & Hmrv & Hlf & Hlr & Hsz & Hids).
    destruct (decide (id r ∈ ids m)) as [Hin|Hnin].
    + (* and holds the identifier *)
      exists coll, (Some i). split; [by eapply pe_findContaining_known|].
      replace ({[(id r, (bc, fw, rv))]} ∪ folded) with folded; [done|].
      apply Hids in Hin. symmetry. by apply subseteq_union_1_L, singleton_subseteq_l.
    + (* and the identifier is new *)
      rewrite (pe_findContaining_fold _ _ _ _ Hpos Hm Hnin).
      destruct (pe_updateMultiRecord_Ok m r Hnin) as (fq & rq & -> & Hfq & Hrq & _).
      { right. split; [lia|done]. }
      { right. split; [lia|done]. }
      cbn. eexists _, _. split; [done|].
      assert ((id r, (bc, fw, rv)) ∉ folded) as Hfresh by (by rewrite <- Hids).
      assert (∀ bc' fw' rv' j, findMultiRecordPosition_seqs coll bc' fw' rv' = Some j →
                (bc', fw', rv') ≠ (bc, fw, rv) → j ≠ i) as Hinj.
      { intros bc' fw' rv' j Hj Hne ->.
        destruct (inv_slot _ _ Hinv bc' fw' rv' i Hj) as (m' & Hm' & Hb' & Hf' & Hr' & _).
        rewrite Hm in Hm'. injection Hm' as <-. congruence. }
      split.
      * intros bc' fw' rv' j Hj.
        rewrite <- (pe_findMultiRecordPosition_seqs_ptrs (multiRecordPtrs coll)) in Hj.
        change (findMultiRecordPosition_seqs coll bc' fw' rv' = Some j) in Hj.
        destruct (decide ((bc', fw', rv') = (bc, fw, rv))) as [[= -> -> ->]|Hne].
        -- assert (j = i) as -> by congruence.
           eexists. cbn. rewrite list_lookup_insert_eq by (by eapply lookup_lt_Some).
           split; [done|]. cbn.
           split; [done|]. split; [done|]. split; [done|].
           split; [lia|]. split; [lia|].
           split; [rewrite size_insert_new by done; lia|].
           intros x. split.
           ++ intros [->%elem_of_singleton|Hx]%elem_of_union.
              ** apply elem_of_union_l. by apply elem_of_singleton.
              ** apply elem_of_union_r. by apply Hids.
           ++ intros [[= ->]%elem_of_singleton|Hx]%elem_of_union.
              ** apply elem_of_union_l. by apply elem_of_singleton.
              ** apply elem_of_union_r. by apply Hids.
        -- destruct (inv_slot _ _ Hinv bc' fw' rv' j Hj)
             as (m' & Hm' & Hb' & Hf' & Hr' & Hlf' & Hlr' & Hz' & Hi').
           exists m'. cbn. rewrite list_lookup_insert_ne by (symmetry; eauto).
           split; [done|]. split; [done|]. split; [done|]. split; [done|].
           split; [done|]. split; [done|]. split; [done|].
           intros x. split.
           ++ intros Hx. apply elem_of_union_r. by apply Hi'.
           ++ intros [[= -> -> -> ->]%elem_of_singleton|Hx]%elem_of_union; [done|].
              by apply Hi'.
      * intros x bc' fw' rv' [[= -> -> -> ->]%elem_of_singleton|Hx]%elem_of_union.
        -- rewrite <- (pe_findMultiRecordPosition_seqs_ptrs (multiRecordPtrs coll)).
           change (is_Some (findMultiRecordPosition_seqs coll bc fw rv)). by rewrite Hpos'.
        -- rewrite <- (pe_findMultiRecordPosition_seqs_ptrs (multiRecordPtrs coll)).
           by eapply (inv_indexed _ _ Hinv).
      * intros j mj. cbn.
        rewrite <- (pe_findMultiRecordPosition_seqs_ptrs (multiRecordPtrs coll)).
        destruct (decide (j = i)) as [->|Hne].
        -- rewrite list_lookup_insert_eq by (by eapply lookup_lt_Some).
           intros [= <-]. cbn. rewrite Hmbc, Hmfw, Hmrv. exact Hpos'.
        -- rewrite list_lookup_insert_ne by done. apply (inv_store _ _ Hinv).
      * rewrite pe_size_fold_new by done. rewrite <- (inv_total _ _ Hinv).
        unfold totalReads. cbn.
        apply pe_findMultiRecordPosition_seqs_Some in Hpos' as (fm & rm & Hbc & Hfw & Hrv).
        set (ptrs' := <[i := mkFastqMultiRecord ({[id r]} ∪ ids m) (mBcSeq m) (mFwSeq m)
                                (mRevSeq m) fq rq]> (multiRecordPtrs coll)).
        assert (slotReads (multiRecordPtrs coll) i = size (ids m)) as Hfi.
        { unfold slotReads. by rewrite Hm. }
        assert (slotReads ptrs' i = S (size (ids m))) as Hgi.
        { unfold slotReads, ptrs'. rewrite list_lookup_insert_eq by (by eapply lookup_lt_Some).
          cbn. by apply size_insert_new. }
        pose proof (pe_indexSum_change (slotReads (multiRecordPtrs coll)) (slotReads ptrs')
                      (bcMap coll) bc fw rv fm rm i Hbc Hfw Hrv) as Hch.
        rewrite Hfi, Hgi in Hch.
        enough (indexSum (slotReads ptrs') (bcMap coll) + size (ids m)
                = indexSum (slotReads (multiRecordPtrs coll)) (bcMap coll) + S (size (ids m)))
          by lia.
        apply Hch. intros bc' fm' fw' rm' rv' j Hb' Hf' Hr' Hne.
        unfold slotReads, ptrs'. rewrite list_lookup_insert_ne; [done|].
        symmetry. apply (Hinj bc' fw' rv' j); [|done].
        apply pe_findMultiRecordPosition_seqs_Some. eauto.
  - (* the content is new *)
    destruct (pe_findContaining_new _ _ Hpos)
      as (m & Hmids & Hmbc & Hmfw & Hmrv & Hlf & Hlr & ->).
    pose proof Hpos as Hpos'. unfold findMultiRecordPosition in Hpos'. fold bc fw rv in Hpos'.
    fold bc in Hmbc. fold fw in Hmfw. fold rv in Hmrv. rewrite Hmbc, Hmfw, Hmrv.
    eexists _, _. split; [done|].
    assert ((id r, (bc, fw, rv)) ∉ folded) as Hfresh.
    { intros Hx. apply (inv_indexed _ _ Hinv) in Hx as [j Hj]. congruence. }
    split.
    + intros bc' fw' rv' j.
      rewrite (pe_findMultiRecordPosition_seqs_register (multiRecordPtrs coll)).
      change (mkCollection (multiRecordPtrs coll) (bcMap coll)) with
        (let c := coll in mkCollection (multiRecordPtrs c) (bcMap c)).
      destruct coll as [ptrs bm]. cbn in *.
      case_decide as Hk.
      * injection Hk as -> -> ->. intros [= <-]. exists m. rewrite lookup_app_r by done.
        rewrite Nat.sub_diag. cbn.
        split; [done|]. split; [done|]. split; [done|]. split; [done|].
        split; [lia|]. split; [lia|]. split; [rewrite Hmids, size_singleton; lia|].
        intros x. rewrite Hmids. split.
        -- intros ->%elem_of_singleton. apply elem_of_union_l. by apply elem_of_singleton.
        -- intros [[= ->]%elem_of_singleton|Hx]%elem_of_union.
           ++ by apply elem_of_singleton.
           ++ apply (inv_indexed _ _ Hinv) in Hx as [j Hj]. cbn in Hj. congruence.
      * intros Hj.
        destruct (inv_slot _ _ Hinv bc' fw' rv' j Hj)
          as (m' & Hm' & Hb' & Hf' & Hr' & Hlf' & Hlr' & Hz' & Hi').
        cbn in Hm'. exists m'. rewrite lookup_app_l by (by eapply lookup_lt_Some).
        split; [done|]. split; [done|]. split; [done|]. split; [done|].
        split; [done|]. split; [done|]. split; [done|].
        intros x. split.
        -- intros Hx. apply elem_of_union_r. by apply Hi'.
        -- intros [[= -> -> -> ->]%elem_of_singleton|Hx]%elem_of_union; [done|].
           by apply Hi'.
    + intros x bc' fw' rv' Hx.
      rewrite (pe_findMultiRecordPosition_seqs_register (multiRecordPtrs coll)).
      case_decide; [done|].
      apply elem_of_union in Hx as [[= -> -> -> ->]%elem_of_singleton|Hx]; [done|].
      destruct coll as [ptrs bm]. by apply (inv_indexed _ _ Hinv x).
    + intros j mj. cbn.
      rewrite (pe_findMultiRecordPosition_seqs_register (multiRecordPtrs coll)).
      intros Hj. apply lookup_app_Some in Hj as [Hj|[Hge Hj]].
      * pose proof (inv_store _ _ Hinv j mj Hj) as Hf.
        case_decide as Hk; [injection Hk as Hk1 Hk2 Hk3; congruence|].
        by destruct coll.
      * destruct (j - length (multiRecordPtrs coll)) as [|k] eqn:Hk; [|by destruct k].
        injection Hj as <-. rewrite Hmbc, Hmfw, Hmrv, decide_True by done. f_equal. lia.
    + rewrite pe_size_fold_new by done. rewrite <- (inv_total _ _ Hinv).
      unfold totalReads. cbn. rewrite pe_indexSum_register.
      * unfold slotReads at 1. rewrite lookup_app_r, Nat.sub_diag by done. cbn.
        rewrite Hmids, size_singleton. f_equal.
        apply pe_indexSum_ext. intros bc' fm' fw' rm' rv' j Hb' Hf' Hr'. unfold slotReads.
        rewrite lookup_app_l; [done|].
        apply (pe_batchInv_slotsValid _ _ Hinv bc' fw' rv').
        apply pe_findMultiRecordPosition_seqs_Some. eauto.
      * unfold findMultiRecordPosition_seqs in Hpos'.
        destruct (bcMap coll !! bc) as [fm|]; cbn; [|done].
        destruct (fm !! fw) as [rm|]; cbn; [|done]. by destruct (rm !! rv).
Qed.


(** *** The loop *)

Section PairedIngestionFacts.

Variable anyQualityBelow : list Dna5Q -> Z -> bool.
Variable averageQualityBelow : FastqRecord -> Z -> bool -> bool * FastqRecord.

Abbreviation pbody := (readRecords_body anyQualityBelow averageQualityBelow).
Abbreviation piter := (readRecords_iter anyQualityBelow averageQualityBelow).
Abbreviation ploop := (readRecords_loop anyQualityBelow averageQualityBelow).
Abbreviation pverdict := (readRecords_verdict anyQualityBelow averageQualityBelow).
Abbreviation paccepted := (accepted anyQualityBelow averageQualityBelow).
Abbreviation prejected := (rejected anyQualityBelow averageQualityBelow).

(** What one iteration does to the variables of the loop. *)
Lemma pe_body_Ok (options : CdrOptions) (raw : RawPair) (s s' : LoopState) :
  pbody options raw s = Ok s' →
  let tr := readRecords_read options (rec s) raw in
  let v := pverdict options tr.1 tr.2 in
  rec s' = v.2
  ∧ complCount s' = wrap64 (complCount s + 1)
  ∧ (progBar s = None → progBar s' = None)
  ∧ (is_Some (progBar s) → is_Some (progBar s'))
  ∧ if decide (v.1 = NONE)
    then rejectEvents s' = rejectEvents s
         ∧ ∃ p, findContainingMultiRecord (collection s) v.2 true = Ok (collection s', p)
    else collection s' = collection s
         ∧ rejectEvents s' = rejectEvents s ++ [mkRejectEvent (id v.2) v.1].
Proof.
  unfold readRecords_body, readRecords_verdict.
  destruct (readRecords_read options (rec s) raw) as [tsfb r]. cbn [fst snd].
  set (pb := match progBar s with Some _ => _ | None => _ end).
  assert ((progBar s = None → pb.1 = None) ∧ (is_Some (progBar s) → is_Some pb.1))
    as [HpbN HpbS].
  { subst pb. destruct (progBar s); [|by split; [|intros [? ?]]].
    case_decide; cbn; split; eauto; done. }
  destruct pb as [pb bb]. cbn [fst] in *.
  destruct (if tsfb then _ else _) as [v r']. cbn [fst snd].
  case_decide as Hv.
  - intros H. step_ok H. destruct x as [c p]. injection H as <-. cbn. eauto 10.
  - intros [= <-]. cbn. eauto 10.
Qed.

Lemma pe_body_reject (options : CdrOptions) (raw : RawPair) (s : LoopState) :
  let tr := readRecords_read options (rec s) raw in
  (pverdict options tr.1 tr.2).1 ≠ NONE →
  ∃ s', pbody options raw s = Ok s'.
Proof.
  cbn. unfold readRecords_body, readRecords_verdict.
  destruct (readRecords_read options (rec s) raw) as [tsfb r]. cbn [fst snd].
  destruct (match progBar s with Some _ => _ | None => _ end) as [pb bb].
  destruct (if tsfb then _ else _) as [v r']. cbn [fst snd].
  intros Hv. rewrite decide_False by done. eauto.
Qed.

Lemma pe_body_accept (options : CdrOptions) (raw : RawPair) (s : LoopState)
    (c : FastqMultiRecordCollection) (p : option nat) :
  let tr := readRecords_read options (rec s) raw in
  let v := pverdict options tr.1 tr.2 in
  v.1 = NONE →
  findContainingMultiRecord (collection s) v.2 true = Ok (c, p) →
  ∃ s', pbody options raw s = Ok s'.
Proof.
  cbn. unfold readRecords_body, readRecords_verdict.
  destruct (readRecords_read options (rec s) raw) as [tsfb r]. cbn [fst snd].
  destruct (match progBar s with Some _ => _ | None => _ end) as [pb bb].
  destruct (if tsfb then _ else _) as [v r']. cbn [fst snd].
  intros Hv Hf. rewrite decide_True by done. rewrite Hf. cbn. eauto.
Qed.

Lemma pe_loop_unbounded (options : CdrOptions) (count : Z) (entries : list RawPair)
    (s : LoopState) :
  (count ≤ 0)%Z →
  ploop options count entries s
  = (s' ← piter options entries s;
     _ ← progBar_clear (progBar s');
     Ok (collection s', rejectEvents s', [], false)).
Proof.
  intros Hc. revert s. induction entries as [|raw rest IH]; intros s; cbn.
  - done.
  - rewrite bool_decide_eq_false_2 by lia. cbn.
    destruct (pbody options raw s) as [s1|f]; cbn; [apply IH | done].
Qed.

Lemma pe_loop_bounded (options : CdrOptions) (count : Z) (entries : list RawPair)
    (s : LoopState) :
  (0 < count < 2 ^ 64)%Z →
  (0 ≤ complCount s ≤ count)%Z →
  let n := Z.to_nat (count - complCount s) `min` length entries in
  ploop options count entries s
  = (s' ← piter options (take n entries) s;
     _ ← progBar_clear (progBar s');
     Ok (collection s', rejectEvents s', drop n entries,
         negb (inStreamsAtEnd (drop n entries)))).
Proof.
  intros Hc. revert s. induction entries as [|raw rest IH]; intros s Hs; cbn.
  - by rewrite Nat.min_0_r.
  - rewrite (bool_decide_eq_true_2 (0 < count)%Z) by lia. cbn.
    case_bool_decide as Heq.
    + replace (Z.to_nat (count - complCount s)) with 0 by lia. done.
    + destruct (Z.to_nat (count - complCount s)) as [|k] eqn:Hk; [lia|]. cbn.
      destruct (pbody options raw s) as [s1|f] eqn:Hb; cbn; [|done].
      apply pe_body_Ok in Hb as (_ & Hcc & _).
      assert (complCount s1 = complCount s + 1)%Z as Hcc'.
      { rewrite Hcc. unfold wrap64. apply Z.mod_small. lia. }
      rewrite IH by lia. by replace (Z.to_nat (count - complCount s1)) with k by lia.
Qed.

Lemma pe_readRecords_unroll (coll : FastqMultiRecordCollection) (rej : list RejectEvent)
    (inStreams : SeqInputStreams) (options : CdrOptions) (count : Z) :
  (0 ≤ count < 2 ^ 32)%Z →
  let n := consumed count (stream inStreams) in
  let pb := if decide (0 < totalInBytes inStreams)%Z
            then Some (mkProgressBar (totalInBytes inStreams) []) else None in
  readRecords anyQualityBelow averageQualityBelow coll rej inStreams options count
  = (s' ← piter options (take n (stream inStreams))
            (mkLoopState emptyCollection rej emptyRecord 0 0 pb);
     _ ← progBar_clear (progBar s');
     Ok (collection s', rejectEvents s', drop n (stream inStreams),
         negb (inStreamsAtEnd (drop n (stream inStreams))))).
Proof.
  intros Hc. unfold readRecords, consumed. cbn zeta.
  assert (2 ^ 32 < 2 ^ 64)%Z by done.
  destruct (decide (0 < count)%Z) as [Hpos|Hpos].
  - rewrite pe_loop_bounded; cbn [complCount]; [|lia..].
    by rewrite Z.sub_0_r.
  - rewrite pe_loop_unbounded by lia.
    by rewrite firstn_all, drop_all.
Qed.

(** The iterations never fault; they fold the accepted pairs in and log
    the others, in order. *)
Lemma pe_iter_inv (options : CdrOptions) (entries : list RawPair) (s : LoopState)
    (folded : gset (string * (list Dna5 * list Dna5 * list Dna5))) :
  batchInv (collection s) folded →
  ∃ s', piter options entries s = Ok s'
    ∧ batchInv (collection s')
        (list_to_set (readKey <$> paccepted options (rec s) entries) ∪ folded)
    ∧ rejectEvents s' = rejectEvents s ++ prejected options (rec s) entries
    ∧ (progBar s = None → progBar s' = None)
    ∧ (is_Some (progBar s) → is_Some (progBar s')).
Proof.
  revert s folded. induction entries as [|raw rest IH]; intros s folded Hinv; cbn.
  - exists s. rewrite (left_id_L ∅ (∪)), app_nil_r. done.
  - destruct (readRecords_read options (rec s) raw) as [tsfb r0] eqn:Hread.
    destruct (pverdict options tsfb r0) as [v r] eqn:Hverdict.
    case_decide as Hv.
    + destruct (pe_findContaining_inv _ _ r Hinv) as (c & p & Hf & Hinv').
      destruct (pe_body_accept options raw s c p)
        as [s1 Hb]; rewrite ?Hread; cbn [fst snd]; rewrite ?Hverdict; cbn; [done..|].
      rewrite Hb. cbn.
      apply pe_body_Ok in Hb as (Hrec & _ & HpN & HpS & Hcase).
      rewrite Hread in Hrec, Hcase. cbn [fst snd] in Hrec, Hcase.
      rewrite Hverdict in Hrec, Hcase. cbn in Hrec, Hcase.
      rewrite decide_True in Hcase by done. destruct Hcase as (Hrej & p' & Hf').
      rewrite Hf in Hf'. injection Hf' as Hc _. rewrite Hc in Hinv'.
      destruct (IH s1 _ Hinv') as (s' & Hs' & Hinv'' & Hrej' & HpN' & HpS').
      exists s'. rewrite Hrec in *. split; [done|]. split; [|split; [|split]].
      * cbn.
        rewrite (comm_L (∪) {[readKey r]}), <- (assoc_L (∪)). exact Hinv''.
      * by rewrite Hrej', Hrej.
      * eauto.
      * eauto.
    + destruct (pe_body_reject options raw s)
        as [s1 Hb]; rewrite ?Hread; cbn [fst snd]; rewrite ?Hverdict; cbn; [done|].
      rewrite Hb. cbn.
      apply pe_body_Ok in Hb as (Hrec & _ & HpN & HpS & Hcase).
      rewrite Hread in Hrec, Hcase. cbn [fst snd] in Hrec, Hcase.
      rewrite Hverdict in Hrec, Hcase. cbn in Hrec, Hcase.
      rewrite decide_False in Hcase by done. destruct Hcase as (Hc & Hrej).
      rewrite <- Hc in Hinv.
      destruct (IH s1 _ Hinv) as (s' & Hs' & Hinv'' & Hrej' & HpN' & HpS').
      exists s'. rewrite Hrec in *. split; [done|]. split; [done|].
      split; [|split; eauto].
      by rewrite Hrej', Hrej, <- app_assoc.
Qed.

Lemma pe_accepted_rejected_length (options : CdrOptions) (r : FastqRecord)
    (entries : list RawPair) :
  length (paccepted options r entries) + length (prejected options r entries)
  = length entries.
Proof.
  revert r. induction entries as [|raw rest IH]; intros r; cbn; [done|].
  destruct (readRecords_read options r raw) as [tsfb r0].
  destruct (pverdict options tsfb r0) as [v r'].
  case_decide; cbn; rewrite <- (IH r'); lia.
Qed.

(** What one call of [readRecords] computes when a progress bar exists. *)
Lemma pe_readRecords_batch (coll : FastqMultiRecordCollection) (rej : list RejectEvent)
    (inStreams : SeqInputStreams) (options : CdrOptions) (count : Z) :
  (0 ≤ count < 2 ^ 32)%Z →
  (0 < totalInBytes inStreams)%Z →
  let n := consumed count (stream inStreams) in
  let batch := take n (stream inStreams) in
  ∃ coll',
    readRecords anyQualityBelow averageQualityBelow coll rej inStreams options count
    = Ok (coll', rej ++ prejected options emptyRecord batch, drop n (stream inStreams),
          negb (inStreamsAtEnd (drop n (stream inStreams))))
    ∧ batchInv coll' (list_to_set (readKey <$> paccepted options emptyRecord batch)).
Proof.
  intros Hc Hpos n batch. rewrite pe_readRecords_unroll by done. fold n batch.
  rewrite decide_True by done.
  destruct (pe_iter_inv options batch
              (mkLoopState emptyCollection rej emptyRecord 0 0
                 (Some (mkProgressBar (totalInBytes inStreams) []))) ∅ pe_batchInv_empty)
    as (s' & -> & Hinv & Hrej & _ & HpS).
  cbn in *. destruct HpS as [pb Hpb]; [done|]. rewrite Hpb. cbn.
  rewrite (right_id_L ∅ (∪)) in Hinv. exists (collection s'). by rewrite Hrej.
Qed.

(** A call that returns had a progress bar. *)
Lemma pe_readRecords_Ok_batch (coll coll' : FastqMultiRecordCollection)
    (rej rej' : list RejectEvent) (inStreams : SeqInputStreams) (options : CdrOptions)
    (count : Z) (rest : list RawPair) (more : bool) :
  (0 ≤ count < 2 ^ 32)%Z →
  readRecords anyQualityBelow averageQualityBelow coll rej inStreams options count
    = Ok (coll', rej', rest, more) →
  let batch := take (consumed count (stream inStreams)) (stream inStreams) in
  (0 < totalInBytes inStreams)%Z
  ∧ rej' = rej ++ prejected options emptyRecord batch
  ∧ batchInv coll' (list_to_set (readKey <$> paccepted options emptyRecord batch)).
Proof.
  intros Hc Hrun batch.
  destruct (decide (0 < totalInBytes inStreams)%Z) as [Hbytes|Hbytes].
  - split; [done|].
    destruct (pe_readRecords_batch coll rej inStreams options count Hc Hbytes)
      as (c & Hc' & Hinv).
    rewrite Hrun in Hc'. by injection Hc' as -> -> _ _.
  - rewrite pe_readRecords_unroll in Hrun by done. rewrite decide_False in Hrun by done.
    step_ok Hrun.
    destruct (pe_iter_inv options
                (take (consumed count (stream inStreams)) (stream inStreams))
                (mkLoopState emptyCollection rej emptyRecord 0 0 None) ∅ pe_batchInv_empty)
      as (s' & Hs' & _ & _ & HpN & _).
    rewrite Hs' in Hx. injection Hx as <-. rewrite HpN in Hrun by done. done.
Qed.

End PairedIngestionFacts.

(** *** The statistics compute the sums over the index *)

Lemma pe_getBarcodeStats_revs_plain (coll : FastqMultiRecordCollection)
    (entries : list (list Dna5 * nat)) (cnt u : Z) :
  Forall (fun e => e.2 < length (multiRecordPtrs coll)) entries →
  (0 ≤ cnt)%Z → (0 ≤ u)%Z →
  let reads := sum_list_with (fun e => slotReads (multiRecordPtrs coll) e.2) entries in
  let uniq := sum_list_with (fun e => slotUnique (multiRecordPtrs coll) e.2) entries in
  (cnt + Z.of_nat reads < 2 ^ 64)%Z → (u + Z.of_nat uniq < 2 ^ 64)%Z →
  getBarcodeStats_revs coll entries cnt u
  = Ok ((cnt + Z.of_nat reads)%Z, (u + Z.of_nat uniq)%Z).
Proof.
  intros Hvalid. revert cnt u.
  induction Hvalid as [|[sq i] entries Hi _ IH]; intros cnt u Hcnt Hu; cbn.
  - intros _ _. by rewrite !Z.add_0_r.
  - intros Hr Hq. cbn in Hi.
    destruct (lookup_lt_is_Some_2 _ _ Hi) as [m Hm].
    rewrite (proj2 (pe_getMultiRecord_Ok _ _ _) Hm). cbn.
    unfold slotReads, slotUnique, slotReads in *. rewrite Hm in *. cbn in *.
    rewrite (wrap64_small (cnt + _)) by lia.
    destruct (decide (0 < Z.of_nat (size (ids m)))%Z) as [Hpos|Hpos].
    + rewrite decide_True in Hq |- * by lia.
      rewrite wrap64_small by lia. rewrite IH by lia. f_equal. f_equal; lia.
    + rewrite decide_False in Hq |- * by lia.
      rewrite IH by lia. f_equal. f_equal; lia.
Qed.

Lemma pe_getBarcodeStats_fws_plain (coll : FastqMultiRecordCollection)
    (entries : list (list Dna5 * gmap (list Dna5) nat)) (cnt u : Z) :
  Forall (fun e => ∀ rv i, e.2 !! rv = Some i → i < length (multiRecordPtrs coll)) entries →
  (0 ≤ cnt)%Z → (0 ≤ u)%Z →
  let reads :=
    sum_list_with (fun e : list Dna5 * gmap (list Dna5) nat =>
      seqSum (slotReads (multiRecordPtrs coll)) e.2) entries in
  let uniq :=
    sum_list_with (fun e : list Dna5 * gmap (list Dna5) nat =>
      seqSum (slotUnique (multiRecordPtrs coll)) e.2) entries in
  (cnt + Z.of_nat reads < 2 ^ 64)%Z → (u + Z.of_nat uniq < 2 ^ 64)%Z →
  getBarcodeStats_fws coll entries cnt u
  = Ok ((cnt + Z.of_nat reads)%Z, (u + Z.of_nat uniq)%Z).
Proof.
  intros Hvalid. revert cnt u.
  induction Hvalid as [|[fw rm] entries Hrm _ IH]; intros cnt u Hcnt Hu; cbn.
  - intros _ _. by rewrite !Z.add_0_r.
  - intros Hr Hq. cbn in Hrm.
    rewrite pe_getBarcodeStats_revs_plain; rewrite ?sum_list_with_mapEntries; [| |lia..].
    2:{ apply Forall_forall. intros [rv i] Hin. apply elem_of_mapEntries in Hin. eauto. }
    cbn. rewrite IH by lia. f_equal. f_equal; lia.
Qed.

Lemma pe_getBarcodeStats_bcs_plain (coll : FastqMultiRecordCollection)
    (entries : list (list Dna5 * gmap (list Dna5) (gmap (list Dna5) nat)))
    (stats : BarcodeStats) :
  Forall (fun e => ∀ fw rm rv i, e.2 !! fw = Some rm → rm !! rv = Some i →
                                 i < length (multiRecordPtrs coll)) entries →
  (0 ≤ nTotalReads stats)%Z → (0 ≤ nTotalUniqueReads stats)%Z →
  let reads :=
    sum_list_with (fun e : list Dna5 * gmap (list Dna5) (gmap (list Dna5) nat) =>
      SingleEnd.indexSum (slotReads (multiRecordPtrs coll)) e.2) entries in
  let uniq :=
    sum_list_with (fun e : list Dna5 * gmap (list Dna5) (gmap (list Dna5) nat) =>
      SingleEnd.indexSum (slotUnique (multiRecordPtrs coll)) e.2) entries in
  (nTotalReads stats + Z.of_nat reads < 2 ^ 64)%Z →
  (nTotalUniqueReads stats + Z.of_nat uniq < 2 ^ 64)%Z →
  ∃ stats', getBarcodeStats_bcs coll entries stats = Ok stats'
    ∧ nTotalReads stats' = (nTotalReads stats + Z.of_nat reads)%Z
    ∧ nTotalUniqueReads stats' = (nTotalUniqueReads stats + Z.of_nat uniq)%Z
    ∧ sumZ (nReads stats') = (sumZ (nReads stats) + Z.of_nat reads)%Z
    ∧ sumZ (nUniqueReads stats') = (sumZ (nUniqueReads stats) + Z.of_nat uniq)%Z.
Proof.
  intros Hvalid. revert stats.
  induction Hvalid as [|[bc fm] entries Hfm _ IH]; intros stats Ht Hu; cbn.
  - intros _ _. exists stats. by rewrite !Z.add_0_r.
  - intros Hr Hq. cbn in Hfm.
    pose proof (indexSum_le _ _ fm (pe_slotUnique_le (multiRecordPtrs coll))) as Hle.
    rewrite pe_getBarcodeStats_fws_plain; rewrite ?sum_list_with_mapEntries;
      fold (SingleEnd.indexSum (slotReads (multiRecordPtrs coll)) fm)
           (SingleEnd.indexSum (slotUnique (multiRecordPtrs coll)) fm); [| |lia..].
    2:{ apply Forall_forall. intros [fw rm] Hin rv i Hrv. apply elem_of_mapEntries in Hin.
        eauto. }
    cbn. rewrite !Z.add_0_l. case_decide as Hpos.
    + destruct (IH (mkBarcodeStats (bcSeqs stats ++ [bc])
          (nReads stats
           ++ [Z.of_nat (SingleEnd.indexSum (slotReads (multiRecordPtrs coll)) fm)])
          (nUniqueReads stats
           ++ [Z.of_nat (SingleEnd.indexSum (slotUnique (multiRecordPtrs coll)) fm)])
          (wrap64 (nTotalUniqueReads stats
                   + Z.of_nat (SingleEnd.indexSum (slotUnique (multiRecordPtrs coll)) fm)))
          (wrap64 (nTotalReads stats
                   + Z.of_nat (SingleEnd.indexSum (slotReads (multiRecordPtrs coll)) fm)))))
        as (stats' & -> & Hr' & Hq' & Hsr & Hsq); cbn; rewrite ?wrap64_small by lia; try lia.
      exists stats'. cbn in Hr', Hq', Hsr, Hsq.
      rewrite wrap64_small in Hr', Hq' by lia. rewrite sumZ_snoc in Hsr, Hsq.
      split; [done|]. lia.
    + destruct (IH stats) as (stats' & -> & Hr' & Hq' & Hsr & Hsq); try lia.
      exists stats'. split; [done|]. lia.
Qed.

Lemma pe_getBarcodeStats_plain (coll : FastqMultiRecordCollection) :
  slotsValid coll →
  (Z.of_nat (totalReads coll) < 2 ^ 64)%Z →
  ∃ stats, getBarcodeStats coll = Ok stats
    ∧ nTotalReads stats = Z.of_nat (totalReads coll)
    ∧ nTotalUniqueReads stats = Z.of_nat (totalUnique coll)
    ∧ sumZ (nReads stats) = Z.of_nat (totalReads coll)
    ∧ sumZ (nUniqueReads stats) = Z.of_nat (totalUnique coll).
Proof.
  intros Hvalid Hbound. pose proof (pe_totalUnique_le coll) as Hle.
  unfold getBarcodeStats, totalReads, totalUnique, indexSum in *.
  rewrite <- !(sum_list_with_mapEntries _ (bcMap coll)) in *.
  destruct (pe_getBarcodeStats_bcs_plain coll (mapEntries (bcMap coll)) emptyStats)
    as (stats & Hs & Hr & Hq & Hsr & Hsq); cbn; try lia.
  - apply Forall_forall. intros [bc fm] Hin fw rm rv i Hfw Hrv. cbn in Hfw.
    apply elem_of_mapEntries in Hin. apply (Hvalid bc fw rv i).
    apply pe_findMultiRecordPosition_seqs_Some. eauto.
  - exists stats. cbn in Hr, Hq, Hsr, Hsq. by rewrite Hs, Hr, Hq, Hsr, Hsq.
Qed.

(** *** Pairs too short for the barcode *)

Lemma pe_readRecords_read_tsfb (options : CdrOptions) (r : FastqRecord) (raw : RawPair) :
  (readRecords_read options r raw).1 = true
  ↔ 0 < barcodeLength options
    ∧ length (if barcodeVDJRead options then raw.1.2 else raw.2.2) < barcodeLength options.
Proof.
  unfold readRecords_read, readRecord_split, splitBarcodeSeq_rec, readRecord, splitBarcodeSeq.
  destruct (decide (0 < barcodeLength options)) as [Hpos|Hpos]; cbn.
  - destruct (barcodeVDJRead options); cbn;
      rewrite decide_False by lia; case_decide; cbn; split; (done || lia || tauto).
  - split; [done|]. tauto.
Qed.

Lemma pe_readRecords_read_id (options : CdrOptions) (r : FastqRecord) (raw : RawPair) :
  id (readRecords_read options r raw).2 = raw.2.1.
Proof.
  unfold readRecords_read, readRecord_split, splitBarcodeSeq_rec, readRecord.
  case_decide; [|done]. cbn.
  destruct (barcodeVDJRead options); cbn.
  - by destruct (splitBarcodeSeq raw.1.2 (bcSeq r) (barcodeLength options)) as [[ok sq] bc].
  - by destruct (splitBarcodeSeq raw.2.2 (bcSeq r) (barcodeLength options)) as [[ok sq] bc].
Qed.

Section PairedRejects.

Variable anyQualityBelow : list Dna5Q -> Z -> bool.
Variable averageQualityBelow : FastqRecord -> Z -> bool -> bool * FastqRecord.

Lemma pe_qualityControl_reason (r : FastqRecord) (options : CdrOptions) :
  (qualityControl anyQualityBelow averageQualityBelow r options).1 ≠ TOO_SHORT_FOR_BARCODE.
Proof.
  unfold qualityControl.
  destruct (contains (bcSeq r) N); [done|].
  destruct (_ && _); [done|].
  destruct (if bool_decide (0 < qmin options)%Z then _ else _) as [[] r']; [done|].
  destruct (readTooShort r' _ _) as [[] r'']; done.
Qed.

Lemma pe_qualityControl_id (r : FastqRecord) (options : CdrOptions) :
  (∀ r' q f, id (averageQualityBelow r' q f).2 = id r') →
  id (qualityControl anyQualityBelow averageQualityBelow r options).2 = id r.
Proof.
  intros Havq. unfold qualityControl.
  destruct (contains (bcSeq r) N); [done|].
  destruct (_ && _); [done|].
  assert (id (if bool_decide (0 < qmin options)%Z
              then averageQualityBelow r (qmin options) (singleEndFallback options)
              else (false, r)).2 = id r) as Hid.
  { case_bool_decide; [apply Havq|done]. }
  destruct (if bool_decide (0 < qmin options)%Z then _ else _) as [[] r']; [done|].
  cbn in Hid. rewrite <- Hid. unfold readTooShort.
  repeat case_decide; try done. by destruct (singleEndFallback options).
Qed.

(** The events with the reason [TOO_SHORT_FOR_BARCODE] are those of the
    entries whose barcode read is too short, one for each, in order. *)
Lemma pe_rejected_too_short (options : CdrOptions) (r : FastqRecord)
    (entries : list RawPair) :
  0 < barcodeLength options →
  filter (fun e => rejReason e = TOO_SHORT_FOR_BARCODE)
    (rejected anyQualityBelow averageQualityBelow options r entries)
  = (fun raw : RawPair => mkRejectEvent raw.2.1 TOO_SHORT_FOR_BARCODE)
      <$> filter (fun raw : RawPair =>
                    length (if barcodeVDJRead options then raw.1.2 else raw.2.2)
                    < barcodeLength options) entries.
Proof.
  intros Hpos. revert r. induction entries as [|raw rest IH]; intros r; [done|].
  cbn [rejected]. rewrite (filter_cons _ raw).
  pose proof (pe_readRecords_read_id options r raw) as Hid.
  pose proof (pe_readRecords_read_tsfb options r raw) as Htsfb.
  destruct (readRecords_read options r raw) as [tsfb r0]. cbn in Hid, Htsfb.
  unfold readRecords_verdict. case_decide as Hshort.
  - assert (tsfb = true) as -> by (apply Htsfb; by split).
    rewrite decide_False by done. rewrite filter_cons.
    case_decide; [|done]. cbn. by rewrite Hid, IH.
  - assert (tsfb = false) as ->.
    { destruct tsfb; [|done]. destruct Hshort. by apply (proj1 Htsfb). }
    pose proof (pe_qualityControl_reason r0 options) as Hq.
    destruct (qualityControl anyQualityBelow averageQualityBelow r0 options) as [v r'].
    cbn in Hq. case_decide; [apply IH|].
    rewrite filter_cons. case_decide; [done|]. apply IH.
Qed.

Lemma pe_accepted_origin (options : CdrOptions) (r0 r : FastqRecord)
    (entries : list RawPair) :
  (∀ r' q f, id (averageQualityBelow r' q f).2 = id r') →
  r ∈ accepted anyQualityBelow averageQualityBelow options r0 entries →
  ∃ raw, raw ∈ entries ∧ id r = raw.2.1
         ∧ ¬ (0 < barcodeLength options
              ∧ length (if barcodeVDJRead options then raw.1.2 else raw.2.2)
                < barcodeLength options).
Proof.
  intros Havq. revert r0. induction entries as [|raw rest IH]; intros r0; cbn.
  - intros H. by apply elem_of_nil in H.
  - pose proof (pe_readRecords_read_id options r0 raw) as Hid.
    pose proof (pe_readRecords_read_tsfb options r0 raw) as Htsfb.
    destruct (readRecords_read options r0 raw) as [tsfb r1]. cbn in Hid, Htsfb.
    unfold readRecords_verdict. destruct tsfb.
    + rewrite decide_False by done.
      intros H. destruct (IH _ H) as (raw' & Hin & Hraw). exists raw'.
      split; [by apply list_elem_of_further|done].
    + pose proof (pe_qualityControl_id r1 options Havq) as Hqid.
      destruct (qualityControl anyQualityBelow averageQualityBelow r1 options) as [v r'].
      cbn in Hqid. case_decide as Hv.
      * intros [->|Hr]%elem_of_cons.
        -- exists raw. split; [apply list_elem_of_here|]. split; [congruence|].
           intros Hs. apply Htsfb in Hs. done.
        -- destruct (IH _ Hr) as (raw' & Hin & Hraw). exists raw'.
           split; [by apply list_elem_of_further|done].
      * intros Hr. destruct (IH _ Hr) as (raw' & Hin & Hraw). exists raw'.
        split; [by apply list_elem_of_further|done].
Qed.

End PairedRejects.

End PairedFacts.

(** ** The statistics of a batch *)

Lemma pe_size_list_to_set_le (l : list (string * (list Dna5 * list Dna5 * list Dna5))) :
  size (list_to_set l : gset (string * (list Dna5 * list Dna5 * list Dna5))) ≤ length l.
Proof.
  induction l as [|k l IH]; cbn.
  - by rewrite size_empty.
  - rewrite size_union_alt, size_singleton.
    assert (size (list_to_set l ∖ {[k]} : gset _) ≤ size (list_to_set l : gset _)).
    { apply subseteq_size. apply subseteq_difference_l. done. }
    lia.
Qed.

(** C3, as amended. After one call of [readRecords], single-end or
    paired-end (with a progress bar, and a file of fewer than [2^64]
    entries), the statistics of the collection satisfy: the per-barcode
    unique counts add up to at most what the per-barcode read counts add up
    to, these sums are the grand totals, and [nTotalReads] is the number of
    distinct reads (identifier, barcode, sequence or sequences) among the
    accepted records, taken as the quality control leaves them. It is at
    most the number of accepted records, and equal to it when no accepted
    record repeats the identifier and content of another. The accepted
    records are the consumed entries less the new reject events. *)
Theorem readRecords_statistics
    (anyQualityBelow : list Dna5Q -> Z -> bool)
    (averageQualityBelow : FastqRecord -> Z -> bool -> bool)
    (pAverageQualityBelow : PairedEnd.FastqRecord -> Z -> bool -> bool * PairedEnd.FastqRecord)
    (coll : FastqMultiRecordCollection) (rej : list RejectEvent)
    (inStreams : SeqInputStreams)
    (pcoll : PairedEnd.FastqMultiRecordCollection) (pInStreams : PairedEnd.SeqInputStreams)
    (options : CdrOptions) (count : Z) :
  ((0 ≤ count < 2 ^ 32)%Z →
   (0 < totalInBytes inStreams)%Z →
   (Z.of_nat (length (stream inStreams)) < 2 ^ 64)%Z →
   let n := consumed count (stream inStreams) in
   let acc := accepted anyQualityBelow averageQualityBelow options emptyRecord
                (take n (stream inStreams)) in
   ∃ coll' rej' rest more stats,
     readRecords anyQualityBelow averageQualityBelow coll rej inStreams options count
       = Ok (coll', rej', rest, more)
     ∧ length acc + (length rej' - length rej) = n
     ∧ getBarcodeStats coll' = Ok stats
     ∧ sumZ (nUniqueReads stats) = nTotalUniqueReads stats
     ∧ sumZ (nReads stats) = nTotalReads stats
     ∧ (nTotalUniqueReads stats ≤ nTotalReads stats)%Z
     ∧ nTotalReads stats
       = Z.of_nat (size (list_to_set (readKey <$> acc)
                         : gset (string * (list Dna5 * list Dna5))))
     ∧ (nTotalReads stats ≤ Z.of_nat (length acc))%Z
     ∧ (NoDup (readKey <$> acc) → nTotalReads stats = Z.of_nat (length acc)))
  ∧ ((0 ≤ count < 2 ^ 32)%Z →
     (0 < PairedEnd.totalInBytes pInStreams)%Z →
     (Z.of_nat (length (PairedEnd.stream pInStreams)) < 2 ^ 64)%Z →
     let n := PairedEnd.consumed count (PairedEnd.stream pInStreams) in
     let acc := PairedEnd.accepted anyQualityBelow pAverageQualityBelow options
                  PairedEnd.emptyRecord (take n (PairedEnd.stream pInStreams)) in
     ∃ coll' rej' rest more stats,
       PairedEnd.readRecords anyQualityBelow pAverageQualityBelow pcoll rej pInStreams
         options count
         = Ok (coll', rej', rest, more)
       ∧ length acc + (length rej' - length rej) = n
       ∧ PairedEnd.getBarcodeStats coll' = Ok stats
       ∧ sumZ (nUniqueReads stats) = nTotalUniqueReads stats
       ∧ sumZ (nReads stats) = nTotalReads stats
       ∧ (nTotalUniqueReads stats ≤ nTotalReads stats)%Z
       ∧ nTotalReads stats
         = Z.of_nat (size (list_to_set (PairedEnd.readKey <$> acc)
                           : gset (string * (list Dna5 * list Dna5 * list Dna5))))
       ∧ (nTotalReads stats ≤ Z.of_nat (length acc))%Z
       ∧ (NoDup (PairedEnd.readKey <$> acc) → nTotalReads stats = Z.of_nat (length acc))).
Proof.
  split.
  - intros Hc Hpos Hlen n acc.
    destruct (readRecords_batch anyQualityBelow averageQualityBelow coll rej inStreams
                options count Hc Hpos) as (coll' & Hrun & Hinv).
    fold n acc in Hrun, Hinv.
    pose proof (accepted_rejected_length anyQualityBelow averageQualityBelow options
                  emptyRecord (take n (stream inStreams))) as Hcount.
    fold acc in Hcount.
    assert (n ≤ length (stream inStreams)) as Hn.
    { subst n. unfold consumed. case_decide; lia. }
    rewrite length_take, Nat.min_l in Hcount by done.
    pose proof (size_list_to_set_le (readKey <$> acc)) as Hsz. rewrite length_fmap in Hsz.
    destruct (getBarcodeStats_plain coll') as (stats & Hstats & Hr & Hq & Hsr & Hsq).
    { by eapply batchInv_slotsValid. }
    { rewrite (inv_total _ _ Hinv). lia. }
    pose proof (totalUnique_le coll') as Hle.
    rewrite (inv_total _ _ Hinv) in *.
    eexists _, _, _, _, stats. split; [exact Hrun|].
    split; [rewrite length_app; lia|].
    split; [done|]. split; [lia|]. split; [lia|]. split; [lia|].
    split; [done|]. split; [lia|].
    intros Hnd. rewrite Hr, size_list_to_set, length_fmap; done.
  - intros Hc Hpos Hlen n acc.
    destruct (PairedFacts.pe_readRecords_batch anyQualityBelow pAverageQualityBelow pcoll rej
                pInStreams options count Hc Hpos) as (coll' & Hrun & Hinv).
    fold n acc in Hrun, Hinv.
    pose proof (PairedFacts.pe_accepted_rejected_length anyQualityBelow pAverageQualityBelow
                  options PairedEnd.emptyRecord (take n (PairedEnd.stream pInStreams)))
      as Hcount.
    fold acc in Hcount.
    assert (n ≤ length (PairedEnd.stream pInStreams)) as Hn.
    { subst n. unfold PairedEnd.consumed. case_decide; lia. }
    rewrite length_take, Nat.min_l in Hcount by done.
    pose proof (pe_size_list_to_set_le (PairedEnd.readKey <$> acc)) as Hsz.
    rewrite length_fmap in Hsz.
    destruct (PairedFacts.pe_getBarcodeStats_plain coll')
      as (stats & Hstats & Hr & Hq & Hsr & Hsq).
    { by eapply PairedFacts.pe_batchInv_slotsValid. }
    { rewrite (PairedBatch.inv_total _ _ Hinv). lia. }
    pose proof (PairedFacts.pe_totalUnique_le coll') as Hle.
    rewrite (PairedBatch.inv_total _ _ Hinv) in *.
    eexists _, _, _, _, stats. split; [exact Hrun|].
    split; [rewrite length_app; lia|].
    split; [done|]. split; [lia|]. split; [lia|]. split; [lia|].
    split; [done|]. split; [lia|].
    intros Hnd. rewrite Hr, size_list_to_set, length_fmap; done.
Qed.

Lemma readRecords_statistics_witness :
  (∃ coll' rej' rest more stats,
     readRecords noQualityBelow noAverageBelow emptyCollection []
       (mkSeqInputStreams [raw_r1; raw_r2] 64) opts_bc4 0
       = Ok (coll', rej', rest, more)
     ∧ getBarcodeStats coll' = Ok stats
     ∧ sumZ (nReads stats) = nTotalReads stats
     ∧ nTotalReads stats = 2%Z)
  ∧ ∃ coll' rej' rest more stats,
      PairedEnd.readRecords noQualityBelow noAverageBelowPair PairedEnd.emptyCollection []
        (PairedEnd.mkSeqInputStreams [rawpair_p1; rawpair_p2] 64) opts_bc4 0
        = Ok (coll', rej', rest, more)
      ∧ PairedEnd.getBarcodeStats coll' = Ok stats
      ∧ sumZ (nReads stats) = nTotalReads stats
      ∧ nTotalReads stats = 2%Z.
Proof.
  destruct (readRecords_statistics noQualityBelow noAverageBelow noAverageBelowPair
              emptyCollection [] (mkSeqInputStreams [raw_r1; raw_r2] 64)
              PairedEnd.emptyCollection
              (PairedEnd.mkSeqInputStreams [rawpair_p1; rawpair_p2] 64) opts_bc4 0)
    as [HS HP].
  split.
  - destruct HS as (coll' & rej' & rest & more & stats & Hrun & _ & Hstats & _ & Hsum & _
                    & Htotal & _).
    + cbn. lia.
    + cbn. lia.
    + cbn. lia.
    + exists coll', rej', rest, more, stats. split; [exact Hrun|]. split; [exact Hstats|].
      split; [exact Hsum|]. rewrite Htotal. vm_compute. reflexivity.
  - destruct HP as (coll' & rej' & rest & more & stats & Hrun & _ & Hstats & _ & Hsum & _
                    & Htotal & _).
    + cbn. lia.
    + cbn. lia.
    + cbn. lia.
    + exists coll', rej', rest, more, stats. split; [exact Hrun|]. split; [exact Hstats|].
      split; [exact Hsum|]. rewrite Htotal. vm_compute. reflexivity.
Defined.

(** C3, as stated, fails: a file that holds the read [r1] twice has two
    accepted records and no reject event, and [nTotalReads] is 1. *)
Lemma readRecords_statistics_counterexample :
  readRecords noQualityBelow noAverageBelow emptyCollection [] stream_twice opts_bc4 0
    = Ok (coll_r1, [], [], false)
  ∧ getBarcodeStats coll_r1 = Ok stats_r1
  ∧ nTotalReads stats_r1 = 1%Z
  ∧ length (accepted noQualityBelow noAverageBelow opts_bc4 emptyRecord
              (stream stream_twice)) = 2
  ∧ rejected noQualityBelow noAverageBelow opts_bc4 emptyRecord (stream stream_twice) = [].
Proof. vm_compute. repeat split; reflexivity. Qed.

(** ** Reads too short for the barcode *)

Lemma readRecords_read_id (options : CdrOptions) (r : FastqRecord) (raw : RawRecord) :
  id (readRecords_read options r raw).2 = raw.1.
Proof.
  unfold readRecords_read, readRecord_split, splitBarcodeSeq_rec, readRecord.
  case_decide; [|done]. cbn.
  by destruct (splitBarcodeSeq raw.2 (bcSeq r) (barcodeLength options)) as [[ok sq] bc].
Qed.

Lemma readRecords_read_short (options : CdrOptions) (r : FastqRecord) (raw : RawRecord) :
  0 < barcodeLength options →
  length raw.2 < barcodeLength options →
  readRecords_read options r raw = (true, mkFastqRecord raw.1 raw.2 []).
Proof.
  intros Hpos Hshort.
  unfold readRecords_read, readRecord_split, splitBarcodeSeq_rec, readRecord.
  rewrite decide_True by done. cbn.
  by rewrite splitBarcodeSeq_short.
Qed.

Lemma qualityControl_not_barcode_length
    (anyQualityBelow : list Dna5Q -> Z -> bool)
    (averageQualityBelow : FastqRecord -> Z -> bool -> bool)
    (r : FastqRecord) (options : CdrOptions) :
  qualityControl anyQualityBelow averageQualityBelow r options ≠ TOO_SHORT_FOR_BARCODE.
Proof. unfold qualityControl. repeat (case_match; try done). Qed.

Lemma readRecords_read_tsfb (options : CdrOptions) (r : FastqRecord) (raw : RawRecord) :
  (readRecords_read options r raw).1 = true
  ↔ 0 < barcodeLength options ∧ length raw.2 < barcodeLength options.
Proof.
  unfold readRecords_read, readRecord_split, splitBarcodeSeq_rec, readRecord, splitBarcodeSeq.
  destruct (decide (0 < barcodeLength options)) as [Hpos|Hpos]; cbn.
  - rewrite decide_False by lia. case_decide; cbn; split; (done || lia || tauto).
  - split; [done|]. tauto.
Qed.

(** The single-end events with the reason [TOO_SHORT_FOR_BARCODE] are those
    of the entries whose read is too short, one for each, in order. *)
Lemma rejected_too_short
    (anyQualityBelow : list Dna5Q -> Z -> bool)
    (averageQualityBelow : FastqRecord -> Z -> bool -> bool)
    (options : CdrOptions) (r : FastqRecord) (entries : list RawRecord) :
  0 < barcodeLength options →
  filter (fun e => rejReason e = TOO_SHORT_FOR_BARCODE)
    (rejected anyQualityBelow averageQualityBelow options r entries)
  = (fun raw : RawRecord => mkRejectEvent raw.1 TOO_SHORT_FOR_BARCODE)
      <$> filter (fun raw : RawRecord => length raw.2 < barcodeLength options) entries.
Proof.
  intros Hpos. revert r. induction entries as [|raw rest IH]; intros r; [done|].
  cbn [rejected]. rewrite (filter_cons _ raw).
  pose proof (readRecords_read_id options r raw) as Hid.
  pose proof (readRecords_read_tsfb options r raw) as Htsfb.
  destruct (readRecords_read options r raw) as [tsfb r0]. cbn in Hid, Htsfb.
  unfold readRecords_verdict.
  destruct (decide (length raw.2 < barcodeLength options)) as [Hshort|Hshort].
  - assert (tsfb = true) as -> by (apply Htsfb; by split).
    rewrite decide_False by done. rewrite filter_cons.
    case_decide; [|done]. cbn. by rewrite Hid, IH.
  - assert (tsfb = false) as ->.
    { destruct tsfb; [|done]. destruct Hshort. by apply (proj1 Htsfb). }
    pose proof (qualityControl_not_barcode_length anyQualityBelow averageQualityBelow
                  r0 options) as Hq.
    case_decide; [apply IH|].
    rewrite filter_cons. case_decide; [done|]. apply IH.
Qed.

Lemma accepted_origin
    (anyQualityBelow : list Dna5Q -> Z -> bool)
    (averageQualityBelow : FastqRecord -> Z -> bool -> bool)
    (options : CdrOptions) (r0 r : FastqRecord) (entries : list RawRecord) :
  r ∈ accepted anyQualityBelow averageQualityBelow options r0 entries →
  ∃ raw, raw ∈ entries ∧ id r = raw.1
         ∧ ¬ (0 < barcodeLength options ∧ length raw.2 < barcodeLength options).
Proof.
  revert r0. induction entries as [|raw rest IH]; intros r0; cbn.
  - intros H. by apply elem_of_nil in H.
  - pose proof (readRecords_read_id options r0 raw) as Hid.
    destruct (decide (0 < barcodeLength options ∧ length raw.2 < barcodeLength options))
      as [[Hpos Hshort]|Hlong].
    + rewrite (readRecords_read_short options r0 raw Hpos Hshort). cbn.
      intros H. destruct (IH _ H) as (raw' & Hin & Hraw). exists raw'.
      split; [by apply list_elem_of_further|done].
    + destruct (readRecords_read options r0 raw) as [tsfb r']. cbn in Hid.
      case_decide as Hv.
      * intros [->|Hr]%elem_of_cons.
        -- exists raw. split; [apply list_elem_of_here|done].
        -- destruct (IH _ Hr) as (raw' & Hin & Hraw). exists raw'.
           split; [by apply list_elem_of_further|done].
      * intros Hr. destruct (IH _ Hr) as (raw' & Hin & Hraw). exists raw'.
        split; [by apply list_elem_of_further|done].
Qed.

(** The read that carries the barcode is the reverse read when
    [barcodeVDJRead] is set and the forward read otherwise; a pair whose
    barcode read is too short is reported by [readRecord]. *)
Lemma readRecord_split_paired_short (rec0 : PairedEnd.FastqRecord) (raw : PairedEnd.RawPair)
    (barcodeVDJRead : bool) (barcodeLength : nat) :
  length (if barcodeVDJRead then raw.1.2 else raw.2.2) < barcodeLength →
  PairedEnd.readRecord_split rec0 raw barcodeVDJRead barcodeLength
  = (false, PairedEnd.mkFastqRecord raw.2.1 raw.2.2 raw.1.2 []).
Proof.
  intros Hshort. unfold PairedEnd.readRecord_split, PairedEnd.splitBarcodeSeq_rec. cbn.
  destruct barcodeVDJRead.
  - by rewrite splitBarcodeSeq_short.
  - by rewrite splitBarcodeSeq_short.
Qed.

Lemma pe_body_short
    (anyQualityBelow : list Dna5Q -> Z -> bool)
    (averageQualityBelow : PairedEnd.FastqRecord -> Z -> bool -> bool * PairedEnd.FastqRecord)
    (options : CdrOptions) (raw : PairedEnd.RawPair) (s : PairedEnd.LoopState) :
  0 < barcodeLength options →
  length (if barcodeVDJRead options then raw.1.2 else raw.2.2) < barcodeLength options →
  ∃ s', PairedEnd.readRecords_body anyQualityBelow averageQualityBelow options raw s = Ok s'
    ∧ PairedEnd.collection s' = PairedEnd.collection s
    ∧ PairedEnd.rejectEvents s'
      = PairedEnd.rejectEvents s ++ [mkRejectEvent raw.2.1 TOO_SHORT_FOR_BARCODE].
Proof.
  intros Hpos Hshort. unfold PairedEnd.readRecords_body, PairedEnd.readRecords_read.
  rewrite decide_True by done. rewrite readRecord_split_paired_short by done. cbn.
  destruct (PairedEnd.progBar s); [case_decide|]; cbn; eauto.
Qed.

Lemma readRecords_Ok_batch
    (anyQualityBelow : list Dna5Q -> Z -> bool)
    (averageQualityBelow : FastqRecord -> Z -> bool -> bool)
    (coll coll' : FastqMultiRecordCollection) (rej rej' : list RejectEvent)
    (inStreams : SeqInputStreams) (options : CdrOptions) (count : Z)
    (rest : list RawRecord) (more : bool) :
  (0 ≤ count < 2 ^ 32)%Z →
  readRecords anyQualityBelow averageQualityBelow coll rej inStreams options count
    = Ok (coll', rej', rest, more) →
  (0 < totalInBytes inStreams)%Z
  ∧ batchInv coll'
      (list_to_set
         (readKey <$> accepted anyQualityBelow averageQualityBelow options emptyRecord
                        (take (consumed count (stream inStreams)) (stream inStreams)))).
Proof.
  intros Hc Hrun.
  destruct (decide (0 < totalInBytes inStreams)%Z) as [Hbytes|Hbytes].
  - split; [done|].
    destruct (readRecords_batch anyQualityBelow averageQualityBelow coll rej inStreams
                options count Hc Hbytes) as (c & Hc' & Hinv).
    rewrite Hrun in Hc'. by injection Hc' as -> _ _ _.
  - rewrite readRecords_unroll in Hrun by done. rewrite decide_False in Hrun by done.
    step_ok Hrun.
    destruct (iter_inv anyQualityBelow averageQualityBelow options
                (take (consumed count (stream inStreams)) (stream inStreams))
                (mkLoopState emptyCollection rej emptyRecord 0 0 None) ∅ batchInv_empty)
      as (s' & Hs' & _ & _ & HpN & _).
    rewrite Hs' in Hx. injection Hx as <-. rewrite HpN in Hrun by done. done.
Qed.

(** C7. With a barcode length configured, an entry whose read is shorter
    than the barcode gets the verdict [TOO_SHORT_FOR_BARCODE] whatever the
    quality control would say (any predicates, any options with that barcode
    length): the iteration appends one reject event with the identifier of
    the entry and that reason, and leaves the store and the index as they
    were. After a batch, an identifier all of whose entries are too short is
    in no aggregate of the collection. The paired-end iteration does the
    same when the read that carries the barcode is too short. A call of
    [readRecords] that returns, single-end or paired-end, has appended
    exactly one event with that reason for every consumed entry that is
    too short, in the order of the file, with the identifier of the entry,
    and no other event with that reason; and a paired-end identifier all of
    whose entries are too short is in no aggregate either, provided the
    average-quality test, which receives the pair by reference, leaves its
    identifier alone. *)
Theorem too_short_for_barcode
    (anyQualityBelow : list Dna5Q -> Z -> bool)
    (averageQualityBelow : FastqRecord -> Z -> bool -> bool)
    (options : CdrOptions) :
  0 < barcodeLength options →
  (∀ (raw : RawRecord) (s : LoopState),
     length raw.2 < barcodeLength options →
     ∃ s', readRecords_body anyQualityBelow averageQualityBelow options raw s = Ok s'
       ∧ collection s' = collection s
       ∧ rejectEvents s' = rejectEvents s ++ [mkRejectEvent raw.1 TOO_SHORT_FOR_BARCODE]
       ∧ ∀ anyQualityBelow' averageQualityBelow' options',
           barcodeLength options' = barcodeLength options →
           readRecords_body anyQualityBelow' averageQualityBelow' options' raw s = Ok s')
  ∧ (∀ coll rej inStreams count coll' rej' rest more x,
       (0 ≤ count < 2 ^ 32)%Z →
       readRecords anyQualityBelow averageQualityBelow coll rej inStreams options count
         = Ok (coll', rej', rest, more) →
       (∀ raw, raw ∈ stream inStreams → raw.1 = x → length raw.2 < barcodeLength options) →
       ∀ slot m, multiRecordPtrs coll' !! slot = Some m → x ∉ ids m)
  ∧ (∀ anyQualityBelow' averageQualityBelow' (raw : PairedEnd.RawPair)
       (s : PairedEnd.LoopState),
       length (if barcodeVDJRead options then raw.1.2 else raw.2.2) < barcodeLength options →
       ∃ s', PairedEnd.readRecords_body anyQualityBelow' averageQualityBelow' options raw s
               = Ok s'
         ∧ PairedEnd.collection s' = PairedEnd.collection s
         ∧ PairedEnd.rejectEvents s'
           = PairedEnd.rejectEvents s ++ [mkRejectEvent raw.2.1 TOO_SHORT_FOR_BARCODE])
  ∧ (∀ coll rej inStreams count coll' rej' rest more,
       (0 ≤ count < 2 ^ 32)%Z →
       readRecords anyQualityBelow averageQualityBelow coll rej inStreams options count
         = Ok (coll', rej', rest, more) →
       ∃ new, rej' = rej ++ new
         ∧ filter (fun e => rejReason e = TOO_SHORT_FOR_BARCODE) new
           = (fun raw : RawRecord => mkRejectEvent raw.1 TOO_SHORT_FOR_BARCODE)
               <$> filter (fun raw : RawRecord => length raw.2 < barcodeLength options)
                     (take (consumed count (stream inStreams)) (stream inStreams)))
  ∧ (∀ pAverageQualityBelow (pcoll pcoll' : PairedEnd.FastqMultiRecordCollection)
       rej (pInStreams : PairedEnd.SeqInputStreams) count rej' rest more,
       let short (raw : PairedEnd.RawPair) :=
         length (if barcodeVDJRead options then raw.1.2 else raw.2.2)
         < barcodeLength options in
       (0 ≤ count < 2 ^ 32)%Z →
       PairedEnd.readRecords anyQualityBelow pAverageQualityBelow pcoll rej pInStreams
         options count
         = Ok (pcoll', rej', rest, more) →
       (∃ new, rej' = rej ++ new
          ∧ filter (fun e => rejReason e = TOO_SHORT_FOR_BARCODE) new
            = (fun raw : PairedEnd.RawPair => mkRejectEvent raw.2.1 TOO_SHORT_FOR_BARCODE)
                <$> filter short
                      (take (PairedEnd.consumed count (PairedEnd.stream pInStreams))
                         (PairedEnd.stream pInStreams)))
       ∧ ((∀ r q f, PairedEnd.id (pAverageQualityBelow r q f).2 = PairedEnd.id r) →
          ∀ x, (∀ raw, raw ∈ PairedEnd.stream pInStreams → raw.2.1 = x → short raw) →
               ∀ slot m, PairedEnd.multiRecordPtrs pcoll' !! slot = Some m →
                         x ∉ PairedEnd.ids m)).
Proof.
  intros Hpos.
  split; [|split; [|split; [by intros; apply pe_body_short|split]]].
  - intros raw s Hshort.
    assert (∀ aqb avq options', barcodeLength options' = barcodeLength options →
              readRecords_body aqb avq options' raw s
              = Ok (mkLoopState (collection s)
                      (rejectEvents s ++ [mkRejectEvent raw.1 TOO_SHORT_FOR_BARCODE])
                      (mkFastqRecord raw.1 raw.2 [])
                      (wrap64 (complCount s + 1))
                      (match progBar s with
                       | Some p =>
                           if decide (wrap64 (complCount s + 1) `mod` 1234 = 0)%Z then 0%Z
                           else wrap64 (blockBytes s
                                        + approxSizeInBytes (mkFastqRecord raw.1 raw.2 []))
                       | None => wrap64 (blockBytes s
                                         + approxSizeInBytes (mkFastqRecord raw.1 raw.2 []))
                       end)
                      (match progBar s with
                       | Some p =>
                           if decide (wrap64 (complCount s + 1) `mod` 1234 = 0)%Z
                           then Some (updateAndPrint p
                                        (wrap64 (blockBytes s
                                           + approxSizeInBytes (mkFastqRecord raw.1 raw.2 []))))
                           else Some p
                       | None => None
                       end))) as Hbody.
    { intros aqb avq options' Hbl. unfold readRecords_body.
      rewrite readRecords_read_short by (rewrite Hbl; done). cbn.
      destruct (progBar s); [case_decide|]; done. }
    eexists. split; [by apply Hbody|]. cbn. split; [done|]. split; [done|].
    intros aqb avq options' Hbl. by apply Hbody.
  - intros coll rej inStreams count coll' rej' rest more x Hc Hrun Hx slot m Hm Hin.
    destruct (decide (0 < totalInBytes inStreams)%Z) as [Hbytes|Hbytes].
    + destruct (readRecords_batch anyQualityBelow averageQualityBelow coll rej inStreams
                  options count Hc Hbytes) as (c & Hc' & Hinv).
      rewrite Hrun in Hc'. injection Hc' as -> _ _ _.
      pose proof (inv_store _ _ Hinv slot m Hm) as Hslot.
      destruct (inv_slot _ _ Hinv _ _ _ Hslot) as (m' & Hm' & _ & _ & _ & _ & Hids).
      rewrite Hm in Hm'. injection Hm' as <-.
      apply Hids, elem_of_list_to_set, list_elem_of_fmap in Hin as (r & Hkey & Hr).
      apply accepted_origin in Hr as (raw & Hraw & Hid & Hlong).
      injection Hkey as Hkey _ _. apply Hlong. split; [done|].
      apply Hx; [|congruence]. eapply subseteq_take, Hraw.
    + rewrite readRecords_unroll in Hrun by done. rewrite decide_False in Hrun by done.
      step_ok Hrun.
      destruct (iter_inv anyQualityBelow averageQualityBelow options
                  (take (consumed count (stream inStreams)) (stream inStreams))
                  (mkLoopState emptyCollection rej emptyRecord 0 0 None) ∅ batchInv_empty)
        as (s' & Hs' & _ & _ & HpN & _).
      rewrite Hs' in Hx0. injection Hx0 as <-. rewrite HpN in Hrun by done. done.
  - intros coll rej inStreams count coll' rej' rest more Hc Hrun.
    destruct (readRecords_Ok_batch _ _ _ _ _ _ _ _ _ _ _ Hc Hrun) as [Hbytes _].
    destruct (readRecords_batch anyQualityBelow averageQualityBelow coll rej inStreams
                options count Hc Hbytes) as (c & Hrun' & _).
    rewrite Hrun in Hrun'. injection Hrun' as _ -> _ _.
    eexists. split; [done|]. by apply rejected_too_short.
  - intros pavq pcoll pcoll' rej pin count rej' rest more short Hc Hrun.
    destruct (PairedFacts.pe_readRecords_Ok_batch _ _ _ _ _ _ _ _ _ _ _ Hc Hrun)
      as (_ & -> & Hinv).
    split.
    + eexists. split; [done|]. by apply PairedFacts.pe_rejected_too_short.
    + intros Havq x Hx slot m Hm Hin.
      pose proof (PairedBatch.inv_store _ _ Hinv slot m Hm) as Hslot.
      destruct (PairedBatch.inv_slot _ _ Hinv _ _ _ _ Hslot)
        as (m' & Hm' & _ & _ & _ & _ & _ & _ & Hids).
      rewrite Hm in Hm'. injection Hm' as <-.
      apply Hids, elem_of_list_to_set, list_elem_of_fmap in Hin as (r & Hkey & Hr).
      apply (PairedFacts.pe_accepted_origin _ _ _ _ _ _ Havq) in Hr
        as (raw & Hraw & Hid & Hlong).
      injection Hkey as Hkey _ _ _. apply Hlong. split; [done|].
      apply Hx; [|congruence]. eapply subseteq_take, Hraw.
Qed.

Lemma too_short_for_barcode_witness :
  (∃ s', readRecords_body noQualityBelow noAverageBelow opts_bc10 raw_short
           (mkLoopState emptyCollection [] emptyRecord 0 0 None) = Ok s'
         ∧ collection s' = emptyCollection
         ∧ rejectEvents s' = [event_short])
  ∧ (∃ coll',
       readRecords noQualityBelow noAverageBelow emptyCollection [] stream_short opts_bc10 0
         = Ok (coll', [event_short], [], false)
       ∧ ∀ slot m, multiRecordPtrs coll' !! slot = Some m → "s1" ∉ ids m)
  ∧ ∃ pcoll' new,
      PairedEnd.readRecords noQualityBelow noAverageBelowPair PairedEnd.emptyCollection []
        (PairedEnd.mkSeqInputStreams [rawpair_short; rawpair_p1] 64) opts_bc4 0
        = Ok (pcoll', [] ++ new, [], false)
      ∧ filter (fun e => rejReason e = TOO_SHORT_FOR_BARCODE) new
        = [mkRejectEvent "p2" TOO_SHORT_FOR_BARCODE]
      ∧ ∀ slot m, PairedEnd.multiRecordPtrs pcoll' !! slot = Some m →
                  "p2" ∉ PairedEnd.ids m.
Proof.
  destruct (too_short_for_barcode noQualityBelow noAverageBelow opts_bc10)
    as (Hbody & Hbatch & _).
  { cbn. lia. }
  destruct (too_short_for_barcode noQualityBelow noAverageBelow opts_bc4)
    as (_ & _ & _ & _ & Hpair).
  { cbn. lia. }
  split; [|split].
  - destruct (Hbody raw_short (mkLoopState emptyCollection [] emptyRecord 0 0 None))
      as (s' & Hs' & Hcoll & Hrej & _).
    { cbn. lia. }
    exists s'. split; [exact Hs'|]. split; [exact Hcoll|exact Hrej].
  - destruct (readRecords noQualityBelow noAverageBelow emptyCollection [] stream_short
                opts_bc10 0) as [[[[coll' rej'] rest] more]|f] eqn:Hrun;
      [|vm_compute in Hrun; discriminate Hrun].
    exists coll'. split.
    + pose proof Hrun as Hrun'. vm_compute in Hrun'. injection Hrun' as _ <- <- <-.
      reflexivity.
    + apply (Hbatch emptyCollection [] stream_short 0%Z coll' rej' rest more "s1").
      * lia.
      * exact Hrun.
      * intros raw [->|[->|Hin%elem_of_nil]%elem_of_cons]%elem_of_cons Hid.
        -- cbn. lia.
        -- discriminate Hid.
        -- destruct Hin.
  - destruct (PairedEnd.readRecords noQualityBelow noAverageBelowPair
                PairedEnd.emptyCollection []
                (PairedEnd.mkSeqInputStreams [rawpair_short; rawpair_p1] 64) opts_bc4 0)
      as [[[[pcoll' rej'] rest] more]|f] eqn:Hrun;
      [|vm_compute in Hrun; discriminate Hrun].
    destruct (Hpair noAverageBelowPair PairedEnd.emptyCollection pcoll' []
                (PairedEnd.mkSeqInputStreams [rawpair_short; rawpair_p1] 64) 0%Z
                rej' rest more) as [(new & Hnew & Hfilter) Hnone].
    { lia. }
    { exact Hrun. }
    exists pcoll', new. split; [|split].
    + pose proof Hrun as Hrun'. vm_compute in Hrun'. injection Hrun' as _ _ <- <-.
      by rewrite <- Hnew.
    + rewrite Hfilter. vm_compute. reflexivity.
    + apply Hnone; [done|].
      intros raw [->|[->|Hin%elem_of_nil]%elem_of_cons]%elem_of_cons Hid.
      * cbn. lia.
      * discriminate Hid.
      * destruct Hin.
Defined.

(** ** The progress bar *)

(** C6 fails on the code. When the reader reports no byte volume
    ([totalInBytes = 0]) no progress bar is created, and both exits of
    [readRecords] call [progBar->clear()] through the null pointer: every
    call faults, where the same call with a positive byte volume returns.
    The cadence report inside the loop tests [progBar != NULL]; the two
    exits do not. The paired-end instance of the template is evaluated on
    a file of one pair. *)
Theorem readRecords_without_progress_bar
    (anyQualityBelow : list Dna5Q -> Z -> bool)
    (averageQualityBelow : FastqRecord -> Z -> bool -> bool)
    (coll : FastqMultiRecordCollection) (rej : list RejectEvent)
    (entries : list RawRecord) (options : CdrOptions) (count bytes : Z) :
  (0 ≤ count < 2 ^ 32)%Z →
  (0 < bytes)%Z →
  readRecords anyQualityBelow averageQualityBelow coll rej
    (mkSeqInputStreams entries 0) options count = Fault NullPointer
  ∧ isOk (readRecords anyQualityBelow averageQualityBelow coll rej
            (mkSeqInputStreams entries bytes) options count) = true
  ∧ PairedEnd.readRecords noQualityBelow noAverageBelowPair PairedEnd.emptyCollection []
      (PairedEnd.mkSeqInputStreams [rawpair_p1] 0) opts_bc4 0 = Fault NullPointer
  ∧ PairedEnd.readRecords noQualityBelow noAverageBelowPair PairedEnd.emptyCollection []
      (PairedEnd.mkSeqInputStreams [rawpair_p1] 64) opts_bc4 0
    = Ok (pcoll_p1, [], [], false).
Proof.
  intros Hc Hbytes. split; [|split; [|split; vm_compute; reflexivity]].
  - rewrite readRecords_unroll by done. cbn [totalInBytes stream].
    rewrite decide_False by lia.
    destruct (iter_inv anyQualityBelow averageQualityBelow options
                (take (consumed count entries) entries)
                (mkLoopState emptyCollection rej emptyRecord 0 0 None) ∅ batchInv_empty)
      as (s' & -> & _ & _ & HpN & _).
    cbn. by rewrite HpN.
  - destruct (readRecords_batch anyQualityBelow averageQualityBelow coll rej
                (mkSeqInputStreams entries bytes) options count Hc Hbytes) as (c & -> & _).
    done.
Qed.

Lemma readRecords_without_progress_bar_witness :
  readRecords noQualityBelow noAverageBelow emptyCollection []
    (mkSeqInputStreams [raw_r1; raw_r2] 0) opts_bc4 0 = Fault NullPointer
  ∧ isOk (readRecords noQualityBelow noAverageBelow emptyCollection []
            (mkSeqInputStreams [raw_r1; raw_r2] 64) opts_bc4 0) = true.
Proof.
  destruct (readRecords_without_progress_bar noQualityBelow noAverageBelow emptyCollection []
              [raw_r1; raw_r2] opts_bc4 0 64) as (Hfault & Hok & _); [lia..|].
  split; [exact Hfault|exact Hok].
Defined.

(** ** Batch isolation *)

(** C8. [readRecords] clears the store and the index together before it
    reads anything: [clear] returns the empty collection whatever it is
    given, and the outcome of a call (collection, reject log, entries left,
    returned boolean, or fault) is the same for any two collections it is
    started with, single-end or paired-end. What a single-end call returns
    is the collection of the reads accepted in that call and of nothing
    else: every index entry points to a slot of the new store, every slot
    is indexed, and the identifiers of an aggregate are those of the
    accepted records of its content. *)
Theorem readRecords_batch_isolation
    (anyQualityBelow : list Dna5Q -> Z -> bool)
    (averageQualityBelow : FastqRecord -> Z -> bool -> bool)
    (coll coll0 : FastqMultiRecordCollection) (rej : list RejectEvent)
    (inStreams : SeqInputStreams) (options : CdrOptions) (count : Z) :
  clear coll = emptyCollection
  ∧ multiRecordPtrs (clear coll) = [] ∧ bcMap (clear coll) = ∅
  ∧ readRecords anyQualityBelow averageQualityBelow coll rej inStreams options count
    = readRecords anyQualityBelow averageQualityBelow coll0 rej inStreams options count
  ∧ (∀ pAnyQualityBelow pAverageQualityBelow (pcoll pcoll0 : PairedEnd.FastqMultiRecordCollection)
       (pInStreams : PairedEnd.SeqInputStreams),
       PairedEnd.clear pcoll = PairedEnd.emptyCollection
       ∧ PairedEnd.readRecords pAnyQualityBelow pAverageQualityBelow pcoll rej pInStreams
           options count
         = PairedEnd.readRecords pAnyQualityBelow pAverageQualityBelow pcoll0 rej pInStreams
             options count)
  ∧ ∀ coll' rej' rest more,
      (0 ≤ count < 2 ^ 32)%Z →
      readRecords anyQualityBelow averageQualityBelow coll rej inStreams options count
        = Ok (coll', rej', rest, more) →
      batchInv coll'
        (list_to_set
           (readKey <$> accepted anyQualityBelow averageQualityBelow options emptyRecord
                          (take (consumed count (stream inStreams)) (stream inStreams)))).
Proof.
  split; [done|]. split; [done|]. split; [done|]. split; [done|]. split; [done|].
  intros coll' rej' rest more Hc Hrun.
  by destruct (readRecords_Ok_batch _ _ _ _ _ _ _ _ _ _ _ Hc Hrun).
Qed.

Lemma readRecords_batch_isolation_witness :
  batchInv coll_r1
    (list_to_set
       (readKey <$> accepted noQualityBelow noAverageBelow opts_bc4 emptyRecord
                      (take (consumed 0 (stream stream_twice)) (stream stream_twice)))).
Proof.
  destruct (readRecords_batch_isolation noQualityBelow noAverageBelow
              coll_r1 emptyCollection [] stream_twice opts_bc4 0) as (_ & _ & _ & _ & _ & H).
  apply (H coll_r1 [] [] false).
  - lia.
  - vm_compute. reflexivity.
Defined.

(** ** Folding one read into the running mean *)

(** A quality value fits a byte; the first fold stores it unchanged. *)
Lemma foldMean_first_byte :
  Forall (fun n => foldMean 0 (F32.of_Z 0) (mkDna5Q A (Z.of_nat n)) = F32.of_Z (Z.of_nat n))
    (List.seq 0 256).
Proof. apply (bool_decide_eq_true_1 _). vm_compute. reflexivity. Qed.

Lemma foldMean_first (c : Dna5Q) :
  (0 ≤ getQualityValue c < 256)%Z →
  foldMean 0 (F32.of_Z 0) c = F32.of_Z (getQualityValue c).
Proof.
  intros Hq. destruct c as [b q]. cbn in Hq.
  pose proof foldMean_first_byte as HF. rewrite Forall_forall in HF.
  specialize (HF (Z.to_nat q)). rewrite Z2Nat.id in HF by lia.
  apply HF. apply elem_of_seq. lia.
Qed.

Lemma zip_with_replicate_fmap {X Y Z'} (f : X → Y → Z') (x : X) (l : list Y) :
  zip_with f (replicate (length l) x) l = f x <$> l.
Proof. induction l as [|y l IH]; cbn; [done|]. by rewrite IH. Qed.

(** C5. Folding a record with a new identifier into an aggregate of weight
    [w] (its number of identifiers) adds the identifier and replaces every
    mean quality [old] by [(old * w + q) / (w + 1)], where [q] is the quality
    of the record at that position, in [float] arithmetic; for [w = 0] the
    vector becomes the qualities of the record. A paired-end aggregate has
    two vectors, the means of the forward and of the reverse read, and both
    are updated in this way. Reading the records [r1] (qualities 30) and
    [r2] (qualities 10) of barcode [AAAA] and sequence [GATTACA] yields one
    aggregate with the identifiers [r1], [r2] and the mean qualities 20,
    seven times; so do two pairs, in both vectors. *)
Theorem updateMultiRecord_mean (m : FastqMultiRecord) (r : FastqRecord)
    (pm : PairedEnd.FastqMultiRecord) (pr : PairedEnd.FastqRecord) :
  readRecords noQualityBelow noAverageBelow emptyCollection []
    (mkSeqInputStreams [raw_r1; raw_r2] 64) opts_bc4 0
    = Ok (coll_r1r2, [], [], false)
  ∧ (id r ∉ ids m →
     (Z.of_nat (size (ids m)) + 1 < 2 ^ 64)%Z →
     (length (qualities m) = 0 ∧ size (ids m) = 0)
     ∨ (length (qualities m) = length (seq r) ∧ 0 < size (ids m)) →
     let w := Z.of_nat (size (ids m)) in
     ∃ m', updateMultiRecord m r = Ok m'
       ∧ ids m' = {[ id r ]} ∪ ids m
       ∧ size (ids m') = S (size (ids m))
       ∧ mBcSeq m' = mBcSeq m ∧ mSeq m' = mSeq m
       ∧ length (qualities m') = length (seq r)
       ∧ (0 < size (ids m) →
          ∀ i old c, qualities m !! i = Some old → seq r !! i = Some c →
            qualities m' !! i
            = Some (F32.div (F32.add (F32.mul old (F32.of_Z w))
                                     (F32.of_Z (getQualityValue c)))
                            (F32.of_Z (w + 1))))
       ∧ (size (ids m) = 0 →
          Forall (fun c => 0 ≤ getQualityValue c < 256)%Z (seq r) →
          qualities m' = (fun c => F32.of_Z (getQualityValue c)) <$> seq r))
  ∧ PairedEnd.readRecords noQualityBelow noAverageBelowPair PairedEnd.emptyCollection []
      (PairedEnd.mkSeqInputStreams [rawpair_p1; rawpair_p2] 64) opts_bc4 0
    = Ok (pcoll_p1p2, [], [], false)
  ∧ (PairedEnd.id pr ∉ PairedEnd.ids pm →
     (Z.of_nat (size (PairedEnd.ids pm)) + 1 < 2 ^ 64)%Z →
     (length (PairedEnd.fwQualities pm) = 0 ∧ size (PairedEnd.ids pm) = 0)
     ∨ (length (PairedEnd.fwQualities pm) = length (PairedEnd.fwSeq pr)
        ∧ 0 < size (PairedEnd.ids pm)) →
     (length (PairedEnd.revQualities pm) = 0 ∧ size (PairedEnd.ids pm) = 0)
     ∨ (length (PairedEnd.revQualities pm) = length (PairedEnd.revSeq pr)
        ∧ 0 < size (PairedEnd.ids pm)) →
     let w := Z.of_nat (size (PairedEnd.ids pm)) in
     let mean old c :=
       F32.div (F32.add (F32.mul old (F32.of_Z w)) (F32.of_Z (getQualityValue c)))
               (F32.of_Z (w + 1)) in
     ∃ m', PairedEnd.updateMultiRecord pm pr = Ok m'
       ∧ PairedEnd.ids m' = {[ PairedEnd.id pr ]} ∪ PairedEnd.ids pm
       ∧ size (PairedEnd.ids m') = S (size (PairedEnd.ids pm))
       ∧ PairedEnd.mBcSeq m' = PairedEnd.mBcSeq pm
       ∧ PairedEnd.mFwSeq m' = PairedEnd.mFwSeq pm
       ∧ PairedEnd.mRevSeq m' = PairedEnd.mRevSeq pm
       ∧ length (PairedEnd.fwQualities m') = length (PairedEnd.fwSeq pr)
       ∧ length (PairedEnd.revQualities m') = length (PairedEnd.revSeq pr)
       ∧ (0 < size (PairedEnd.ids pm) →
          (∀ i old c, PairedEnd.fwQualities pm !! i = Some old →
             PairedEnd.fwSeq pr !! i = Some c →
             PairedEnd.fwQualities m' !! i = Some (mean old c))
          ∧ (∀ i old c, PairedEnd.revQualities pm !! i = Some old →
               PairedEnd.revSeq pr !! i = Some c →
               PairedEnd.revQualities m' !! i = Some (mean old c)))
       ∧ (size (PairedEnd.ids pm) = 0 →
          Forall (fun c => 0 ≤ getQualityValue c < 256)%Z
            (PairedEnd.fwSeq pr ++ PairedEnd.revSeq pr) →
          PairedEnd.fwQualities m'
          = (fun c => F32.of_Z (getQualityValue c)) <$> PairedEnd.fwSeq pr
          ∧ PairedEnd.revQualities m'
            = (fun c => F32.of_Z (getQualityValue c)) <$> PairedEnd.revSeq pr)).
Proof.
  split; [vm_compute; reflexivity|]. split; [|split; [vm_compute; reflexivity|]].
  - intros Hid Hw Hpre w.
    destruct (updateMultiRecord_Ok m r Hid Hpre) as (q & Hm' & Hlen & Hq).
    eexists. split; [exact Hm'|]. cbn.
    split; [done|]. split; [by apply size_insert_new|]. split; [done|]. split; [done|].
    split; [done|]. split.
    + intros Hpos i old c Hold Hc. rewrite Hq, decide_False by lia.
      rewrite lookup_zip_with, Hold. cbn. rewrite Hc. cbn. unfold foldMean. fold w.
      by rewrite wrap64_small by lia.
    + intros Hzero Hrange. rewrite Hq, Hzero. change (Z.of_nat 0) with 0%Z.
      rewrite decide_True by done. rewrite zip_with_replicate_fmap.
      apply Forall_fmap_ext_1. eapply Forall_impl; [exact Hrange|].
      intros c Hc. by apply foldMean_first.
  - intros Hid Hw Hfw Hrev w mean.
    destruct (pe_updateMultiRecord_Ok pm pr Hid Hfw Hrev)
      as (fq & rq & Hm' & Hlf & Hlr & Hfq & Hrq).
    fold w in Hfq, Hrq.
    eexists. split; [exact Hm'|]. cbn.
    split; [done|]. split; [by apply size_insert_new|].
    split; [done|]. split; [done|]. split; [done|]. split; [done|]. split; [done|].
    split.
    + intros Hpos. split; intros i old c Hold Hc.
      * rewrite Hfq, decide_False by lia.
        rewrite lookup_zip_with, Hold. cbn. rewrite Hc. cbn. unfold foldMean, mean.
        by rewrite wrap64_small by lia.
      * rewrite Hrq, decide_False by lia.
        rewrite lookup_zip_with, Hold. cbn. rewrite Hc. cbn. unfold foldMean, mean.
        by rewrite wrap64_small by lia.
    + intros Hzero Hrange. apply Forall_app in Hrange as [Hrf Hrr].
      assert (w = 0%Z) as Hw0 by lia. rewrite Hfq, Hrq, Hw0.
      rewrite !decide_True by done. rewrite !zip_with_replicate_fmap. split.
      * apply Forall_fmap_ext_1. eapply Forall_impl; [exact Hrf|].
        intros c Hc. by apply foldMean_first.
      * apply Forall_fmap_ext_1. eapply Forall_impl; [exact Hrr|].
        intros c Hc. by apply foldMean_first.
Qed.

Lemma updateMultiRecord_mean_witness :
  (∃ m', updateMultiRecord mrec_r1 rec_r2 = Ok m'
     ∧ ids m' = {[ "r2" ]} ∪ {[ "r1" ]}
     ∧ size (ids m') = 2
     ∧ qualities m' !! 0 = Some (F32.of_Z 20))
  ∧ ∃ m', PairedEnd.updateMultiRecord pmrec_p1 pair_p2 = Ok m'
      ∧ PairedEnd.ids m' = {[ "p2" ]} ∪ {[ "p1" ]}
      ∧ PairedEnd.fwQualities m' !! 0 = Some (F32.of_Z 20)
      ∧ PairedEnd.revQualities m' !! 0 = Some (F32.of_Z 20).
Proof.
  destruct (updateMultiRecord_mean mrec_r1 rec_r2 pmrec_p1 pair_p2) as (_ & HS & _ & HP).
  split.
  - destruct HS as (m' & Hm' & Hids & Hsize & _ & _ & _ & Hmean & _).
    + cbn. intros H%elem_of_singleton. discriminate H.
    + cbn. rewrite size_singleton. lia.
    + right. cbn. rewrite size_singleton. lia.
    + exists m'. split; [exact Hm'|]. split; [exact Hids|]. split.
      * rewrite Hsize. cbn. by rewrite size_singleton.
      * rewrite (Hmean ltac:(cbn; rewrite size_singleton; lia) 0 (F32.of_Z 30)
                   (mkDna5Q G 10)); [|reflexivity..].
        cbn. rewrite size_singleton. vm_compute. reflexivity.
  - destruct HP as (m' & Hm' & Hids & _ & _ & _ & _ & _ & _ & Hmean & _).
    + cbn. intros H%elem_of_singleton. discriminate H.
    + cbn. rewrite size_singleton. lia.
    + right. cbn. rewrite size_singleton. lia.
    + right. cbn. rewrite size_singleton. lia.
    + destruct Hmean as [Hf Hr]; [cbn; rewrite size_singleton; lia|].
      exists m'. split; [exact Hm'|]. split; [exact Hids|]. split.
      * rewrite (Hf 0 (F32.of_Z 30) (mkDna5Q A 10)); [|reflexivity..].
        cbn. rewrite size_singleton. vm_compute. reflexivity.
      * rewrite (Hr 0 (F32.of_Z 30) (mkDna5Q G 10)); [|reflexivity..].
        cbn. rewrite size_singleton. vm_compute. reflexivity.
Defined.

(** ** Merging an aggregate *)

Lemma findContaining_skel (coll : FastqMultiRecordCollection) (mRec : FastqMultiRecord) :
  findMultiRecordPosition coll (toFastqRecordSkel mRec)
  = findMultiRecordPosition_seqs coll (mBcSeq mRec) (mSeq mRec).
Proof. unfold findMultiRecordPosition. cbn. by rewrite !toDna5_toDna5Q. Qed.




(** C1 fails on the code, in both branches of [mergeRecord]. Merging the
    aggregate [mrec_r2] into the empty collection appends two aggregates:
    slot 0, which is returned and not indexed, and slot 1, which is indexed.
    Merging it into the collection that holds its content under the
    identifier [r1] combines the means (30 and 10 give 20) and leaves the
    identifier set at [r1]: [r2] is not added. The paired-end instance does
    the same. *)
Theorem mergeRecord_diverges :
  mergeRecord emptyCollection mrec_r2 = Ok (coll_merge_new, 0)
  ∧ length (multiRecordPtrs coll_merge_new) = 2
  ∧ findMultiRecordPosition_seqs coll_merge_new AAAA GATTACA = Some 1
  ∧ mergeRecord coll_r1 mrec_r2 = Ok (coll_merge_hit, 0)
  ∧ (ids <$> multiRecordPtrs coll_merge_hit) = [ {[ "r1" ]} ]
  ∧ (qualities <$> multiRecordPtrs coll_merge_hit) = [ replicate 7 (F32.of_Z 20) ]
  ∧ ids mrec_r1 ∪ ids mrec_r2 ≠ {[ "r1" ]}
  ∧ PairedEnd.mergeRecord PairedEnd.emptyCollection pmrec_p2 = Ok (pcoll_merge_new, 0)
  ∧ length (PairedEnd.multiRecordPtrs pcoll_merge_new) = 2
  ∧ PairedEnd.mergeRecord pcoll_p1 pmrec_p2 = Ok (pcoll_merge_hit, 0)
  ∧ (PairedEnd.ids <$> PairedEnd.multiRecordPtrs pcoll_merge_hit) = [ {[ "p1" ]} ].
Proof.
  split; [|split; [|split; [|split; [|split; [|split; [|split]]]]]].
  - vm_compute. reflexivity.
  - reflexivity.
  - vm_compute. reflexivity.
  - vm_compute. reflexivity.
  - reflexivity.
  - reflexivity.
  - change (ids mrec_r1 ∪ ids mrec_r2) with ({[ "r1" ]} ∪ {[ "r2" ]} : gset string).
    intros H. assert ("r2" ∈ ({[ "r1" ]} ∪ {[ "r2" ]} : gset string)) as Hin.
    { apply elem_of_union_r, elem_of_singleton. reflexivity. }
    rewrite H in Hin. apply elem_of_singleton in Hin. discriminate Hin.
  - vm_compute. repeat split; reflexivity.
Qed.

(** C2 fails on the code, through [mergeRecord]. After [mrec_r2] has been
    merged into the aggregate of [r1], the mean 20 is that of two reads and
    the identifier set has one element. The next record, [r3] with
    qualities 50, is then folded in with weight 1: the mean becomes
    (20 * 1 + 50) / 2 = 35. Folding the three reads in one after the other
    gives (20 * 2 + 50) / 3 = 30, the mean of 30, 10 and 50. *)
Theorem mergeRecord_breaks_weight :
  mergeRecord coll_r1 mrec_r2 = Ok (coll_merge_hit, 0)
  ∧ (size ∘ ids <$> multiRecordPtrs coll_merge_hit) = [1]
  ∧ findContainingMultiRecord coll_merge_hit rec_r3 true = Ok (coll_merge_hit_r3, Some 0)
  ∧ (qualities <$> multiRecordPtrs coll_merge_hit_r3) = [ replicate 7 (F32.of_Z 35) ]
  ∧ findContainingMultiRecord coll_r1 rec_r2 true = Ok (coll_r1r2, Some 0)
  ∧ findContainingMultiRecord coll_r1r2 rec_r3 true = Ok (coll_r1r2r3, Some 0)
  ∧ (qualities <$> multiRecordPtrs coll_r1r2r3) = [ replicate 7 (F32.of_Z 30) ]
  ∧ PairedEnd.mergeRecord pcoll_p1 pmrec_p2 = Ok (pcoll_merge_hit, 0)
  ∧ (size ∘ PairedEnd.ids <$> PairedEnd.multiRecordPtrs pcoll_merge_hit) = [1].
Proof. vm_compute. repeat split; reflexivity. Qed.

(** ** Paired-end reads that are too short *)

(** C9. In paired mode the payload that may be given up is the forward
    read. When it is shorter than the minimum length and the reverse read
    is not, [readTooShort] with the fallback flag empties the forward read
    and reports that the pair is long enough; without the flag it reports
    that the pair is too short. Accordingly [qualityControl], once the
    barcode and average-quality tests have let the record through, returns
    [NONE] with the forward read emptied when the flag is set, and
    [READ_TOO_SHORT] when it is not. *)
Theorem readTooShort_fallback (rec : PairedEnd.FastqRecord) (minLength : nat) :
  length (PairedEnd.fwSeq rec) < minLength ≤ length (PairedEnd.revSeq rec) →
  PairedEnd.readTooShort rec minLength true
    = (false, PairedEnd.mkFastqRecord (PairedEnd.id rec) [] (PairedEnd.revSeq rec)
                (PairedEnd.bcSeq rec))
  ∧ PairedEnd.readTooShort rec minLength false = (true, rec)
  ∧ ∀ anyQualityBelow averageQualityBelow options rec0,
      minReadLength options = minLength →
      contains (PairedEnd.bcSeq rec0) N = false →
      bool_decide (0 < bcQmin options)%Z
        && anyQualityBelow (PairedEnd.bcSeq rec0) (bcQmin options) = false →
      (if bool_decide (0 < qmin options)%Z
       then averageQualityBelow rec0 (qmin options) (singleEndFallback options)
       else (false, rec0)) = (false, rec) →
      PairedEnd.qualityControl anyQualityBelow averageQualityBelow rec0 options
      = if singleEndFallback options
        then (NONE, PairedEnd.mkFastqRecord (PairedEnd.id rec) [] (PairedEnd.revSeq rec)
                      (PairedEnd.bcSeq rec))
        else (READ_TOO_SHORT, rec).
Proof.
  intros [Hfw Hrev].
  assert (∀ fallback, PairedEnd.readTooShort rec minLength fallback
            = if fallback
              then (false, PairedEnd.mkFastqRecord (PairedEnd.id rec) []
                             (PairedEnd.revSeq rec) (PairedEnd.bcSeq rec))
              else (true, rec)) as Hshort.
  { intros fallback. unfold PairedEnd.readTooShort.
    rewrite decide_False, decide_False by lia. by destruct fallback. }
  split; [apply (Hshort true)|]. split; [apply (Hshort false)|].
  intros aqb avq options rec0 Hmin HN Hbc Havg.
  unfold PairedEnd.qualityControl. rewrite HN, Hbc, Havg, Hmin, Hshort.
  by destruct (singleEndFallback options).
Qed.

Lemma readTooShort_fallback_witness :
  PairedEnd.readTooShort pair_p1 5 true
    = (false, PairedEnd.mkFastqRecord "p1" [] (withQuality 30 GATTACA) (withQuality 40 AAAA))
  ∧ PairedEnd.readTooShort pair_p1 5 false = (true, pair_p1)
  ∧ PairedEnd.qualityControl noQualityBelow noAverageBelowPair pair_p1 (opts_min5 true)
    = (NONE, PairedEnd.mkFastqRecord "p1" [] (withQuality 30 GATTACA) (withQuality 40 AAAA))
  ∧ PairedEnd.qualityControl noQualityBelow noAverageBelowPair pair_p1 (opts_min5 false)
    = (READ_TOO_SHORT, pair_p1).
Proof.
  destruct (readTooShort_fallback pair_p1 5) as (Htrue & Hfalse & Hqc).
  { cbn. lia. }
  split; [exact Htrue|]. split; [exact Hfalse|]. split.
  - apply (Hqc noQualityBelow noAverageBelowPair (opts_min5 true) pair_p1);
      reflexivity.
  - apply (Hqc noQualityBelow noAverageBelowPair (opts_min5 false) pair_p1);
      reflexivity.
Defined.

(** A reverse read that is too short rejects the pair, with or without the
    fallback flag: only the forward read can be given up. *)
Lemma readTooShort_reverse (rec : PairedEnd.FastqRecord) (minLength : nat)
    (singleEndFallback : bool) :
  length (PairedEnd.revSeq rec) < minLength →
  PairedEnd.readTooShort rec minLength singleEndFallback = (true, rec).
Proof. intros H. unfold PairedEnd.readTooShort. by rewrite decide_True. Qed.

(** * Further properties of [fastq_io.h] *)

(** ** Truncation, longer and shorter read, orientation *)

(** X1. [truncate] keeps the first [len] residues of every read and nothing
    else: the reads become [take len] of what they were, so no read is
    longer than [len] afterwards, identifier and barcode stay, and
    truncating to [a] and then to [b] is truncating to the smaller of both. *)
Theorem truncate_take (rec : FastqRecord) (prec : PairedEnd.FastqRecord) (a b : nat) :
  truncate rec a = mkFastqRecord (id rec) (take a (seq rec)) (bcSeq rec)
  ∧ length (seq (truncate rec a)) = a `min` length (seq rec)
  ∧ truncate (truncate rec a) b = truncate rec (a `min` b)
  ∧ PairedEnd.truncate prec a
    = PairedEnd.mkFastqRecord (PairedEnd.id prec) (take a (PairedEnd.fwSeq prec))
        (take a (PairedEnd.revSeq prec)) (PairedEnd.bcSeq prec)
  ∧ length (PairedEnd.fwSeq (PairedEnd.truncate prec a)) ≤ a
  ∧ length (PairedEnd.revSeq (PairedEnd.truncate prec a)) ≤ a
  ∧ PairedEnd.truncate (PairedEnd.truncate prec a) b = PairedEnd.truncate prec (a `min` b).
Proof.
  assert (∀ r n, truncate r n = mkFastqRecord (id r) (take n (seq r)) (bcSeq r)) as Hse.
  { intros r n. unfold truncate. destruct r as [i sq bc]. cbn.
    case_decide; [done|]. rewrite take_ge; [done|lia]. }
  assert (∀ r n, PairedEnd.truncate r n
            = PairedEnd.mkFastqRecord (PairedEnd.id r) (take n (PairedEnd.fwSeq r))
                (take n (PairedEnd.revSeq r)) (PairedEnd.bcSeq r)) as Hpe.
  { intros r n. unfold PairedEnd.truncate. destruct r as [i fw rv bc]. cbn.
    destruct (decide (n < length fw)); cbn; (destruct (decide (n < length rv)); cbn);
      rewrite ?(take_ge fw), ?(take_ge rv) by lia; done. }
  split; [apply Hse|]. split; [rewrite Hse; cbn; by rewrite length_take|].
  split; [rewrite !Hse; cbn; by rewrite take_take, (Nat.min_comm a b)|].
  split; [apply Hpe|]. rewrite !Hpe. cbn. rewrite !length_take, !take_take.
  split; [lia|]. split; [lia|]. by rewrite (Nat.min_comm a b).
Qed.

(** X2. Of a pair, [longerSeq] denotes a read of the greater length and
    [shorterSeq] one of the smaller. They denote different reads exactly
    when the lengths differ; for reads of equal length both denote the
    reverse read. *)
Theorem longerSeq_shorterSeq (rec : PairedEnd.FastqRecord) :
  length (PairedEnd.longerSeq rec)
    = length (PairedEnd.fwSeq rec) `max` length (PairedEnd.revSeq rec)
  ∧ length (PairedEnd.shorterSeq rec)
    = length (PairedEnd.fwSeq rec) `min` length (PairedEnd.revSeq rec)
  ∧ (PairedEnd.longerSeq_isFw rec ≠ PairedEnd.shorterSeq_isFw rec
     ↔ length (PairedEnd.fwSeq rec) ≠ length (PairedEnd.revSeq rec))
  ∧ (length (PairedEnd.fwSeq rec) = length (PairedEnd.revSeq rec) →
     PairedEnd.longerSeq_isFw rec = false ∧ PairedEnd.shorterSeq_isFw rec = false).
Proof.
  unfold PairedEnd.longerSeq, PairedEnd.shorterSeq, PairedEnd.longerSeq_isFw,
    PairedEnd.shorterSeq_isFw.
  repeat case_bool_decide; repeat split; intros; try done; try lia.
Qed.

Lemma longerSeq_shorterSeq_witness :
  PairedEnd.longerSeq_isFw (PairedEnd.mkFastqRecord "" (withQuality 30 AAAA)
                              (withQuality 30 AAAA) []) = false
  ∧ PairedEnd.shorterSeq_isFw (PairedEnd.mkFastqRecord "" (withQuality 30 AAAA)
                                 (withQuality 30 AAAA) []) = false.
Proof.
  destruct (longerSeq_shorterSeq (PairedEnd.mkFastqRecord "" (withQuality 30 AAAA)
              (withQuality 30 AAAA) [])) as (_ & _ & _ & H).
  apply H. reflexivity.
Defined.

Lemma complementQ_involutive (c : Dna5Q) : complementQ (complementQ c) = c.
Proof. destruct c as [[] q]; reflexivity. Qed.

Lemma reverseComplement_involutive (s : list Dna5Q) :
  reverseComplement (reverseComplement s) = s.
Proof.
  unfold reverseComplement. rewrite fmap_reverse, reverse_involutive.
  rewrite <- list_fmap_compose. rewrite <- (list_fmap_id s) at 2.
  apply list_fmap_ext. intros i c _. apply complementQ_involutive.
Qed.

Lemma reverseComplement_length (s : list Dna5Q) :
  length (reverseComplement s) = length s.
Proof. unfold reverseComplement. by rewrite length_reverse, length_fmap. Qed.

Lemma reverseComplement_lookup (s : list Dna5Q) (i : nat) :
  i < length s →
  reverseComplement s !! i = complementQ <$> s !! (length s - S i).
Proof.
  intros Hi. unfold reverseComplement.
  rewrite reverse_lookup by (by rewrite length_fmap).
  by rewrite length_fmap, list_lookup_fmap.
Qed.

(** X3. [syncOrientation] reverse complements one read and leaves the rest
    of the record alone: single-end the read, unless [options.reverse] is
    set, in which case nothing changes; of a pair the forward read when
    [options.reverse] is set and the reverse read otherwise. Identifier,
    barcode and the other read stay as they are, no length changes, the
    residue at position [i] of the changed read is the complement of the
    residue at position [length - 1 - i] before, with its quality, and a
    second call with the same flag gives the record back. *)
Theorem syncOrientation_involutive (rec : FastqRecord) (prec : PairedEnd.FastqRecord)
    (rv : bool) :
  syncOrientation rec true = rec
  ∧ syncOrientation rec false
    = mkFastqRecord (id rec) (reverseComplement (seq rec)) (bcSeq rec)
  ∧ PairedEnd.syncOrientation prec true
    = PairedEnd.mkFastqRecord (PairedEnd.id prec) (reverseComplement (PairedEnd.fwSeq prec))
        (PairedEnd.revSeq prec) (PairedEnd.bcSeq prec)
  ∧ PairedEnd.syncOrientation prec false
    = PairedEnd.mkFastqRecord (PairedEnd.id prec) (PairedEnd.fwSeq prec)
        (reverseComplement (PairedEnd.revSeq prec)) (PairedEnd.bcSeq prec)
  ∧ id (syncOrientation rec rv) = id rec
  ∧ bcSeq (syncOrientation rec rv) = bcSeq rec
  ∧ PairedEnd.id (PairedEnd.syncOrientation prec rv) = PairedEnd.id prec
  ∧ PairedEnd.bcSeq (PairedEnd.syncOrientation prec rv) = PairedEnd.bcSeq prec
  ∧ (∀ i, i < length (seq rec) →
       seq (syncOrientation rec false) !! i
       = complementQ <$> seq rec !! (length (seq rec) - S i))
  ∧ syncOrientation (syncOrientation rec rv) rv = rec
  ∧ length (seq (syncOrientation rec rv)) = length (seq rec)
  ∧ PairedEnd.syncOrientation (PairedEnd.syncOrientation prec rv) rv = prec
  ∧ (if rv then PairedEnd.revSeq (PairedEnd.syncOrientation prec rv) = PairedEnd.revSeq prec
     else PairedEnd.fwSeq (PairedEnd.syncOrientation prec rv) = PairedEnd.fwSeq prec)
  ∧ length (PairedEnd.fwSeq (PairedEnd.syncOrientation prec rv))
    = length (PairedEnd.fwSeq prec)
  ∧ length (PairedEnd.revSeq (PairedEnd.syncOrientation prec rv))
    = length (PairedEnd.revSeq prec).
Proof.
  destruct rec as [i sq bc], prec as [pi fw rv' pbc].
  unfold syncOrientation, PairedEnd.syncOrientation.
  split; [done|]. split; [done|]. split; [done|]. split; [done|].
  split; [by destruct rv|]. split; [by destruct rv|].
  split; [by destruct rv|]. split; [by destruct rv|].
  split; [intros k Hk; cbn -[reverseComplement] in *; by apply reverseComplement_lookup|].
  destruct rv; cbn -[reverseComplement];
    rewrite ?reverseComplement_involutive, ?reverseComplement_length;
    repeat split; reflexivity.
Qed.

Lemma syncOrientation_involutive_witness :
  seq (syncOrientation rec_r1 false) !! 0 = Some (mkDna5Q T 30).
Proof.
  destruct (syncOrientation_involutive rec_r1 pair_p1 false)
    as (_ & _ & _ & _ & _ & _ & _ & _ & H & _).
  rewrite (H 0); [reflexivity|]. cbn. lia.
Defined.

(** ** Splitting the barcode off a record *)

(** X4. On a pair, [splitBarcodeSeq] takes the barcode from the reverse read
    when [barcodeVDJRead] is set and from the forward read otherwise. When
    that read has at least [n > 0] residues the call returns [true], the
    barcode followed by what is left of the read is the read as it was, and
    the other read and the identifier are untouched. When the read is
    shorter the call returns [false], both reads stay and the barcode is
    emptied. On a single-end record the one read is split likewise. *)
Theorem splitBarcodeSeq_rec_paired (rec : PairedEnd.FastqRecord) (vdj : bool) (n : nat) :
  let read r := if vdj then PairedEnd.revSeq r else PairedEnd.fwSeq r in
  let other r := if vdj then PairedEnd.fwSeq r else PairedEnd.revSeq r in
  (0 < n ≤ length (read rec) →
   ∃ rec', PairedEnd.splitBarcodeSeq_rec rec vdj n = (true, rec')
     ∧ PairedEnd.bcSeq rec' ++ read rec' = read rec
     ∧ length (PairedEnd.bcSeq rec') = n
     ∧ other rec' = other rec
     ∧ PairedEnd.id rec' = PairedEnd.id rec)
  ∧ (length (read rec) < n →
     PairedEnd.splitBarcodeSeq_rec rec vdj n
     = (false, PairedEnd.mkFastqRecord (PairedEnd.id rec) (PairedEnd.fwSeq rec)
                 (PairedEnd.revSeq rec) []))
  ∧ (∀ (srec : FastqRecord) (b : bool),
       0 < n ≤ length (seq srec) →
       ∃ srec', splitBarcodeSeq_rec srec b n = (true, srec')
         ∧ bcSeq srec' ++ seq srec' = seq srec
         ∧ length (bcSeq srec') = n
         ∧ id srec' = id srec).
Proof.
  cbn. split; [|split].
  - intros Hn. unfold PairedEnd.splitBarcodeSeq_rec. destruct vdj.
    + rewrite splitBarcodeSeq_long by done. eexists. split; [done|]. cbn.
      rewrite take_drop, length_take. repeat split; lia.
    + rewrite splitBarcodeSeq_long by done. eexists. split; [done|]. cbn.
      rewrite take_drop, length_take. repeat split; lia.
  - intros Hn. unfold PairedEnd.splitBarcodeSeq_rec. destruct vdj.
    + by rewrite splitBarcodeSeq_short.
    + by rewrite splitBarcodeSeq_short.
  - intros srec b Hn. unfold splitBarcodeSeq_rec.
    rewrite splitBarcodeSeq_long by done. eexists. split; [done|]. cbn.
    rewrite take_drop, length_take. repeat split; lia.
Qed.

Lemma splitBarcodeSeq_rec_paired_witness :
  (∃ rec', PairedEnd.splitBarcodeSeq_rec test_pair true 10 = (true, rec')
     ∧ PairedEnd.bcSeq rec' ++ PairedEnd.revSeq rec' = withQuality 60 test_rev
     ∧ length (PairedEnd.bcSeq rec') = 10
     ∧ PairedEnd.fwSeq rec' = withQuality 60 test_fw
     ∧ PairedEnd.id rec' = "")
  ∧ PairedEnd.splitBarcodeSeq_rec test_pair false 23
    = (false, PairedEnd.mkFastqRecord "" (withQuality 60 test_fw) (withQuality 60 test_rev) [])
  ∧ ∃ srec', splitBarcodeSeq_rec rec_r1 false 3 = (true, srec')
      ∧ bcSeq srec' ++ seq srec' = seq rec_r1
      ∧ length (bcSeq srec') = 3
      ∧ id srec' = "r1".
Proof.
  split; [|split].
  - destruct (splitBarcodeSeq_rec_paired test_pair true 10) as (H & _ & _).
    apply H. cbn. lia.
  - destruct (splitBarcodeSeq_rec_paired test_pair false 23) as (_ & H & _).
    apply H. cbn. lia.
  - destruct (splitBarcodeSeq_rec_paired test_pair false 3) as (_ & _ & H).
    apply (H rec_r1 false). cbn. lia.
Defined.

(** ** The length test and the first quality control *)


(** X5. The length test on a pair lets it pass exactly when the reverse read
    has the minimum length and the forward read has it too or the fallback
    flag is set. It never changes identifier, reverse read or barcode; the
    forward read is emptied exactly when the pair passes through the
    fallback, and after a pass the forward read is empty or has the minimum
    length. On a single-end record the test compares the one read. *)
Theorem readTooShort_paired (rec : PairedEnd.FastqRecord) (minLength : nat)
    (fallback : bool) (srec : FastqRecord) :
  let out := PairedEnd.readTooShort rec minLength fallback in
  (out.1 = false
   ↔ minLength ≤ length (PairedEnd.revSeq rec)
     ∧ (minLength ≤ length (PairedEnd.fwSeq rec) ∨ fallback = true))
  ∧ PairedEnd.id out.2 = PairedEnd.id rec
  ∧ PairedEnd.revSeq out.2 = PairedEnd.revSeq rec
  ∧ PairedEnd.bcSeq out.2 = PairedEnd.bcSeq rec
  ∧ (PairedEnd.fwSeq out.2 = PairedEnd.fwSeq rec ∨ PairedEnd.fwSeq out.2 = [])
  ∧ (out.2 ≠ rec →
     out.1 = false ∧ fallback = true ∧ length (PairedEnd.fwSeq rec) < minLength)
  ∧ (out.1 = false →
     PairedEnd.fwSeq out.2 = [] ∨ minLength ≤ length (PairedEnd.fwSeq out.2))
  ∧ (readTooShort srec minLength fallback = true ↔ length (seq srec) < minLength).
Proof.
  cbn. unfold PairedEnd.readTooShort, readTooShort. destruct rec as [i fw rv bc]. cbn.
  split; [|split; [|split; [|split; [|split; [|split; [|split]]]]]];
    repeat case_decide; destruct fallback; cbn;
    intuition (first [lia | congruence]).
Qed.

Lemma readTooShort_paired_witness :
  PairedEnd.readTooShort pair_p1 5 true
  = (false, PairedEnd.mkFastqRecord "p1" [] (withQuality 30 GATTACA) (withQuality 40 AAAA)).
Proof.
  destruct (readTooShort_paired pair_p1 5 true rec_r1)
    as (Hpass & Hid & Hrev & Hbc & _ & _ & Hfw & _).
  destruct (PairedEnd.readTooShort pair_p1 5 true) as [short [i fw rv bc]] eqn:Hout.
  cbn in *. subst i rv bc.
  assert (short = false) as -> by (apply Hpass; split; [lia|by right]).
  destruct (Hfw eq_refl) as [->|Hlong]; [reflexivity|].
  vm_compute in Hout. injection Hout as <-. cbn in Hlong. lia.
Defined.



(** * Further properties of [fastq_multi_record.h] *)

(** ** The running mean *)

Lemma updateMeanQualityValues_seq_isOk (q : list float) (w : Z) (s : list Dna5Q) :
  (isOk (updateMeanQualityValues_seq q w s) = true
   ↔ (length q = 0 ∧ w = 0%Z) ∨ (length q = length s ∧ (0 < w)%Z))
  ∧ (updateMeanQualityValues_seq q w s = Fault CheckFailure
     ∨ isOk (updateMeanQualityValues_seq q w s) = true).
Proof.
  split.
  - split.
    + unfold updateMeanQualityValues_seq, SEQAN_CHECK.
      destruct (_ || _) eqn:Hc; [|done]. intros _.
      apply orb_true_iff in Hc as [Hc|Hc]; apply bool_decide_eq_true in Hc; auto.
    + intros Hpre. by destruct (updateMeanQualityValues_seq_Ok q w s Hpre) as (q' & -> & _).
  - unfold updateMeanQualityValues_seq, SEQAN_CHECK. destruct (_ || _); cbn; auto.
Qed.

(** X7. The two forms of [updateMeanQualityValues] return exactly when
    their checked condition holds and fault otherwise. Folding a read in
    needs an empty vector with weight 0 or a vector of the length of the
    read with a positive weight, and gives a vector of the length of the
    read. Combining two vectors needs an empty target with weight 0 or two
    non-empty vectors of equal length, and gives a vector of the length of
    the incoming one; an empty target takes over the incoming vector as it
    is. *)
Theorem updateMeanQualityValues_checked (q : list float) (w : Z) (s : list Dna5Q)
    (t n : list float) (tw nw : Z) :
  (isOk (updateMeanQualityValues_seq q w s) = true
   ↔ (length q = 0 ∧ w = 0%Z) ∨ (length q = length s ∧ (0 < w)%Z))
  ∧ (∀ q', updateMeanQualityValues_seq q w s = Ok q' → length q' = length s)
  ∧ (updateMeanQualityValues_seq q w s = Fault CheckFailure
     ∨ isOk (updateMeanQualityValues_seq q w s) = true)
  ∧ (isOk (updateMeanQualityValues_weighted t tw n nw) = true
     ↔ (length t = 0 ∧ tw = 0%Z) ∨ (length t = length n ∧ 0 < length t))
  ∧ (∀ t', updateMeanQualityValues_weighted t tw n nw = Ok t' → length t' = length n)
  ∧ (t = [] → tw = 0%Z → updateMeanQualityValues_weighted t tw n nw = Ok n).
Proof.
  split; [|split; [|split; [|split; [|split]]]].
  - apply updateMeanQualityValues_seq_isOk.
  - intros q' Hq'. unfold updateMeanQualityValues_seq, SEQAN_CHECK in Hq'.
    destruct (_ || _) eqn:Hc; [|done].
    apply orb_true_iff in Hc as [Hc|Hc]; apply bool_decide_eq_true in Hc.
    + destruct (updateMeanQualityValues_seq_Ok q w s (or_introl Hc)) as (q'' & Hq'' & Hlen & _).
      unfold updateMeanQualityValues_seq in Hq''. rewrite SEQAN_CHECK_true in Hq''.
      * cbn in Hq', Hq''. congruence.
      * apply orb_true_iff. left. by apply bool_decide_eq_true.
    + destruct (updateMeanQualityValues_seq_Ok q w s (or_intror Hc)) as (q'' & Hq'' & Hlen & _).
      unfold updateMeanQualityValues_seq in Hq''. rewrite SEQAN_CHECK_true in Hq''.
      * cbn in Hq', Hq''. congruence.
      * apply orb_true_iff. right. by apply bool_decide_eq_true.
  - apply updateMeanQualityValues_seq_isOk.
  - unfold updateMeanQualityValues_weighted, SEQAN_CHECK. split.
    + destruct (_ || _) eqn:Hc; [|done]. intros _.
      apply orb_true_iff in Hc as [Hc|Hc]; apply bool_decide_eq_true in Hc; auto.
    + intros Hpre. destruct (_ || _) eqn:Hc.
      * cbn. by case_decide.
      * apply orb_false_iff in Hc as [Hc1 Hc2].
        apply bool_decide_eq_false in Hc1, Hc2. tauto.
  - intros t'. unfold updateMeanQualityValues_weighted, SEQAN_CHECK.
    destruct (_ || _) eqn:Hc; [|done]. cbn. case_decide as Hz.
    + by intros [= <-].
    + intros [= <-]. rewrite length_zip_with.
      apply orb_true_iff in Hc as [Hc|Hc]; apply bool_decide_eq_true in Hc; lia.
  - intros -> ->. reflexivity.
Qed.

Lemma updateMeanQualityValues_checked_witness :
  length (replicate 7 (F32.of_Z 30)) = length (withQuality 10 GATTACA)
  ∧ updateMeanQualityValues_weighted [] 0 (replicate 7 (F32.of_Z 30)) 1
    = Ok (replicate 7 (F32.of_Z 30)).
Proof.
  destruct (updateMeanQualityValues_checked [] 0 (withQuality 30 GATTACA)
              [] (replicate 7 (F32.of_Z 30)) 0 1) as (_ & Hlen & _ & _ & _ & Hinit).
  split.
  - rewrite (Hlen (replicate 7 (F32.of_Z 30))); [reflexivity|]. vm_compute. reflexivity.
  - apply Hinit; reflexivity.
Defined.

(** ** Aggregates *)

(** X8. [newMultiRecord] never faults. The aggregate it makes holds the one
    identifier of the record, means of the length of the read, and the
    content of the record: the skeleton record made from it is looked up
    in any collection where the record itself is, and has an empty
    identifier. *)
Theorem newMultiRecord_content (record : FastqRecord) :
  ∃ m, newMultiRecord record = Ok m
    ∧ ids m = {[ id record ]}
    ∧ length (qualities m) = length (seq record)
    ∧ length (mSeq m) = length (seq record)
    ∧ id (toFastqRecordSkel m) = ""
    ∧ contentKey (toFastqRecordSkel m) = contentKey record
    ∧ ∀ coll, findMultiRecordPosition coll (toFastqRecordSkel m)
              = findMultiRecordPosition coll record.
Proof.
  destruct (newMultiRecord_Ok record) as (q & Hm & Hlen & _).
  eexists. split; [exact Hm|]. cbn. unfold contentKey. cbn.
  rewrite !toDna5_toDna5Q. unfold toDna5 at 1. rewrite length_fmap.
  repeat split; try done.
  intros coll. unfold findMultiRecordPosition. cbn. by rewrite !toDna5_toDna5Q.
Qed.

(** X9. [updateMultiRecord] returns exactly when the identifier of the record
    is not yet in the aggregate and the means can take the read (they are
    empty with no identifier, or of the length of the read with at least
    one). Adding an identifier a second time faults, and so does a read of
    another length: the function does not compare the sequences. *)
Theorem updateMultiRecord_checked (m : FastqMultiRecord) (r : FastqRecord) :
  (isOk (updateMultiRecord m r) = true
   ↔ (id r ∉ ids m)
     ∧ ((length (qualities m) = 0 ∧ size (ids m) = 0)
        ∨ (length (qualities m) = length (seq r) ∧ 0 < size (ids m))))
  ∧ (id r ∈ ids m → updateMultiRecord m r = Fault CheckFailure)
  ∧ (0 < size (ids m) → length (qualities m) ≠ length (seq r) →
     updateMultiRecord m r = Fault CheckFailure).
Proof.
  assert (id r ∈ ids m → updateMultiRecord m r = Fault CheckFailure) as Hdup.
  { intros Hin. unfold updateMultiRecord.
    replace ({[id r]} ∪ ids m) with (ids m)
      by (symmetry; by apply subseteq_union_1_L, singleton_subseteq_l).
    rewrite bool_decide_eq_false_2 by lia. done. }
  assert (∀ pre : Prop, id r ∉ ids m →
            (isOk (updateMeanQualityValues_seq (qualities m) (Z.of_nat (size (ids m))) (seq r))
             = true ↔ pre) →
            (isOk (updateMultiRecord m r) = true ↔ pre)) as Hmean.
  { intros pre Hid Hiff. unfold updateMultiRecord.
    rewrite SEQAN_CHECK_true
      by (apply bool_decide_eq_true; rewrite size_insert_new; [lia|done]).
    cbn. rewrite <- Hiff.
    by destruct (updateMeanQualityValues_seq _ _ _). }
  pose proof (updateMeanQualityValues_seq_isOk (qualities m) (Z.of_nat (size (ids m)))
                (seq r)) as (Hiff & Hfault).
  split; [|split; [exact Hdup|]].
  - destruct (decide (id r ∈ ids m)) as [Hin|Hnin].
    + rewrite (Hdup Hin). cbn. split; [done|]. by intros [? _].
    + rewrite (Hmean _ Hnin Hiff). split.
      * intros [[? ?]|[? ?]]; (split; [done|]); [left|right]; split; lia.
      * intros [_ [[? ?]|[? ?]]]; [left|right]; split; lia.
  - intros Hpos Hlen. destruct (decide (id r ∈ ids m)) as [Hin|Hnin]; [by apply Hdup|].
    unfold updateMultiRecord.
    rewrite SEQAN_CHECK_true
      by (apply bool_decide_eq_true; rewrite size_insert_new; [lia|done]).
    cbn. destruct Hfault as [->|Hok]; [done|].
    apply Hiff in Hok. lia.
Qed.

Lemma updateMultiRecord_checked_witness :
  updateMultiRecord mrec_r1 rec_r1 = Fault CheckFailure
  ∧ updateMultiRecord mrec_r1 (mkFastqRecord "r9" (withQuality 30 AAAA) [])
    = Fault CheckFailure.
Proof.
  split.
  - destruct (updateMultiRecord_checked mrec_r1 rec_r1) as (_ & H & _).
    apply H. cbn. by apply elem_of_singleton.
  - destruct (updateMultiRecord_checked mrec_r1
                (mkFastqRecord "r9" (withQuality 30 AAAA) [])) as (_ & _ & H).
    apply H.
    + cbn. rewrite size_singleton. lia.
    + cbn. lia.
Defined.

(** ** The index and the store *)

(** X10. [mapMultiRecord] faults when the content of the aggregate is
    already indexed. Otherwise it appends the aggregate at the slot equal to
    the old length of the store, leaves the older slots as they were, and
    registers the slot under the content: the content is found at the new
    slot, the slot holds the aggregate, and every other content is looked
    up as before. *)
Theorem mapMultiRecord_registers (coll : FastqMultiRecordCollection) (m : FastqMultiRecord) :
  (is_Some (findMultiRecordPosition_seqs coll (mBcSeq m) (mSeq m)) →
   mapMultiRecord coll m = Fault CheckFailure)
  ∧ (findMultiRecordPosition_seqs coll (mBcSeq m) (mSeq m) = None →
     ∃ coll', mapMultiRecord coll m = Ok (coll', length (multiRecordPtrs coll))
       ∧ multiRecordPtrs coll' = multiRecordPtrs coll ++ [m]
       ∧ getMultiRecord coll' (length (multiRecordPtrs coll)) = Ok m
       ∧ findMultiRecordPosition_seqs coll' (mBcSeq m) (mSeq m)
         = Some (length (multiRecordPtrs coll))
       ∧ ∀ bc sq, (bc, sq) ≠ (mBcSeq m, mSeq m) →
           findMultiRecordPosition_seqs coll' bc sq = findMultiRecordPosition_seqs coll bc sq).
Proof.
  split.
  - intros [i Hi]. unfold mapMultiRecord.
    apply findMultiRecordPosition_seqs_Some in Hi as (sm & Hbc & Hsq).
    rewrite Hbc. cbn. rewrite bool_decide_eq_false_2 by congruence. done.
  - intros Hnone. eexists. split; [by apply mapMultiRecord_Ok|]. cbn.
    split; [done|]. split; [|split].
    + apply getMultiRecord_lookup. cbn. by rewrite lookup_app_r, Nat.sub_diag.
    + apply findMultiRecordPosition_seqs_insert.
    + intros bc sq Hne.
      rewrite (findMultiRecordPosition_seqs_register (multiRecordPtrs coll)).
      rewrite decide_False by done. by destruct coll.
Qed.

Lemma mapMultiRecord_registers_witness :
  mapMultiRecord coll_r1 mrec_r2 = Fault CheckFailure
  ∧ ∃ coll', mapMultiRecord emptyCollection mrec_r2 = Ok (coll', 0)
      ∧ getMultiRecord coll' 0 = Ok mrec_r2
      ∧ findMultiRecordPosition_seqs coll' AAAA GATTACA = Some 0.
Proof.
  split.
  - destruct (mapMultiRecord_registers coll_r1 mrec_r2) as [H _].
    apply H. exists 0. vm_compute. reflexivity.
  - destruct (mapMultiRecord_registers emptyCollection mrec_r2) as [_ H].
    destruct H as (coll' & Hmap & _ & Hget & Hfind & _); [reflexivity|].
    exists coll'. split; [exact Hmap|]. split; [exact Hget|exact Hfind].
Defined.





(** ** [mergeRecord] *)





(** X15. [mergeRecord] faults when the content is indexed and the aggregate
    in the slot has identifiers but an empty mean vector: the check of the
    two-group form takes a target of length 0 for a target without weight.
    This is the state of an aggregate of an empty sequence, and, paired-end,
    of every aggregate whose forward read was given up by the single-end
    fallback. *)
Theorem mergeRecord_empty_means_fault :
  (∀ (coll : FastqMultiRecordCollection) (rec m : FastqMultiRecord) (slot : nat),
     findMultiRecordPosition_seqs coll (mBcSeq rec) (mSeq rec) = Some slot →
     multiRecordPtrs coll !! slot = Some m →
     qualities m = [] → 0 < size (ids m) →
     mergeRecord coll rec = Fault CheckFailure)
  ∧ (∀ (coll : PairedEnd.FastqMultiRecordCollection) (rec m : PairedEnd.FastqMultiRecord)
       (slot : nat),
       PairedEnd.findMultiRecordPosition coll (PairedEnd.toFastqRecordSkel rec) = Some slot →
       PairedEnd.multiRecordPtrs coll !! slot = Some m →
       PairedEnd.fwQualities m = [] → 0 < size (PairedEnd.ids m) →
       PairedEnd.mergeRecord coll rec = Fault CheckFailure)
  ∧ (∀ r : PairedEnd.FastqRecord,
       PairedEnd.fwSeq r = [] →
       ∃ m, PairedEnd.newMultiRecord r = Ok m
         ∧ PairedEnd.fwQualities m = [] ∧ 0 < size (PairedEnd.ids m)).
Proof.
  split; [|split].
  - intros coll rec m slot Hpos Hm Hq Hsz.
    unfold mergeRecord, findContainingMultiRecord.
    rewrite findContaining_skel, Hpos, (getMultiRecord_lookup _ _ _ Hm). cbn.
    assert (updateMeanQualityValues m rec = Fault CheckFailure) as Hfault.
    { unfold updateMeanQualityValues, updateMeanQualityValues_weighted. rewrite Hq. cbn.
      rewrite bool_decide_eq_false_2 by lia.
      rewrite bool_decide_eq_false_2 by lia. done. }
    destruct (decide ("" ∈ ids m)); cbn;
      rewrite (getMultiRecord_lookup _ _ _ Hm); cbn; by rewrite Hfault.
  - intros coll rec m slot Hpos Hm Hq Hsz.
    unfold PairedEnd.mergeRecord, PairedEnd.findContainingMultiRecord.
    rewrite Hpos, (proj2 (pe_getMultiRecord_Ok _ _ _) Hm). cbn.
    assert (PairedEnd.updateMeanQualityValues m rec = Fault CheckFailure) as Hfault.
    { unfold PairedEnd.updateMeanQualityValues, updateMeanQualityValues_weighted.
      rewrite Hq. cbn.
      rewrite (bool_decide_eq_false_2 (0 = 0 ∧ _ = 0%Z)) by lia.
      rewrite (bool_decide_eq_false_2 (0 = _ ∧ 0 < 0)) by lia. done. }
    destruct (decide ("" ∈ PairedEnd.ids m)); cbn;
      rewrite (proj2 (pe_getMultiRecord_Ok _ _ _) Hm); cbn; by rewrite Hfault.
  - intros r Hfw. destruct (pe_newMultiRecord_Ok r) as (fq & rq & Hnew & Hlen & _).
    eexists. split; [exact Hnew|]. cbn. rewrite Hfw in Hlen.
    split; [by destruct fq|]. rewrite size_singleton. lia.
Qed.

Lemma mergeRecord_empty_means_fault_witness :
  PairedEnd.mergeRecord pcoll_fallback pmrec_fallback2 = Fault CheckFailure.
Proof.
  destruct mergeRecord_empty_means_fault as (_ & H & _).
  apply (H pcoll_fallback pmrec_fallback2 pmrec_fallback 0).
  - vm_compute. reflexivity.
  - reflexivity.
  - reflexivity.
  - cbn. rewrite size_singleton. lia.
Defined.

(** ** [getBarcodeStats] *)

Lemma getBarcodeStats_seqs_isOk (coll : FastqMultiRecordCollection)
    (entries : list (list Dna5 * nat)) (cnt u : Z) :
  (isOk (getBarcodeStats_seqs coll entries cnt u) = true
   ↔ Forall (fun e => e.2 < length (multiRecordPtrs coll)) entries)
  ∧ (getBarcodeStats_seqs coll entries cnt u = Fault CheckFailure
     ∨ isOk (getBarcodeStats_seqs coll entries cnt u) = true).
Proof.
  revert cnt u. induction entries as [|[sq i] entries IH]; intros cnt u; cbn.
  - split; [|by right]. split; [by constructor|done].
  - destruct (decide (i < length (multiRecordPtrs coll))) as [Hi|Hi].
    + destruct (lookup_lt_is_Some_2 _ _ Hi) as [m Hm].
      rewrite (getMultiRecord_lookup _ _ _ Hm). cbn.
      match goal with |- context [getBarcodeStats_seqs coll entries ?c ?v] =>
        destruct (IH c v) as [IH1 IH2] end.
      split; [|done]. rewrite IH1. split.
      * intros H. by constructor.
      * intros H. by inversion H.
    + assert (getMultiRecord coll i = Fault CheckFailure) as ->.
      { unfold getMultiRecord. by rewrite bool_decide_eq_false_2. }
      cbn. split; [|by left]. split; [done|]. intros H. inversion H. done.
Qed.

Lemma getBarcodeStats_bcs_isOk (coll : FastqMultiRecordCollection)
    (entries : list (list Dna5 * gmap (list Dna5) nat)) (stats : BarcodeStats) :
  (isOk (getBarcodeStats_bcs coll entries stats) = true
   ↔ Forall (fun e => ∀ sq i, e.2 !! sq = Some i → i < length (multiRecordPtrs coll)) entries)
  ∧ (getBarcodeStats_bcs coll entries stats = Fault CheckFailure
     ∨ isOk (getBarcodeStats_bcs coll entries stats) = true).
Proof.
  revert stats. induction entries as [|[bc sm] entries IH]; intros stats; cbn.
  - split; [|by right]. split; [by constructor|done].
  - destruct (getBarcodeStats_seqs_isOk coll (mapEntries sm) 0 0) as [Hiff Hfault].
    assert (Forall (fun e : list Dna5 * nat => e.2 < length (multiRecordPtrs coll))
              (mapEntries sm)
            ↔ ∀ sq i, sm !! sq = Some i → i < length (multiRecordPtrs coll)) as Hall.
    { rewrite Forall_forall. split.
      - intros H sq i Hi. by apply (H (sq, i)), elem_of_mapEntries.
      - intros H [sq i] Hi. apply elem_of_mapEntries in Hi. by apply (H sq). }
    destruct (getBarcodeStats_seqs coll (mapEntries sm) 0 0) as [[cnt u]|f] eqn:Hseqs; cbn.
    + match goal with |- context [getBarcodeStats_bcs coll entries ?s] =>
        destruct (IH s) as [IH1 IH2] end.
      split; [|done]. rewrite IH1. split.
      * intros H. constructor; [|done]. cbn. by apply (proj1 Hall), (proj1 Hiff).
      * intros H. by inversion H.
    + destruct Hfault as [[= ->]|Hok]; [|done]. split; [|by left].
      split; [done|]. intros H. inversion H as [|? ? Hsm _]. cbn in Hsm.
      pose proof (proj2 Hiff (proj2 Hall Hsm)). done.
Qed.

(** X16. [getBarcodeStats] returns exactly when every slot the index refers
    to exists; otherwise the checked access to the store fails. The counters
    wrap around, so no size of the collection makes it fault. *)
Theorem getBarcodeStats_valid (coll : FastqMultiRecordCollection) :
  (isOk (getBarcodeStats coll) = true ↔ slotsValid coll)
  ∧ (¬ slotsValid coll → getBarcodeStats coll = Fault CheckFailure).
Proof.
  destruct (getBarcodeStats_bcs_isOk coll (mapEntries (bcMap coll)) emptyStats)
    as [Hiff Hfault].
  assert (isOk (getBarcodeStats coll) = true ↔ slotsValid coll) as Hvalid.
  { unfold getBarcodeStats. rewrite Hiff, Forall_forall. split.
    - intros H bc sq i Hi. apply findMultiRecordPosition_seqs_Some in Hi as (sm & Hbc & Hsq).
      apply (H (bc, sm) (proj2 (elem_of_mapEntries _ _ _) Hbc) sq i Hsq).
    - intros H [bc sm] Hin sq i Hsq. apply elem_of_mapEntries in Hin.
      apply (H bc sq). apply findMultiRecordPosition_seqs_Some. eauto. }
  split; [exact Hvalid|]. intros Hn.
  destruct Hfault as [Hf|Hok]; [exact Hf|]. by apply Hvalid in Hok.
Qed.

Lemma getBarcodeStats_valid_witness :
  isOk (getBarcodeStats coll_r1) = true
  ∧ getBarcodeStats (mkCollection [] {[ AAAA := {[ GATTACA := 0 ]} ]}) = Fault CheckFailure.
Proof.
  split.
  - reflexivity.
  - destruct (getBarcodeStats_valid (mkCollection [] {[ AAAA := {[ GATTACA := 0 ]} ]}))
      as [_ H].
    apply H. intros Hvalid. specialize (Hvalid AAAA GATTACA 0). cbn in Hvalid.
    assert (0 < 0) by (apply Hvalid; vm_compute; reflexivity). lia.
Defined.






(** ** The store of a batch *)

Lemma indexSum_entries (f : nat → nat) (bm : gmap (list Dna5) (gmap (list Dna5) nat)) :
  indexSum f bm
  = sum_list_with (fun e : list Dna5 * list Dna5 * nat => f e.2) (indexEntries bm).
Proof.
  unfold indexSum, indexEntries.
  induction (map_to_list bm) as [|[bc sm] l IH]; cbn; [done|].
  rewrite sum_list_with_app, <- IH. f_equal.
  induction (map_to_list sm) as [|[sq i] k IHk]; cbn; [done|]. by rewrite IHk.
Qed.

Lemma elem_of_indexEntries (bm : gmap (list Dna5) (gmap (list Dna5) nat))
    (bc sq : list Dna5) (i : nat) :
  (bc, sq, i) ∈ indexEntries bm ↔ ∃ sm, bm !! bc = Some sm ∧ sm !! sq = Some i.
Proof.
  unfold indexEntries. rewrite list_elem_of_bind. split.
  - intros ([bc' sm] & Hin & Hbm).
    apply list_elem_of_fmap in Hin as ([sq' i'] & [= -> -> ->] & Hin).
    apply elem_of_map_to_list in Hin, Hbm. eauto.
  - intros (sm & Hbc & Hsq). exists (bc, sm). split; [|by apply elem_of_map_to_list].
    apply list_elem_of_fmap. exists (sq, i). split; [done|]. by apply elem_of_map_to_list.
Qed.

Lemma NoDup_indexEntries (bm : gmap (list Dna5) (gmap (list Dna5) nat)) :
  NoDup (indexEntries bm).
Proof.
  unfold indexEntries. apply NoDup_bind.
  - intros [bc1 sm1] [bc2 sm2] [[bc sq] i] H1 H2 Hy1 Hy2.
    apply list_elem_of_fmap in Hy1 as ([sq1 i1] & [= -> -> ->] & _).
    apply list_elem_of_fmap in Hy2 as ([sq2 i2] & [= -> -> ->] & _).
    cbn in *. apply elem_of_map_to_list in H1, H2. congruence.
  - intros [bc sm] _. apply NoDup_fmap_2_strong; [|apply NoDup_map_to_list].
    by intros [sq1 i1] [sq2 i2] _ _ [= -> ->].
  - apply NoDup_map_to_list.
Qed.

Lemma sum_list_with_ones {X} (f : X → nat) (l : list X) :
  Forall (fun x => f x = 1) l → sum_list_with f l = length l.
Proof. induction 1 as [|x l Hx _ IH]; cbn; [done|]. by rewrite Hx, IH. Qed.

(** In the state of a batch the index entries and the slots of the store
    correspond one to one, and the stored contents are pairwise distinct. *)
Lemma batchInv_store (coll : FastqMultiRecordCollection)
    (folded : gset (string * (list Dna5 * list Dna5))) :
  batchInv coll folded →
  totalUnique coll = length (multiRecordPtrs coll)
  ∧ NoDup (storeKey <$> multiRecordPtrs coll)
  ∧ ∀ k, k ∈ storeKey <$> multiRecordPtrs coll ↔ ∃ x, (x, k) ∈ folded.
Proof.
  intros Hinv. split; [|split].
  - unfold totalUnique. rewrite indexSum_entries, sum_list_with_ones.
    + rewrite <- (length_fmap (fun e : list Dna5 * list Dna5 * nat => e.2)).
      rewrite <- (length_seq (length (multiRecordPtrs coll)) 0).
      apply Permutation_length, NoDup_Permutation.
      * apply NoDup_fmap_2_strong; [|apply NoDup_indexEntries].
        intros [[bc1 sq1] i1] [[bc2 sq2] i2] H1 H2 Heq. cbn in Heq. subst i2.
        apply elem_of_indexEntries, findMultiRecordPosition_seqs_Some in H1, H2.
        destruct (inv_slot _ _ Hinv _ _ _ H1) as (m1 & Hm1 & <- & <- & _).
        destruct (inv_slot _ _ Hinv _ _ _ H2) as (m2 & Hm2 & <- & <- & _).
        congruence.
      * apply NoDup_seq.
      * intros i. rewrite elem_of_seq, list_elem_of_fmap. split.
        -- intros ([[bc sq] j] & -> & Hin). cbn.
           apply elem_of_indexEntries, findMultiRecordPosition_seqs_Some in Hin.
           pose proof (batchInv_slotsValid _ _ Hinv bc sq j Hin). lia.
        -- intros [_ Hi]. cbn in Hi.
           destruct (lookup_lt_is_Some_2 (multiRecordPtrs coll) i Hi) as [m Hm].
           exists (mBcSeq m, mSeq m, i). split; [done|].
           apply elem_of_indexEntries, findMultiRecordPosition_seqs_Some.
           by apply (inv_store _ _ Hinv).
    + apply Forall_forall. intros [[bc sq] i] Hin. cbn.
      apply elem_of_indexEntries, findMultiRecordPosition_seqs_Some in Hin.
      destruct (inv_slot _ _ Hinv _ _ _ Hin) as (m & Hm & _ & _ & _ & Hsz & _).
      unfold slotUnique, slotReads. rewrite Hm. cbn. by rewrite decide_True.
  - apply NoDup_alt. intros i j k. rewrite !list_lookup_fmap.
    destruct (multiRecordPtrs coll !! i) as [m|] eqn:Hi; [|done].
    destruct (multiRecordPtrs coll !! j) as [m'|] eqn:Hj; [|done]. cbn.
    intros [= <-] [= Hb Hs].
    apply (inv_store _ _ Hinv) in Hi, Hj. rewrite Hb, Hs in Hj. congruence.
  - intros [bc sq]. rewrite list_elem_of_fmap. split.
    + intros (m & [= -> ->] & Hin). apply list_elem_of_lookup in Hin as [i Hi].
      pose proof (inv_store _ _ Hinv i m Hi) as Hpos.
      destruct (inv_slot _ _ Hinv _ _ _ Hpos) as (m' & Hm' & _ & _ & _ & Hsz & Hids).
      apply size_pos_elem_of in Hsz as [x Hx]. exists x. by apply Hids.
    + intros [x Hx]. destruct (inv_indexed _ _ Hinv x bc sq Hx) as [i Hi].
      destruct (inv_slot _ _ Hinv _ _ _ Hi) as (m & Hm & <- & <- & _).
      exists m. split; [done|]. by eapply list_elem_of_lookup_2.
Qed.

(** X18. After one call of [readRecords] (with a progress bar, and a file of
    fewer than [2^64] entries) the store holds one aggregate for every
    distinct content (barcode and sequence) among the accepted records and
    no other: the contents of the aggregates are pairwise distinct, and
    [nTotalUniqueReads] is the number of aggregates. *)
Theorem readRecords_unique_reads
    (anyQualityBelow : list Dna5Q -> Z -> bool)
    (averageQualityBelow : FastqRecord -> Z -> bool -> bool)
    (coll : FastqMultiRecordCollection) (rej : list RejectEvent)
    (inStreams : SeqInputStreams) (options : CdrOptions) (count : Z) :
  (0 ≤ count < 2 ^ 32)%Z →
  (0 < totalInBytes inStreams)%Z →
  (Z.of_nat (length (stream inStreams)) < 2 ^ 64)%Z →
  let n := consumed count (stream inStreams) in
  let acc := accepted anyQualityBelow averageQualityBelow options emptyRecord
               (take n (stream inStreams)) in
  ∃ coll' rej' rest more stats,
    readRecords anyQualityBelow averageQualityBelow coll rej inStreams options count
      = Ok (coll', rej', rest, more)
    ∧ getBarcodeStats coll' = Ok stats
    ∧ nTotalUniqueReads stats = Z.of_nat (length (multiRecordPtrs coll'))
    ∧ length (multiRecordPtrs coll')
      = size (list_to_set (contentKey <$> acc) : gset (list Dna5 * list Dna5))
    ∧ NoDup (storeKey <$> multiRecordPtrs coll')
    ∧ ∀ k, k ∈ storeKey <$> multiRecordPtrs coll' ↔ k ∈ contentKey <$> acc.
Proof.
  intros Hc Hpos Hlen n acc.
  destruct (readRecords_batch anyQualityBelow averageQualityBelow coll rej inStreams
              options count Hc Hpos) as (coll' & Hrun & Hinv).
  fold n acc in Hrun, Hinv.
  pose proof (accepted_rejected_length anyQualityBelow averageQualityBelow options
                emptyRecord (take n (stream inStreams))) as Hcount.
  fold acc in Hcount.
  assert (n ≤ length (stream inStreams)) as Hn.
  { subst n. unfold consumed. case_decide; lia. }
  rewrite length_take, Nat.min_l in Hcount by done.
  pose proof (size_list_to_set_le (readKey <$> acc)) as Hsz. rewrite length_fmap in Hsz.
  destruct (getBarcodeStats_plain coll') as (stats & Hstats & _ & Hq & _).
  { by eapply batchInv_slotsValid. }
  { rewrite (inv_total _ _ Hinv). lia. }
  destruct (batchInv_store _ _ Hinv) as (Huniq & Hnd & Hkeys).
  assert (∀ k, k ∈ storeKey <$> multiRecordPtrs coll' ↔ k ∈ contentKey <$> acc) as Hsame.
  { intros k. rewrite Hkeys. split.
    - intros [x Hx]. apply elem_of_list_to_set, list_elem_of_fmap in Hx as (r & [= -> ->] & Hr).
      apply list_elem_of_fmap. by exists r.
    - intros (r & -> & Hr)%list_elem_of_fmap. exists (id r).
      apply elem_of_list_to_set, list_elem_of_fmap. by exists r. }
  eexists _, _, _, _, stats. split; [exact Hrun|]. split; [exact Hstats|].
  split; [by rewrite Hq, Huniq|]. split; [|by split].
  rewrite <- (length_fmap storeKey), <- (size_list_to_set (C := gset _)) by done.
  f_equal. apply set_eq. intros k. by rewrite !elem_of_list_to_set.
Qed.

Lemma readRecords_unique_reads_witness :
  ∃ coll' rej' rest more stats,
    readRecords noQualityBelow noAverageBelow emptyCollection [] stream_twice opts_bc4 0
      = Ok (coll', rej', rest, more)
    ∧ getBarcodeStats coll' = Ok stats
    ∧ nTotalUniqueReads stats = Z.of_nat (length (multiRecordPtrs coll'))
    ∧ length (multiRecordPtrs coll') = 1.
Proof.
  destruct (readRecords_unique_reads noQualityBelow noAverageBelow emptyCollection []
              stream_twice opts_bc4 0)
    as (coll' & rej' & rest & more & stats & Hrun & Hstats & Huniq & Hlen & _).
  - cbn. lia.
  - cbn. lia.
  - cbn. lia.
  - exists coll', rej', rest, more, stats.
    split; [exact Hrun|]. split; [exact Hstats|]. split; [exact Huniq|].
    rewrite Hlen. vm_compute. reflexivity.
Defined.

(** ** Reading a file in several calls *)

(** The record of the previous iteration reaches an iteration through its
    barcode only, and only when no barcode is split off; it is empty there,
    as in the record a call starts with. *)
Lemma readRecords_read_start (options : CdrOptions) (r : FastqRecord) (raw : RawRecord) :
  0 < barcodeLength options ∨ bcSeq r = [] →
  readRecords_read options r raw = readRecords_read options emptyRecord raw
  ∧ (0 < barcodeLength options ∨ bcSeq (readRecords_read options r raw).2 = []).
Proof.
  intros Hr. unfold readRecords_read, readRecord_split, splitBarcodeSeq_rec, readRecord.
  destruct (decide (0 < barcodeLength options)) as [Hpos|Hpos].
  - split; [|by left]. cbn. unfold splitBarcodeSeq.
    repeat case_decide; try lia; done.
  - destruct Hr as [?|Hr]; [done|]. rewrite Hr. split; [done|by right].
Qed.

Section Chunks.

Variable anyQualityBelow : list Dna5Q -> Z -> bool.
Variable averageQualityBelow : FastqRecord -> Z -> bool -> bool.

Lemma accepted_rejected_start (options : CdrOptions) (r : FastqRecord)
    (entries : list RawRecord) :
  0 < barcodeLength options ∨ bcSeq r = [] →
  accepted anyQualityBelow averageQualityBelow options r entries
  = accepted anyQualityBelow averageQualityBelow options emptyRecord entries
  ∧ rejected anyQualityBelow averageQualityBelow options r entries
    = rejected anyQualityBelow averageQualityBelow options emptyRecord entries.
Proof.
  intros Hr. destruct entries as [|raw rest]; cbn; [done|].
  by destruct (readRecords_read_start options r raw Hr) as [-> _].
Qed.

Lemma accepted_rejected_app (options : CdrOptions) (r : FastqRecord)
    (l1 l2 : list RawRecord) :
  0 < barcodeLength options ∨ bcSeq r = [] →
  accepted anyQualityBelow averageQualityBelow options r (l1 ++ l2)
  = accepted anyQualityBelow averageQualityBelow options r l1
    ++ accepted anyQualityBelow averageQualityBelow options emptyRecord l2
  ∧ rejected anyQualityBelow averageQualityBelow options r (l1 ++ l2)
    = rejected anyQualityBelow averageQualityBelow options r l1
      ++ rejected anyQualityBelow averageQualityBelow options emptyRecord l2.
Proof.
  revert r. induction l1 as [|raw rest IH]; intros r Hr.
  - by apply accepted_rejected_start.
  - cbn. destruct (readRecords_read_start options r raw Hr) as [_ Hr'].
    destruct (readRecords_read options r raw) as [tsfb r']. cbn in Hr'.
    destruct (IH r' Hr') as [-> ->]. by case_decide.
Qed.

End Chunks.



(** X20. Reading a file in two calls, the first with a count and the second
    for what is left, gives the reject log of one call for the whole file,
    and the records accepted in the two calls are those accepted in the one,
    in the same order. Every call starts from an empty record, so the second
    call decides about an entry as the single call does. *)
Theorem readRecords_chunks
    (anyQualityBelow : list Dna5Q -> Z -> bool)
    (averageQualityBelow : FastqRecord -> Z -> bool -> bool)
    (coll : FastqMultiRecordCollection) (rej : list RejectEvent)
    (inStreams : SeqInputStreams) (options : CdrOptions) (count : Z) :
  (0 ≤ count < 2 ^ 32)%Z →
  (0 < totalInBytes inStreams)%Z →
  ∃ coll1 rej1 rest more coll2 collAll rejAll,
    readRecords anyQualityBelow averageQualityBelow coll rej inStreams options count
      = Ok (coll1, rej1, rest, more)
    ∧ readRecords anyQualityBelow averageQualityBelow coll1 rej1
        (mkSeqInputStreams rest (totalInBytes inStreams)) options 0
      = Ok (coll2, rejAll, [], false)
    ∧ readRecords anyQualityBelow averageQualityBelow coll rej inStreams options 0
      = Ok (collAll, rejAll, [], false)
    ∧ accepted anyQualityBelow averageQualityBelow options emptyRecord (stream inStreams)
      = accepted anyQualityBelow averageQualityBelow options emptyRecord
          (take (consumed count (stream inStreams)) (stream inStreams))
        ++ accepted anyQualityBelow averageQualityBelow options emptyRecord rest.
Proof.
  intros Hc Hpos.
  destruct (readRecords_batch anyQualityBelow averageQualityBelow coll rej inStreams
              options count Hc Hpos) as (coll1 & Hrun1 & _).
  set (n := consumed count (stream inStreams)) in *.
  destruct (readRecords_batch anyQualityBelow averageQualityBelow coll1
              (rej ++ rejected anyQualityBelow averageQualityBelow options emptyRecord
                        (take n (stream inStreams)))
              (mkSeqInputStreams (drop n (stream inStreams)) (totalInBytes inStreams))
              options 0) as (coll2 & Hrun2 & _); [clear; cbn; lia|done|].
  destruct (readRecords_batch anyQualityBelow averageQualityBelow coll rej inStreams
              options 0) as (collAll & HrunAll & _); [clear; cbn; lia|done|].
  cbn [stream] in Hrun2. unfold consumed in Hrun2, HrunAll.
  rewrite (decide_False (P := (0 < 0)%Z)) in Hrun2, HrunAll by lia.
  rewrite firstn_all, drop_all in Hrun2, HrunAll.
  change (negb (inStreamsAtEnd [])) with false in Hrun2, HrunAll.
  destruct (accepted_rejected_app anyQualityBelow averageQualityBelow options emptyRecord
              (take n (stream inStreams)) (drop n (stream inStreams))) as [Hacc Hrej];
    [by right|].
  rewrite take_drop in Hacc, Hrej.
  eexists _, _, _, _, _, _, _. split; [exact Hrun1|]. split; [exact Hrun2|].
  split; [|exact Hacc]. rewrite HrunAll, Hrej, app_assoc. done.
Qed.

Lemma readRecords_chunks_witness :
  ∃ coll1 rej1 rest more coll2 collAll rejAll,
    readRecords noQualityBelow noAverageBelow emptyCollection [] stream_short opts_bc10 1
      = Ok (coll1, rej1, rest, more)
    ∧ readRecords noQualityBelow noAverageBelow coll1 rej1
        (mkSeqInputStreams rest (totalInBytes stream_short)) opts_bc10 0
      = Ok (coll2, rejAll, [], false)
    ∧ readRecords noQualityBelow noAverageBelow emptyCollection [] stream_short opts_bc10 0
      = Ok (collAll, rejAll, [], false).
Proof.
  destruct (readRecords_chunks noQualityBelow noAverageBelow emptyCollection []
              stream_short opts_bc10 1)
    as (coll1 & rej1 & rest & more & coll2 & collAll & rejAll & H1 & H2 & H3 & _).
  - cbn. lia.
  - cbn. lia.
  - by exists coll1, rej1, rest, more, coll2, collAll, rejAll.
Defined.

(** ** The reject log *)

Lemma rejected_events
    (anyQualityBelow : list Dna5Q -> Z -> bool)
    (averageQualityBelow : FastqRecord -> Z -> bool -> bool)
    (options : CdrOptions) (r : FastqRecord) (entries : list RawRecord) :
  let new := rejected anyQualityBelow averageQualityBelow options r entries in
  rejId <$> new `sublist_of` entries.*1
  ∧ ∀ e, e ∈ new →
      rejReason e ≠ NONE
      ∧ ∃ raw, raw ∈ entries ∧ rejId e = raw.1
          ∧ (rejReason e = TOO_SHORT_FOR_BARCODE
             ↔ 0 < barcodeLength options ∧ length raw.2 < barcodeLength options).
Proof.
  cbn. revert r. induction entries as [|raw rest IH]; intros r; cbn.
  - split; [done|]. intros e He. by apply elem_of_nil in He.
  - pose proof (readRecords_read_id options r raw) as Hid.
    pose proof (readRecords_read_tsfb options r raw) as Htsfb.
    destruct (readRecords_read options r raw) as [tsfb r']. cbn in Hid, Htsfb.
    destruct (IH r') as [Hsub Hall].
    assert (∀ e, e ∈ rejected anyQualityBelow averageQualityBelow options r' rest →
              rejReason e ≠ NONE
              ∧ ∃ raw', raw' ∈ raw :: rest ∧ rejId e = raw'.1
                  ∧ (rejReason e = TOO_SHORT_FOR_BARCODE
                     ↔ 0 < barcodeLength options ∧ length raw'.2 < barcodeLength options))
      as Hall'.
    { intros e He. destruct (Hall e He) as (Hne & raw' & Hin & Hraw). split; [done|].
      exists raw'. split; [by apply list_elem_of_further|done]. }
    case_decide as Hv.
    + split; [by apply sublist_cons|done].
    + split; [cbn; rewrite Hid; by apply sublist_skip|].
      intros e [->|He]%elem_of_cons; [|by apply Hall']. cbn. split; [done|].
      exists raw. split; [apply list_elem_of_here|]. split; [done|].
      rewrite <- Htsfb. unfold readRecords_verdict. destruct tsfb; [done|].
      split; [|done]. intros Hq.
      by apply qualityControl_not_barcode_length in Hq.
Qed.

(** X21. What a call of [readRecords] returns for the reject log is the log
    it was given followed by the events of this call. Their identifiers
    are identifiers of consumed entries, in the order of the file; no event
    carries the reason [NONE]; and an event carries
    [TOO_SHORT_FOR_BARCODE] exactly when a barcode length is configured and
    the read of its entry is shorter. *)
Theorem readRecords_reject_log
    (anyQualityBelow : list Dna5Q -> Z -> bool)
    (averageQualityBelow : FastqRecord -> Z -> bool -> bool)
    (coll coll' : FastqMultiRecordCollection) (rej rej' : list RejectEvent)
    (inStreams : SeqInputStreams) (options : CdrOptions) (count : Z)
    (rest : list RawRecord) (more : bool) :
  (0 ≤ count < 2 ^ 32)%Z →
  readRecords anyQualityBelow averageQualityBelow coll rej inStreams options count
    = Ok (coll', rej', rest, more) →
  let batch := take (consumed count (stream inStreams)) (stream inStreams) in
  ∃ new, rej' = rej ++ new
    ∧ rejId <$> new `sublist_of` batch.*1
    ∧ ∀ e, e ∈ new →
        rejReason e ≠ NONE
        ∧ ∃ raw, raw ∈ batch ∧ rejId e = raw.1
            ∧ (rejReason e = TOO_SHORT_FOR_BARCODE
               ↔ 0 < barcodeLength options ∧ length raw.2 < barcodeLength options).
Proof.
  intros Hc Hrun batch.
  destruct (readRecords_Ok_batch _ _ _ _ _ _ _ _ _ _ _ Hc Hrun) as [Hbytes _].
  destruct (readRecords_batch anyQualityBelow averageQualityBelow coll rej inStreams
              options count Hc Hbytes) as (c & Hrun' & _).
  rewrite Hrun in Hrun'. injection Hrun' as _ -> _ _.
  eexists. split; [done|].
  apply (rejected_events anyQualityBelow averageQualityBelow options emptyRecord batch).
Qed.

Lemma readRecords_reject_log_witness :
  ∃ coll' rej' rest more new,
    readRecords noQualityBelow noAverageBelow emptyCollection [] stream_short opts_bc10 0
      = Ok (coll', rej', rest, more)
    ∧ rej' = [] ++ new
    ∧ rejId <$> new `sublist_of` ["s1"; "l1"]
    ∧ ∀ e, e ∈ new → rejReason e ≠ NONE.
Proof.
  destruct (readRecords noQualityBelow noAverageBelow emptyCollection [] stream_short
              opts_bc10 0) as [[[[coll' rej'] rest] more]|f] eqn:Hrun;
    [|vm_compute in Hrun; discriminate Hrun].
  destruct (readRecords_reject_log noQualityBelow noAverageBelow emptyCollection coll'
              [] rej' stream_short opts_bc10 0 rest more) as (new & Hnew & Hsub & Hall).
  - cbn. lia.
  - exact Hrun.
  - exists coll', rej', rest, more, new. split; [reflexivity|]. split; [exact Hnew|].
    split; [exact Hsub|]. intros e He. by destruct (Hall e He).
Defined.
